(** * LLM pipeline template: decision layer, orchestration and rate limiting

    A shallow embedding of the deterministic parts of the repository
    (src/answer_judge.py, src/quality_check.py, src/pipeline.py,
    src/rate_limiter.py, src/utils.py, src/models.py, src/main.py) and the
    properties the specification states about them.

    Python [float] is IEEE-754 binary64, which is Rocq's primitive [float];
    Python [int] is [Z]; [str] is [string]; [datetime] and [timedelta] are
    [Z] counts of microseconds (their resolution); exceptions are values of
    [exn] carried by the result type [Res]; calls to the external
    collaborators (LLM, vector store, clocks) are oracles on an abstract
    world, and every invocation is recorded in a ghost log. *)

From Stdlib Require Import ZArith String Ascii List Lia.
From Stdlib Require Import Uint63 PrimFloat SpecFloat FloatOps FloatAxioms.
From stdpp Require Import base option list gmap strings pretty.

Set Default Proof Using "Type".
#[local] Open Scope string_scope.
#[local] Open Scope list_scope.
#[local] Open Scope Z_scope.

(* ===================================================================== *)
(** * Part I: the embedding *)
(* ===================================================================== *)

(** ** Exceptions and results *)

(** A Python exception: its class and [str(e)]; FastAPI's [HTTPException]
    is kept apart because the boundary layer builds it with a status. *)
Inductive exn : Type :=
| PyExc (cls : string) (msg : string)
| HTTPException (status_code : Z) (detail : string).

Definition exn_str (e : exn) : string :=
  match e with
  | PyExc _ msg => msg
  | HTTPException _ detail => detail
  end.

Inductive Res (A : Type) : Type :=
| Ok (a : A)
| Raise (e : exn).
Arguments Ok {A} a.
Arguments Raise {A} e.

Definition res_bind {A B} (r : Res A) (k : A -> Res B) : Res B :=
  match r with
  | Ok a => k a
  | Raise e => Raise e
  end.

(** ** Python numbers *)

Module PyNum.

(** [float(n)] for the integers the code converts: literals and [len]
    results, all below [2^63], where the conversion is the correctly
    rounded one of the hardware (exact below [2^53]). *)
Definition int_to_float (n : Z) : float :=
  if 0 <=? n then of_uint63 (Uint63.of_Z n)
  else (- of_uint63 (Uint63.of_Z (- n)))%float.

(** Mixed comparison [float ? int]: Python compares the exact values. *)
Definition compare_float_int (x : float) (n : Z) : option comparison :=
  match Prim2SF x with
  | S754_nan => None
  | S754_zero _ => Some (0 ?= n)
  | S754_infinity s => Some (if s then Lt else Gt)
  | S754_finite s m e =>
      let sm := if s then Z.neg m else Z.pos m in
      Some (if 0 <=? e then sm * 2 ^ e ?= n else sm ?= n * 2 ^ (- e))
  end.

(** [x >= n] *)
Definition float_ge_int (x : float) (n : Z) : bool :=
  match compare_float_int x n with
  | Some Gt | Some Eq => true
  | _ => false
  end.

(** [x < n] *)
Definition float_lt_int (x : float) (n : Z) : bool :=
  match compare_float_int x n with
  | Some Lt => true
  | _ => false
  end.

(** [x == n] *)
Definition float_eq_int (x : float) (n : Z) : bool :=
  match compare_float_int x n with
  | Some Eq => true
  | _ => false
  end.

(** [x >= y] on two floats. *)
Definition float_ge (x y : float) : bool := PrimFloat.leb y x.

(** [x < y] on two floats. *)
Definition float_lt (x y : float) : bool := PrimFloat.ltb x y.

(** [x / n] with an [int] divisor. *)
Definition truediv_float_int (x : float) (n : Z) : Res float :=
  if n =? 0 then Raise (PyExc "ZeroDivisionError" "float division by zero")
  else Ok (x / int_to_float n)%float.

(** [m / n] on two [int]s. *)
Definition truediv_int_int (m n : Z) : Res float :=
  if n =? 0 then Raise (PyExc "ZeroDivisionError" "division by zero")
  else Ok (int_to_float m / int_to_float n)%float.

(** [x * n] with an [int] factor. *)
Definition mul_float_int (x : float) (n : Z) : float :=
  (x * int_to_float n)%float.

(** Nearest integer to [p / q] for [0 <= p], [0 < q], ties to even. *)
Definition round_half_even (p q : Z) : Z :=
  let d := p / q in
  match 2 * (p mod q) ?= q with
  | Lt => d
  | Gt => d + 1
  | Eq => if Z.even d then d else d + 1
  end.

(** [round(x, 2)]: the exact value of [x] is rounded half-even to a
    multiple of 1/100 and that decimal is converted back to the nearest
    float. Non-finite values, zeros and integral values round to
    themselves; so does any [x] of magnitude [2^46] or more (its
    hundredths count [k] reaches [2^53]), whose spacing already exceeds
    1/100. *)
Definition round2 (x : float) : float :=
  match Prim2SF x with
  | S754_finite s m e =>
      if 0 <=? e then x
      else
        let k := round_half_even (Z.pos m * 100) (2 ^ (- e)) in
        if 2 ^ 53 <=? k then x
        else
          let r := (of_uint63 (Uint63.of_Z k) / int_to_float 100)%float in
          if s then (- r)%float else r
  | _ => x
  end.

Inductive number : Type :=
| PyInt (n : Z)
| PyFloat (x : float).

(** The builtin [sum] is not the same function in every CPython: up to
    3.11 it adds floats from left to right, from 3.12 it carries Neumaier's
    compensation term and adds it at the end. The repository names no
    interpreter, so the program is read under either. *)
Inductive cpython : Type :=
| upto_3_11
| from_3_12.

Definition is_zero (x : float) : bool :=
  match Prim2SF x with
  | S754_zero _ => true
  | _ => false
  end.

Definition is_finite (x : float) : bool :=
  match Prim2SF x with
  | S754_zero _ | S754_finite _ _ _ => true
  | _ => false
  end.

(** The float loop of [sum] from 3.12: [f] is the running sum, [c] the
    compensation; [fabs(f) >= fabs(x)] chooses which operand lost digits;
    at the end [c] is added when it is neither zero nor infinite nor NaN. *)
Fixpoint compensated (f c : float) (l : list float) : float :=
  match l with
  | [] => if negb (is_zero c) && is_finite c then (f + c)%float else f
  | x :: l' =>
      let t := (f + x)%float in
      let c :=
        if PrimFloat.leb (PrimFloat.abs x) (PrimFloat.abs f)
        then (c + ((f - t) + x))%float
        else (c + ((x - t) + f))%float in
      compensated t c l'
  end.

(** [sum(...)] of floats: [int] 0 for no item; else the start value 0 and
    the first item are added as numbers, and the float loop of the
    interpreter takes the rest. *)
Definition sum_floats (v : cpython) (l : list float) : number :=
  match l with
  | [] => PyInt 0
  | x0 :: l' =>
      match v with
      | upto_3_11 =>
          PyFloat (fold_left PrimFloat.add l' (int_to_float 0 + x0)%float)
      | from_3_12 =>
          PyFloat (compensated (int_to_float 0 + x0)%float 0%float l')
      end
  end.

(** [a / n] where [a] is an [int] or a [float] and [n] an [int]. *)
Definition truediv_number_int (a : number) (n : Z) : Res float :=
  match a with
  | PyInt m => truediv_int_int m n
  | PyFloat x => truediv_float_int x n
  end.

End PyNum.

Declare Scope res_scope.
Delimit Scope res_scope with res.
Notation "x <- e ;; k" := (res_bind e (fun x => k))
  (at level 100, e at next level, right associativity) : res_scope.

(** ** src/config.py *)

Module Settings.
Record t : Type := {
  retrieval_top_k : Z;
  quality_score_threshold : Z;
  rate_limit_requests : Z;
  rate_limit_window_seconds : Z
}.

(** The defaults of the class, used when the environment sets nothing. *)
Definition default : t := {|
  retrieval_top_k := 3;
  quality_score_threshold := 70;
  rate_limit_requests := 10;
  rate_limit_window_seconds := 60
|}.
End Settings.

(** ** src/models.py

    The models are records. The length bounds of [UserQuery.text] are
    checked by [UserQuery.validate], which stands for the model's
    constructor at the API boundary. The numeric bounds ([ge], [le]) on
    the fields the collaborators fill are conditions on their answers;
    the one a property needs, on the score of a check, is
    [QualityCheck.score_in_range]. *)

Module UserQuery.
Record t : Type := {
  text : string;
  metadata : option (list (string * string))
}.

(** [Field(..., min_length=1, max_length=1000)] on [text]: what the
    model's constructor checks before a handler ever sees the query. *)
Definition min_length : Z := 1.
Definition max_length : Z := 1000.

Definition validate (raw_text : string)
    (raw_metadata : option (list (string * string))) : Res t :=
  let n := Z.of_nat (String.length raw_text) in
  if n <? min_length then
    Raise (PyExc "ValidationError" "String should have at least 1 character")
  else if max_length <? n then
    Raise (PyExc "ValidationError" "String should have at most 1000 characters")
  else Ok {| text := raw_text; metadata := raw_metadata |}.
End UserQuery.

Module Classification.
Record t : Type := {
  category : string;
  confidence : float;
  reasoning : string;
  needs_context : bool
}.
End Classification.

Module GeneratedAnswer.
Record t : Type := {
  answer : string;
  sources_used : list string;
  confidence : float
}.
End GeneratedAnswer.

Module QualityCheck.
Record t : Type := {
  check_name : string;
  passed : bool;
  explanation : string;
  score : float
}.

(** [Field(..., ge=0.0, le=1.0)] on [score]. *)
Definition score_in_range (c : t) : bool :=
  (PrimFloat.leb 0 (score c) && PrimFloat.leb (score c) 1)%float.
End QualityCheck.

Module QualityCheckResult.
Record t : Type := {
  checks : list QualityCheck.t;
  overall_score : float;
  passed_all : bool
}.
End QualityCheckResult.

Inductive DecisionLabel : Type := accept | reject | manual_review.

Module JudgeDecision.
Record t : Type := {
  decision : DecisionLabel;
  confidence : float;
  reasoning : string;
  quality_score : float
}.
End JudgeDecision.

Module PipelineResult.
Record meta : Type := {
  meta_sources_used : list string;
  generator_confidence : float
}.

Record t : Type := {
  query : string;
  classification : Classification.t;
  retrieved_docs : list string;
  answer : string;
  quality_checks : QualityCheckResult.t;
  judge_decision : JudgeDecision.t;
  processing_time_ms : float;
  metadata : meta
}.
End PipelineResult.

(** ** src/answer_judge.py *)

#[local] Set Warnings "-inexact-float".

Module AnswerJudge.
Import PyNum.

Record t : Type := { threshold : Z }.

Definition init (settings : Settings.t) : t :=
  {| threshold := Settings.quality_score_threshold settings |}.

Definition _calculate_decision_confidence
    (quality_score classification_confidence : float) : Res float :=
  (q <- truediv_float_int quality_score 100 ;;
   let confidence := (q * 0.7 + classification_confidence * 0.3)%float in
   Ok (round2 confidence))%res.

Definition judge (self : t) (quality_result : QualityCheckResult.t)
    (classification_confidence : float) : Res JudgeDecision.t :=
  let quality_score := QualityCheckResult.overall_score quality_result in
  let '(decision, reasoning) :=
    if float_ge_int quality_score 90
       && float_ge classification_confidence 0.8%float
    then (accept, "High quality score and high classification confidence")
    else if float_ge_int quality_score (threshold self)
            && float_ge classification_confidence 0.6%float
    then (accept, "Quality score meets threshold with reasonable confidence")
    else if float_ge_int quality_score 50
            && float_lt_int quality_score (threshold self)
    then (manual_review, "Quality score borderline, requires human review")
    else if negb (QualityCheckResult.passed_all quality_result)
    then (manual_review, "Some quality checks failed")
    else (reject, "Quality score below threshold or low confidence") in
  (decision_confidence <-
     _calculate_decision_confidence quality_score classification_confidence ;;
   Ok {| JudgeDecision.decision := decision;
         JudgeDecision.confidence := decision_confidence;
         JudgeDecision.reasoning := reasoning;
         JudgeDecision.quality_score := quality_score |})%res.
End AnswerJudge.

(** ** src/utils.py *)

Module Utils.

(** A [string] is read as a sequence of characters, one per [ascii]
    (code points 0 to 255). *)

Definition lt_char : ascii := "<"%char.
Definition gt_char : ascii := ">"%char.
Definition space : ascii := " "%char.

(** The characters [str.split()] and [str.strip()] treat as whitespace
    (tab to carriage return, the four separators, space, NEL, NBSP). *)
Definition is_space (c : ascii) : bool :=
  let n := Z.of_nat (nat_of_ascii c) in
  ((9 <=? n) && (n <=? 13)) || ((28 <=? n) && (n <=? 32))
  || (n =? 133) || (n =? 160).

Definition is_gt (c : ascii) : bool := Ascii.eqb c gt_char.
Definition is_lt (c : ascii) : bool := Ascii.eqb c lt_char.

(** Does a [>] occur in [s]? *)
Fixpoint has_gt (s : string) : bool :=
  match s with
  | EmptyString => false
  | String c s' => is_gt c || has_gt s'
  end.

(** Does the pattern [<[^>]+>] match when its [<] has just been read and
    [s] follows? The greedy class takes the whole run of non-[>]
    characters: the run must be non-empty and a [>] must end it. *)
Definition tag_opens (s : string) : bool :=
  match s with
  | EmptyString => false
  | String c _ => negb (is_gt c) && has_gt s
  end.

(** [re.sub] of the pattern [<[^>]+>] by nothing: a left-to-right scan
    that drops each leftmost match; [in_tag] says the scan is inside a
    match, whose characters go up to and including the closing [>]. *)
Fixpoint sub_tags (in_tag : bool) (s : string) : string :=
  match s with
  | EmptyString => EmptyString
  | String c s' =>
      if in_tag then
        if is_gt c then sub_tags false s' else sub_tags true s'
      else if is_lt c && tag_opens s' then sub_tags true s'
      else String c (sub_tags false s')
  end.

(** [text.split()]: the maximal runs of non-whitespace characters;
    [cur] is the run being read. *)
Fixpoint split_from (cur : string) (s : string) : list string :=
  match s with
  | EmptyString => if String.eqb cur EmptyString then [] else [cur]
  | String c s' =>
      if is_space c then
        if String.eqb cur EmptyString then split_from EmptyString s'
        else cur :: split_from EmptyString s'
      else split_from (cur ++ String c EmptyString) s'
  end.

Definition split (s : string) : list string := split_from EmptyString s.

(** [sep.join(parts)] *)
Definition join (sep : string) (parts : list string) : string :=
  String.concat sep parts.

Fixpoint lstrip (s : string) : string :=
  match s with
  | EmptyString => EmptyString
  | String c s' => if is_space c then lstrip s' else s
  end.

Definition rev_string (s : string) : string :=
  string_of_list_ascii (List.rev (list_ascii_of_string s)).

(** [text.strip()] *)
Definition strip (s : string) : string :=
  rev_string (lstrip (rev_string (lstrip s))).

Definition sanitize_input (text : string) : string :=
  let text := sub_tags false text in
  let text := join " " (split text) in
  strip text.

(** [text[:n]] for [0 <= n]: the first [n] characters, all of them when
    there are fewer. *)
Fixpoint take_chars (n : nat) (s : string) : string :=
  match n, s with
  | O, _ => EmptyString
  | S n', String c s' => String c (take_chars n' s')
  | S _, EmptyString => EmptyString
  end.

(** [text[:k]] for any integer [k]: a negative [k] counts from the end
    and stops at the start. *)
Definition slice_to (s : string) (k : Z) : string :=
  if 0 <=? k then take_chars (Z.to_nat k) s
  else take_chars (Z.to_nat (Z.of_nat (String.length s) + k)) s.

(** The default of [max_length]. *)
Definition default_max_length : Z := 500.

Definition truncate_text (text : string) (max_length : Z) : string :=
  if Z.of_nat (String.length text) <=? max_length then text
  else (slice_to text (max_length - 3) ++ "...")%string.

(** [extract_json_from_markdown]: the first group of the leftmost match of
    the pattern [```json\s*(.*?)\s*```], where the dot matches every
    character. *)

Definition backtick : ascii := "`"%char.
Definition is_backtick (c : ascii) : bool := Ascii.eqb c backtick.

(** [s] without the prefix [p], when it has it. *)
Fixpoint strip_prefix (p s : string) : option string :=
  match p, s with
  | EmptyString, _ => Some s
  | String a p', String c s' =>
      if Ascii.eqb a c then strip_prefix p' s' else None
  | String _ _, EmptyString => None
  end.

(** What follows the leftmost [```json]. *)
Fixpoint after_opener (s : string) : option string :=
  match strip_prefix "```json" s with
  | Some rest => Some rest
  | None =>
      match s with
      | EmptyString => None
      | String _ s' => after_opener s'
      end
  end.

(** Does [\s*```] match at the start of [s]? *)
Definition closes (s : string) : bool :=
  match strip_prefix "```" (lstrip s) with
  | Some _ => true
  | None => false
  end.

(** The lazy group: the shortest prefix of [s] after which the closing
    part matches; none when no closing fence follows. *)
Fixpoint lazy_group (s : string) : option string :=
  if closes s then Some EmptyString
  else
    match s with
    | EmptyString => None
    | String c s' =>
        match lazy_group s' with
        | Some g => Some (String c g)
        | None => None
        end
    end.

(** The greedy [\s*] after the opener takes all the whitespace there is;
    the search fails at the leftmost opener only when no fence follows
    it, and then no later opener can match either. *)
Definition extract_json_from_markdown (text : string) : option string :=
  match after_opener text with
  | Some rest => lazy_group (lstrip rest)
  | None => None
  end.

End Utils.

(** ** src/rate_limiter.py *)

Module RateLimiter.

(** [datetime] values and the [timedelta] window are counted in
    microseconds; [requests] is the [defaultdict(list)]. *)
Record t : Type := {
  max_requests : Z;
  window : Z;
  requests : gmap string (list Z)
}.

Definition init (max_requests window_seconds : Z) : t :=
  {| max_requests := max_requests;
     window := window_seconds * 1000000;
     requests := ∅ |}.

(** [self.requests[client_id]]: a missing key reads as the empty list. *)
Definition timestamps (self : t) (client_id : string) : list Z :=
  default [] (requests self !! client_id).

Definition set_timestamps (self : t) (client_id : string) (l : list Z) : t :=
  {| max_requests := max_requests self;
     window := window self;
     requests := <[client_id := l]> (requests self) |}.

(** [is_allowed], with the reading [now] of [datetime.now()] made a
    parameter; returns the answer and the limiter after the call. *)
Definition is_allowed (self : t) (now : Z) (client_id : string) : bool * t :=
  let kept :=
    filter (fun timestamp => now - timestamp < window self)
           (timestamps self client_id) in
  let self := set_timestamps self client_id kept in
  if Z.of_nat (length (timestamps self client_id)) >=? max_requests self
  then (false, self)
  else (true, set_timestamps self client_id (timestamps self client_id ++ [now])).

(** [self.window.seconds]: the seconds field of the normalised
    [timedelta]. *)
Definition window_seconds_field (self : t) : Z :=
  (window self / 1000000) mod 86400.

Definition rate_limit_detail (self : t) : string :=
  "Rate limit exceeded. Max " ++ pretty (max_requests self)
    ++ " requests per " ++ pretty (window_seconds_field self) ++ " seconds.".

End RateLimiter.

(** ** Collaborators, events and the effect monad *)

(** The five criteria of [check_quality], by name and description. *)
Record criterion : Type := {
  criterion_name : string;
  criterion_description : string
}.

(** What the JSON answer of one quality check holds. *)
Record check_answer : Type := {
  answer_passed : bool;
  answer_explanation : string;
  answer_score : float
}.

(** The outside world: each oracle may fail and may change the world.
    [classify], [generate] and the single check stand for the LLM round
    trip of the corresponding method, [similarity_search] for the vector
    store, the next two for the clocks; [python] is the interpreter the
    program runs on. *)
Record Collaborators (World : Type) : Type := {
  llm_classify : string -> World -> Res Classification.t * World;
  similarity_search : string -> Z -> World -> Res (list string) * World;
  llm_generate :
    string -> Classification.t -> list string -> World ->
    Res GeneratedAnswer.t * World;
  llm_single_check :
    string -> string -> list string -> criterion -> World ->
    Res check_answer * World;
  time_time : World -> float * World;
  datetime_now : World -> Z * World;
  python : PyNum.cpython
}.
Arguments llm_classify {World} _ _ _.
Arguments similarity_search {World} _ _ _ _.
Arguments llm_generate {World} _ _ _ _ _.
Arguments llm_single_check {World} _ _ _ _ _ _.
Arguments time_time {World} _ _.
Arguments datetime_now {World} _ _.
Arguments python {World} _.

(** Ghost record of what was invoked, in order. *)
Inductive Event : Type :=
| EvRateLimit (client_id : string) (now : Z) (allowed : bool)
| EvClassify (query : string)
| EvRetrieve (query : string)
| EvGenerate (query : string) (classification : Classification.t)
             (context_docs : list string)
| EvCheckQuality (query answer : string) (context_docs : list string)
| EvJudge (quality_result : QualityCheckResult.t)
          (classification_confidence : float).

(** The four collaborator stages and the judge. *)
Inductive Stage : Type :=
| StClassify | StRetrieve | StGenerate | StCheckQuality | StJudge.

Definition event_stage (ev : Event) : option Stage :=
  match ev with
  | EvRateLimit _ _ _ => None
  | EvClassify _ => Some StClassify
  | EvRetrieve _ => Some StRetrieve
  | EvGenerate _ _ _ => Some StGenerate
  | EvCheckQuality _ _ _ => Some StCheckQuality
  | EvJudge _ _ => Some StJudge
  end.

Definition is_stage_event (ev : Event) : bool :=
  match event_stage ev with Some _ => true | None => false end.

(** The query text a stage was given. *)
Definition event_query (ev : Event) : option string :=
  match ev with
  | EvClassify q | EvRetrieve q | EvGenerate q _ _ | EvCheckQuality q _ _ =>
      Some q
  | _ => None
  end.

Definition is_retrieve (ev : Event) : bool :=
  match ev with EvRetrieve _ => true | _ => false end.

Definition is_generate (ev : Event) : bool :=
  match ev with EvGenerate _ _ _ => true | _ => false end.

Record State (World : Type) : Type := {
  world : World;
  log : list Event;
  rate_limiter : RateLimiter.t
}.
Arguments world {World} _.
Arguments log {World} _.
Arguments rate_limiter {World} _.

(** State and exception monad: an exception keeps the state reached. *)
Definition M (World A : Type) : Type := State World -> Res A * State World.

Section Monad.
Context {World : Type}.

Definition ret {A} (a : A) : M World A := fun st => (Ok a, st).

Definition bind {A B} (m : M World A) (k : A -> M World B) : M World B :=
  fun st =>
    match m st with
    | (Ok a, st') => k a st'
    | (Raise e, st') => (Raise e, st')
    end.

Definition raise {A} (e : exn) : M World A := fun st => (Raise e, st).

(** [try: body except Exception as e: handler] *)
Definition try_except {A} (body : M World A) (handler : exn -> M World A)
    : M World A :=
  fun st =>
    match body st with
    | (Ok a, st') => (Ok a, st')
    | (Raise e, st') => handler e st'
    end.

Definition lift_res {A} (r : Res A) : M World A := fun st => (r, st).

Definition emit (ev : Event) : M World unit :=
  fun st =>
    (Ok tt, {| world := world st; log := log st ++ [ev];
               rate_limiter := rate_limiter st |}).

(** Run an oracle on the world. *)
Definition ask {A} (f : World -> Res A * World) : M World A :=
  fun st =>
    let '(r, w) := f (world st) in
    (r, {| world := w; log := log st; rate_limiter := rate_limiter st |}).

Definition ask_total {A} (f : World -> A * World) : M World A :=
  fun st =>
    let '(a, w) := f (world st) in
    (Ok a, {| world := w; log := log st; rate_limiter := rate_limiter st |}).

Definition get_rate_limiter : M World RateLimiter.t :=
  fun st => (Ok (rate_limiter st), st).

Definition put_rate_limiter (rl : RateLimiter.t) : M World unit :=
  fun st =>
    (Ok tt, {| world := world st; log := log st; rate_limiter := rl |}).
End Monad.

Declare Scope m_scope.
Delimit Scope m_scope with M.
Notation "x <- e ;; k" := (bind e (fun x => k))
  (at level 100, e at next level, right associativity) : m_scope.
Notation "e ;;; k" := (bind e (fun _ => k))
  (at level 100, right associativity) : m_scope.

#[local] Open Scope m_scope.

(** ** src/classifier.py, src/retriever.py, src/generator.py

    The three methods the pipeline calls; their bodies are one round trip
    to the outside world each. *)

Section Stages.
Context {World : Type} (env : Collaborators World) (settings : Settings.t).

Definition classify (query : string) : M World Classification.t :=
  emit (EvClassify query) ;;;
  ask (llm_classify env query).

(** [k = k or settings.retrieval_top_k] *)
Definition retrieve (query : string) (k : option Z) : M World (list string) :=
  emit (EvRetrieve query) ;;;
  let k := match k with
           | Some k => if k =? 0 then Settings.retrieval_top_k settings else k
           | None => Settings.retrieval_top_k settings
           end in
  ask (similarity_search env query k).

Definition generate (query : string) (classification : Classification.t)
    (context_docs : list string) : M World GeneratedAnswer.t :=
  emit (EvGenerate query classification context_docs) ;;;
  ask (llm_generate env query classification context_docs).
End Stages.

(** ** src/quality_check.py *)

Module QualityChecker.
Import PyNum.

Definition check_criteria : list criterion := [
  {| criterion_name := "relevance";
     criterion_description :=
       "Does the answer directly address the user's query?" |};
  {| criterion_name := "completeness";
     criterion_description := "Is the answer complete and thorough?" |};
  {| criterion_name := "accuracy";
     criterion_description :=
       "Is the information factually correct based on context?" |};
  {| criterion_name := "clarity";
     criterion_description := "Is the answer clear and easy to understand?" |};
  {| criterion_name := "professionalism";
     criterion_description := "Is the tone professional and appropriate?" |}
].

(** The aggregation at the end of [check_quality]: overall score and
    pass flag of the collected checks, on the interpreter [v]. *)
Definition aggregate (v : cpython) (checks : list QualityCheck.t)
    : Res QualityCheckResult.t :=
  (mean <- truediv_number_int
             (sum_floats v (List.map QualityCheck.score checks))
             (Z.of_nat (length checks)) ;;
   let overall_score := mul_float_int mean 100 in
   let passed_all := forallb QualityCheck.passed checks in
   Ok {| QualityCheckResult.checks := checks;
         QualityCheckResult.overall_score := round2 overall_score;
         QualityCheckResult.passed_all := passed_all |})%res.

Section Checker.
Context {World : Type} (env : Collaborators World).

(** The prompt shows the first two context documents. *)
Definition _run_single_check (query answer : string)
    (context_docs : list string) (c : criterion) : M World QualityCheck.t :=
  result <- ask (llm_single_check env query answer (take 2 context_docs) c) ;;
  ret {| QualityCheck.check_name := criterion_name c;
         QualityCheck.passed := answer_passed result;
         QualityCheck.explanation := answer_explanation result;
         QualityCheck.score := answer_score result |}.

(** The loop over the criteria, appending each result. *)
Fixpoint run_checks (query answer : string) (context_docs : list string)
    (criteria : list criterion) (checks : list QualityCheck.t)
    : M World (list QualityCheck.t) :=
  match criteria with
  | [] => ret checks
  | c :: rest =>
      check_result <- _run_single_check query answer context_docs c ;;
      run_checks query answer context_docs rest (checks ++ [check_result])
  end.

Definition check_quality (query answer : string)
    (context_docs : list string) : M World QualityCheckResult.t :=
  emit (EvCheckQuality query answer context_docs) ;;;
  checks <- run_checks query answer context_docs check_criteria [] ;;
  lift_res (aggregate (python env) checks).
End Checker.
End QualityChecker.

(** ** src/pipeline.py

    The progress lines [process] prints between the steps have no effect
    on its result and are left out. *)

Module Pipeline.
Import PyNum.

Record t : Type := { judge : AnswerJudge.t }.

Definition init (settings : Settings.t) : t :=
  {| judge := AnswerJudge.init settings |}.

Section Process.
Context {World : Type} (env : Collaborators World) (settings : Settings.t).

Definition process (self : t) (query : string) : M World PipelineResult.t :=
  start_time <- ask_total (time_time env) ;;
  (* Step 1 *)
  classification <- classify env query ;;
  (* Step 2 *)
  retrieved_docs <-
    (if Classification.needs_context classification
     then retrieve env settings query None
     else ret []) ;;
  (* Step 3 *)
  generated <- generate env query classification retrieved_docs ;;
  (* Step 4 *)
  quality_result <-
    QualityChecker.check_quality env query
      (GeneratedAnswer.answer generated) retrieved_docs ;;
  (* Step 5 *)
  emit (EvJudge quality_result (Classification.confidence classification)) ;;;
  judge_decision <-
    lift_res (AnswerJudge.judge (judge self) quality_result
                (Classification.confidence classification)) ;;
  end_time <- ask_total (time_time env) ;;
  let processing_time := mul_float_int (end_time - start_time)%float 1000 in
  ret {| PipelineResult.query := query;
         PipelineResult.classification := classification;
         PipelineResult.retrieved_docs := retrieved_docs;
         PipelineResult.answer := GeneratedAnswer.answer generated;
         PipelineResult.quality_checks := quality_result;
         PipelineResult.judge_decision := judge_decision;
         PipelineResult.processing_time_ms := round2 processing_time;
         PipelineResult.metadata :=
           {| PipelineResult.meta_sources_used :=
                GeneratedAnswer.sources_used generated;
              PipelineResult.generator_confidence :=
                GeneratedAnswer.confidence generated |} |}.
End Process.
End Pipeline.

(** ** src/main.py *)

Module Main.

(** [request.client] is absent for some transports. *)
Record Request : Type := { client_host : option string }.

Inductive Body : Type :=
| ProcessBody (result : PipelineResult.t)
| ClassifyBody (classification : Classification.t)
| RetrieveBody (query : string) (retrieved_docs : list string).

Inductive Endpoint : Type := EpProcess | EpClassify | EpRetrieve.

Section Routes.
Context {World : Type} (env : Collaborators World) (settings : Settings.t).

(** [RateLimiter.check] on the process-wide [rate_limiter]. *)
Definition check (request : Request) : M World unit :=
  match client_host request with
  | None =>
      raise (PyExc "AttributeError"
                   "'NoneType' object has no attribute 'host'")
  | Some client_ip =>
      now <- ask_total (datetime_now env) ;;
      self <- get_rate_limiter ;;
      let '(allowed, self') := RateLimiter.is_allowed self now client_ip in
      put_rate_limiter self' ;;;
      emit (EvRateLimit client_ip now allowed) ;;;
      if negb allowed
      then raise (HTTPException 429 (RateLimiter.rate_limit_detail self'))
      else ret tt
  end.

Definition process_query (pipeline : Pipeline.t) (request : Request)
    (query : UserQuery.t) : M World Body :=
  check request ;;;
  try_except
    (let clean_text := Utils.sanitize_input (UserQuery.text query) in
     result <- Pipeline.process env settings pipeline clean_text ;;
     ret (ProcessBody result))
    (fun e => raise (HTTPException 500 ("Pipeline error: " ++ exn_str e))).

Definition classify_only (pipeline : Pipeline.t) (request : Request)
    (query : UserQuery.t) : M World Body :=
  check request ;;;
  try_except
    (let clean_text := Utils.sanitize_input (UserQuery.text query) in
     classification <- classify env clean_text ;;
     ret (ClassifyBody classification))
    (fun e =>
       raise (HTTPException 500 ("Classification error: " ++ exn_str e))).

Definition retrieve_only (pipeline : Pipeline.t) (request : Request)
    (query : UserQuery.t) : M World Body :=
  check request ;;;
  try_except
    (let clean_text := Utils.sanitize_input (UserQuery.text query) in
     docs <- retrieve env settings clean_text None ;;
     ret (RetrieveBody clean_text docs))
    (fun e => raise (HTTPException 500 ("Retrieval error: " ++ exn_str e))).

Definition handler (ep : Endpoint) :
    Pipeline.t -> Request -> UserQuery.t -> M World Body :=
  match ep with
  | EpProcess => process_query
  | EpClassify => classify_only
  | EpRetrieve => retrieve_only
  end.

(** A POST as the framework serves it: the body is validated into a
    [UserQuery] first, and the handler runs only on a valid one. *)
Definition post (ep : Endpoint) (pipeline : Pipeline.t) (request : Request)
    (raw_text : string) (raw_metadata : option (list (string * string)))
    : M World Body :=
  query <- lift_res (UserQuery.validate raw_text raw_metadata) ;;
  handler ep pipeline request query.

(** The state of a freshly started server. *)
Definition initial_state (w : World) : State World :=
  {| world := w; log := [];
     rate_limiter :=
       RateLimiter.init (Settings.rate_limit_requests settings)
                        (Settings.rate_limit_window_seconds settings) |}.
End Routes.
End Main.

(** ** The judge's rules as the specification words them

    An ordered list of guarded rules, first match wins. The guards and
    verdicts follow the specification; [branch_reasoning] is the text the
    corresponding branch of the code attaches, which tells the branches
    apart in a [JudgeDecision]. *)

Module JudgeSpec.
Import PyNum.

Inductive rule : Type := R1 | R2 | R3 | R4 | R5.

Definition rule_order : list rule := [R1; R2; R3; R4; R5].

Definition guard (quality_threshold : Z) (overall_score : float)
    (passed_all : bool) (classification_confidence : float) (r : rule) : bool :=
  match r with
  | R1 => float_ge_int overall_score 90
          && float_ge classification_confidence 0.8%float
  | R2 => float_ge_int overall_score quality_threshold
          && float_ge classification_confidence 0.6%float
  | R3 => float_ge_int overall_score 50
          && float_lt_int overall_score quality_threshold
  | R4 => negb passed_all
  | R5 => true
  end.

Definition verdict (r : rule) : DecisionLabel :=
  match r with
  | R1 | R2 => accept
  | R3 | R4 => manual_review
  | R5 => reject
  end.

Definition branch_reasoning (r : rule) : string :=
  match r with
  | R1 => "High quality score and high classification confidence"
  | R2 => "Quality score meets threshold with reasonable confidence"
  | R3 => "Quality score borderline, requires human review"
  | R4 => "Some quality checks failed"
  | R5 => "Quality score below threshold or low confidence"
  end.

Fixpoint first_match (g : rule -> bool) (rs : list rule) : option rule :=
  match rs with
  | [] => None
  | r :: rs' => if g r then Some r else first_match g rs'
  end.

(** The rule that decides. *)
Definition fired (quality_threshold : Z) (overall_score : float)
    (passed_all : bool) (classification_confidence : float) : option rule :=
  first_match
    (guard quality_threshold overall_score passed_all classification_confidence)
    rule_order.

(** The blend of the specification:
    [round(overall_score/100 * 0.7 + classification_confidence * 0.3, 2)]. *)
Definition blend (overall_score classification_confidence : float) : float :=
  round2 (overall_score / 100 * 0.7 + classification_confidence * 0.3)%float.
End JudgeSpec.

(** Fixtures for the examples of the specification: the judge at the
    default threshold and a quality result with a given score and flag. *)
Definition default_judge : AnswerJudge.t := AnswerJudge.init Settings.default.

Definition quality (score : float) (passed_all : bool) : QualityCheckResult.t :=
  {| QualityCheckResult.checks := [];
     QualityCheckResult.overall_score := score;
     QualityCheckResult.passed_all := passed_all |}.

(** Decision and reasoning of a judge outcome. *)
Definition outcome (r : Res JudgeDecision.t) : option (DecisionLabel * string) :=
  match r with
  | Ok d => Some (JudgeDecision.decision d, JudgeDecision.reasoning d)
  | Raise _ => None
  end.

Definition rule_outcome (r : JudgeSpec.rule) : option (DecisionLabel * string) :=
  Some (JudgeSpec.verdict r, JudgeSpec.branch_reasoning r).

(** ** The aggregation as the specification words it *)

Module QualitySpec.
Import PyNum.

(** [AND over all checks.passed] *)
Fixpoint conjunction (checks : list QualityCheck.t) : bool :=
  match checks with
  | [] => true
  | c :: rest => QualityCheck.passed c && conjunction rest
  end.

(** A check with a given score and flag. *)
Definition check_of (name : string) (score : float) (passed : bool) : QualityCheck.t :=
  {| QualityCheck.check_name := name;
     QualityCheck.passed := passed;
     QualityCheck.explanation := EmptyString;
     QualityCheck.score := score |}.

(** The score of an aggregation that returned. *)
Definition score_of (r : Res QualityCheckResult.t) : option float :=
  match r with
  | Ok r => Some (QualityCheckResult.overall_score r)
  | Raise _ => None
  end.

(** Five checks, one per criterion, with the given scores, all passed. *)
Definition checks_of (scores : list float) : list QualityCheck.t :=
  List.map (fun p => check_of (criterion_name (fst p)) (snd p) true)
           (List.combine QualityChecker.check_criteria scores).
End QualitySpec.

(** ** Runs of the pipeline: which collaborator failed

    [stage_fails env settings query st stage e st'] says that, in the run
    of [process] on [query] from [st], every stage before [stage] returned
    and the collaborator of [stage] raised [e], leaving the state [st']. *)

Section Runs.
Context {World : Type} (env : Collaborators World) (settings : Settings.t).

(** Step 2 of [process]: retrieval, or the empty list without a call. *)
Definition retrieved (query : string) (classification : Classification.t)
    : M World (list string) :=
  if Classification.needs_context classification
  then retrieve env settings query None
  else ret [].

Inductive stage_fails (query : string) (st : State World)
    : Stage -> exn -> State World -> Prop :=
| fails_classify t0 st0 e st1 :
    ask_total (time_time env) st = (Ok t0, st0) ->
    classify env query st0 = (Raise e, st1) ->
    stage_fails query st StClassify e st1
| fails_retrieve t0 st0 cls st1 e st2 :
    ask_total (time_time env) st = (Ok t0, st0) ->
    classify env query st0 = (Ok cls, st1) ->
    Classification.needs_context cls = true ->
    retrieve env settings query None st1 = (Raise e, st2) ->
    stage_fails query st StRetrieve e st2
| fails_generate t0 st0 cls st1 docs st2 e st3 :
    ask_total (time_time env) st = (Ok t0, st0) ->
    classify env query st0 = (Ok cls, st1) ->
    retrieved query cls st1 = (Ok docs, st2) ->
    generate env query cls docs st2 = (Raise e, st3) ->
    stage_fails query st StGenerate e st3
| fails_check_quality t0 st0 cls st1 docs st2 gen st3 e st4 :
    ask_total (time_time env) st = (Ok t0, st0) ->
    classify env query st0 = (Ok cls, st1) ->
    retrieved query cls st1 = (Ok docs, st2) ->
    generate env query cls docs st2 = (Ok gen, st3) ->
    QualityChecker.check_quality env query (GeneratedAnswer.answer gen) docs st3
    = (Raise e, st4) ->
    stage_fails query st StCheckQuality e st4.

(** The classification the classifier gives for [query] in the run of
    [process] from [st] (the start time is read first). *)
Definition classified (query : string) (st : State World) : Res Classification.t :=
  fst (llm_classify env query (snd (time_time env (world st)))).
End Runs.

(** The stages of one request in order, retrieval only when needed. *)
Definition stage_sequence (needs_context : bool) : list Stage :=
  [StClassify] ++ (if needs_context then [StRetrieve] else [])
  ++ [StGenerate; StCheckQuality; StJudge].

Definition stage_eqb (a b : Stage) : bool :=
  match a, b with
  | StClassify, StClassify | StRetrieve, StRetrieve | StGenerate, StGenerate
  | StCheckQuality, StCheckQuality | StJudge, StJudge => true
  | _, _ => false
  end.

(** The sequence up to and including [stage]. *)
Fixpoint through (stage : Stage) (l : list Stage) : list Stage :=
  match l with
  | [] => []
  | s :: rest => if stage_eqb s stage then [s] else s :: through stage rest
  end.

Definition stages_of (evs : list Event) : list Stage :=
  omap event_stage evs.

(** ** Test doubles

    Collaborators with scripted answers over a world that is a clock in
    microseconds; [datetime.now()] advances it by [step]; the interpreter
    is a CPython up to 3.11. *)

Module Double.
Definition scripted (cls : Res Classification.t) (docs : Res (list string))
    (gen : Res GeneratedAnswer.t) (chk : Res check_answer) (step : Z)
    : Collaborators Z :=
  {| llm_classify := fun _ w => (cls, w);
     similarity_search := fun _ _ w => (docs, w);
     llm_generate := fun _ _ _ w => (gen, w);
     llm_single_check := fun _ _ _ _ w => (chk, w);
     time_time := fun w => (PyNum.int_to_float (w / 1000000), w);
     datetime_now := fun w => (w, w + step);
     python := PyNum.upto_3_11 |}.

Definition classification (needs_context : bool) : Classification.t :=
  {| Classification.category := "general_inquiry";
     Classification.confidence := 0.75;
     Classification.reasoning := "asks for opening hours";
     Classification.needs_context := needs_context |}.

Definition docs : list string := ["Q: hours? A: 9 to 5"; "Q: weekend? A: closed"].

Definition generated : GeneratedAnswer.t :=
  {| GeneratedAnswer.answer := "We are open 9 to 5.";
     GeneratedAnswer.sources_used := ["q001"];
     GeneratedAnswer.confidence := 0.9 |}.

Definition good_check : check_answer :=
  {| answer_passed := true; answer_explanation := "fine";
     answer_score := 0.85 |}.

Definition boom : exn := PyExc "RuntimeError" "upstream unavailable".

(** Every collaborator answers. *)
Definition healthy (needs_context : bool) : Collaborators Z :=
  scripted (Ok (classification needs_context)) (Ok docs) (Ok generated)
           (Ok good_check) 1000000.

(** The classifier fails. *)
Definition classifier_down : Collaborators Z :=
  scripted (Raise boom) (Ok docs) (Ok generated) (Ok good_check) 1000000.

(** The generator fails, with the same message. *)
Definition generator_down : Collaborators Z :=
  scripted (Ok (classification true)) (Ok docs) (Raise boom)
           (Ok good_check) 1000000.

Definition request : Main.Request := {| Main.client_host := Some "10.0.0.7" |}.

Definition user_query (text : string) : UserQuery.t :=
  {| UserQuery.text := text; UserQuery.metadata := None |}.

Definition pipeline : Pipeline.t := Pipeline.init Settings.default.

Definition start : State Z := Main.initial_state Settings.default 0.
End Double.

(** The retrieval events of a run whose classification is [cls]. *)
Definition retrieval_events (query : string) (cls : Classification.t) : list Event :=
  if Classification.needs_context cls then [EvRetrieve query] else [].

(** [st'] is [st] with the world moved on and [evs] logged; the rate
    limiter is untouched. *)
Definition logged {World : Type} (st st' : State World) (evs : list Event) : Prop :=
  log st' = log st ++ evs /\ rate_limiter st' = rate_limiter st.

(** The five ways a run of [process] on [query] from [st] can go, each
    with the outcome, the final state and the events it logs. *)
Section RunShapes.
Context {World : Type} (env : Collaborators World) (settings : Settings.t).

Inductive run (self : Pipeline.t) (query : string) (st : State World)
    : Res PipelineResult.t -> State World -> list Event -> Prop :=
| run_classify_fails e st' :
    stage_fails env settings query st StClassify e st' ->
    classified env query st = Raise e ->
    run self query st (Raise e) st' [EvClassify query]
| run_retrieve_fails e cls st' :
    stage_fails env settings query st StRetrieve e st' ->
    classified env query st = Ok cls ->
    Classification.needs_context cls = true ->
    run self query st (Raise e) st' [EvClassify query; EvRetrieve query]
| run_generate_fails e cls docs st' :
    stage_fails env settings query st StGenerate e st' ->
    classified env query st = Ok cls ->
    (Classification.needs_context cls = false -> docs = []) ->
    run self query st (Raise e) st'
      ([EvClassify query] ++ retrieval_events query cls
       ++ [EvGenerate query cls docs])
| run_check_quality_fails e cls docs gen st' :
    stage_fails env settings query st StCheckQuality e st' ->
    classified env query st = Ok cls ->
    (Classification.needs_context cls = false -> docs = []) ->
    run self query st (Raise e) st'
      ([EvClassify query] ++ retrieval_events query cls
       ++ [EvGenerate query cls docs;
           EvCheckQuality query (GeneratedAnswer.answer gen) docs])
| run_completes r cls docs gen qr jd st' :
    classified env query st = Ok cls ->
    (Classification.needs_context cls = false -> docs = []) ->
    QualityChecker.aggregate (python env) (QualityCheckResult.checks qr) = Ok qr ->
    AnswerJudge.judge (Pipeline.judge self) qr (Classification.confidence cls)
    = Ok jd ->
    PipelineResult.query r = query ->
    PipelineResult.classification r = cls ->
    PipelineResult.retrieved_docs r = docs ->
    PipelineResult.answer r = GeneratedAnswer.answer gen ->
    PipelineResult.quality_checks r = qr ->
    PipelineResult.judge_decision r = jd ->
    run self query st (Ok r) st'
      ([EvClassify query] ++ retrieval_events query cls
       ++ [EvGenerate query cls docs;
           EvCheckQuality query (GeneratedAnswer.answer gen) docs;
           EvJudge qr (Classification.confidence cls)]).
End RunShapes.

(** The claim that a failure response names the stage that failed: some
    reading [tag] of the response gives, for every admitted request whose
    run fails at [stage], that stage. *)
Definition responses_tagged_with_stage : Prop :=
  exists tag : Res Main.Body -> Stage,
    forall (World : Type) (env : Collaborators World) (settings : Settings.t)
           (pipeline : Pipeline.t) (request : Main.Request) (query : UserQuery.t)
           (st st_c st' : State World) (stage : Stage) (e : exn),
      Main.check env request st = (Ok tt, st_c) ->
      stage_fails env settings (Utils.sanitize_input (UserQuery.text query))
                  st_c stage e st' ->
      tag (fst (Main.process_query env settings pipeline request query st)) = stage.

(** What the three handlers put before the cause of a failure. *)
Definition error_prefix (ep : Main.Endpoint) : string :=
  match ep with
  | Main.EpProcess => "Pipeline error: "
  | Main.EpClassify => "Classification error: "
  | Main.EpRetrieve => "Retrieval error: "
  end.

(** The response to a failure [e] inside the [try] of endpoint [ep]. *)
Definition failure_response (ep : Main.Endpoint) (e : exn) : exn :=
  HTTPException 500 (error_prefix ep ++ exn_str e).

(** [ev] is the invocation of a stage, on [query] when it takes one. *)
Definition stage_event_on (query : string) (ev : Event) : Prop :=
  is_stage_event ev = true
  /\ forall q, event_query ev = Some q -> q = query.

Definition status_of (e : exn) : option Z :=
  match e with
  | HTTPException status _ => Some status
  | PyExc _ _ => None
  end.

Definition attribute_error : exn :=
  PyExc "AttributeError" "'NoneType' object has no attribute 'host'".

(** ** The rate limiter as the specification words it *)

Module RateSpec.
Import RateLimiter.

Definition seconds (n : Z) : Z := n * 1000000.

(** Purging the timestamps older than [now - window]: those [t] with
    [t < now - window] go. *)
Definition purge_older (now window : Z) (l : list Z) : list Z :=
  filter (fun t => ~ t < now - window) l.

(** Purging the timestamps at least a full window old: those [t] with
    [t <= now - window] go. *)
Definition purge_expired (now window : Z) (l : list Z) : list Z :=
  filter (fun t => ~ t <= now - window) l.

(** Admission on top of a purge: reject without recording when the
    remaining count has reached [max_requests], else record [now]. *)
Definition admit_with (purge : Z -> Z -> list Z -> list Z)
    (self : t) (now : Z) (client_id : string) : bool * t :=
  let kept := purge now (window self) (timestamps self client_id) in
  if decide (max_requests self <= Z.of_nat (length kept))
  then (false, set_timestamps self client_id kept)
  else (true, set_timestamps self client_id (kept ++ [now])).

(** Successive calls of [is_allowed] for one client at the given times;
    the answers in order and the limiter at the end. *)
Fixpoint admit_each (self : t) (client_id : string) (times : list Z)
    : list bool * t :=
  match times with
  | [] => ([], self)
  | now :: rest =>
      let '(ok, self') := is_allowed self now client_id in
      let '(oks, self'') := admit_each self' client_id rest in
      (ok :: oks, self'')
  end.

(** The limiters a server can be in: the initial one and those after
    any call of [is_allowed]. *)
Inductive reachable (self0 : t) : t -> Prop :=
| reach_init : reachable self0 self0
| reach_call self now client_id :
    reachable self0 self ->
    reachable self0 (snd (is_allowed self now client_id)).
End RateSpec.

(** ** What sanitizing guarantees, as the specification words it *)

Module SanitizeSpec.
Import Utils.

(** Does [<[^>]+>] match somewhere in [s]? *)
Fixpoint has_tag (s : string) : bool :=
  match s with
  | EmptyString => false
  | String c s' => (is_lt c && tag_opens s') || has_tag s'
  end.

Fixpoint no_space (s : string) : bool :=
  match s with
  | EmptyString => true
  | String c s' => negb (is_space c) && no_space s'
  end.

(** A word: at least one character, none of them whitespace. *)
Definition is_word (w : string) : Prop := w <> EmptyString /\ no_space w = true.

(** Whitespace is collapsed in [s]: words separated by single spaces,
    nothing before the first or after the last. *)
Definition collapsed (s : string) : Prop :=
  exists words, Forall is_word words /\ s = join " " words.

(** The collapse written as one scan: [w] says a word has been written,
    [g] that whitespace was met since; a separator is written before the
    next word only. *)
Fixpoint collapse (w g : bool) (s : string) : string :=
  match s with
  | EmptyString => EmptyString
  | String c s' =>
      if is_space c then collapse w true s'
      else if w && g then String space (String c (collapse true false s'))
      else String c (collapse true false s')
  end.

Definition head_nonspace (s : string) : bool :=
  match s with
  | EmptyString => true
  | String c _ => negb (is_space c)
  end.

Fixpoint last_nonspace (s : string) : bool :=
  match s with
  | EmptyString => true
  | String c EmptyString => negb (is_space c)
  | String _ s' => last_nonspace s'
  end.

(** A tag, as the pattern has it: [<], one or more characters other than
    [>], and [>]. *)
Definition is_tag (t : string) : Prop :=
  exists body,
    t = String lt_char (body ++ String gt_char EmptyString)
    /\ body <> EmptyString
    /\ has_gt body = false.

(** A tag stands at the head of [s]. *)
Definition tag_at_head (s : string) : Prop :=
  exists t rest, is_tag t /\ s = (t ++ rest)%string.

(** [out] is [s] with its tags stripped: reading from the left, a tag
    standing at the head is dropped whole, any other character is kept. *)
Inductive strips : string -> string -> Prop :=
| strips_end : strips EmptyString EmptyString
| strips_tag s t rest out :
    s = (t ++ rest)%string -> is_tag t -> strips rest out -> strips s out
| strips_keep c rest out :
    ~ tag_at_head (String c rest) -> strips rest out ->
    strips (String c rest) (String c out).

(** The stages of a request all read [query]. *)
Definition stages_read (query : string) (evs : list Event) : Prop :=
  forall ev q, In ev evs -> event_query ev = Some q -> q = query.

Definition has_stage (evs : list Event) : Prop :=
  exists ev, In ev evs /\ is_stage_event ev = true.
End SanitizeSpec.

(** ** Proof helpers *)

(** Case split on the first [a >=? b] of the goal. *)
Ltac case_geb :=
  match goal with
  | |- context [?a >=? ?b] => destruct (Z.geb_spec a b)
  end.

(** Invert an equation between pairs or results in the hypotheses. *)
Ltac same_run E E' :=
  rewrite E in E'; injection E' as <- <-.

(** ** Notions for the further properties *)

Module TextSpec.
Import Utils.

(** Does a fence [```] occur in [s]? *)
Fixpoint has_fence (s : string) : bool :=
  match strip_prefix "```" s with
  | Some _ => true
  | None =>
      match s with
      | EmptyString => false
      | String _ s' => has_fence s'
      end
  end.

Fixpoint no_backtick (s : string) : bool :=
  match s with
  | EmptyString => true
  | String c s' => negb (is_backtick c) && no_backtick s'
  end.

Fixpoint all_space (s : string) : bool :=
  match s with
  | EmptyString => true
  | String c s' => is_space c && all_space s'
  end.

(** Does an opening [```json] occur in [s]? *)
Fixpoint has_opener (s : string) : bool :=
  match strip_prefix "```json" s with
  | Some _ => true
  | None =>
      match s with
      | EmptyString => false
      | String _ s' => has_opener s'
      end
  end.

(** [s] closes a block: optional whitespace, then a fence. *)
Definition closing (s : string) : Prop :=
  exists ws tail,
    all_space ws = true /\ s = (ws ++ "```" ++ tail)%string.

(** [g] is the first block of [text]: it follows the first [```json] of
    the text (none starts before the one that ends [pre]) and the
    whitespace after it, does not start with whitespace, is followed by a
    closing, and no closing stands earlier, inside [g]. *)
Definition first_block (text g : string) : Prop :=
  exists pre ws post,
    text = (pre ++ "```json" ++ ws ++ g ++ post)%string
    /\ has_opener (pre ++ "```jso") = false
    /\ all_space ws = true
    /\ SanitizeSpec.head_nonspace g = true
    /\ closing post
    /\ forall a b,
         g = (a ++ b)%string -> b <> EmptyString -> ~ closing (b ++ post).
End TextSpec.

Module RateRuns.
Import RateLimiter.

(** The times of the calls that were admitted. *)
Fixpoint admitted (times : list Z) (answers : list bool) : list Z :=
  match times, answers with
  | t :: times', true :: answers' => t :: admitted times' answers'
  | _ :: times', false :: answers' => admitted times' answers'
  | _, _ => []
  end.

(** A clock that never goes back: [t0 <= t1 <= t2 <= ...]. *)
Fixpoint ascending (t0 : Z) (times : list Z) : Prop :=
  match times with
  | [] => True
  | t :: rest => t0 <= t /\ ascending t rest
  end.

(** The last reading, [t0] when there is none. *)
Fixpoint last_time (t0 : Z) (times : list Z) : Z :=
  match times with
  | [] => t0
  | t :: rest => last_time t rest
  end.

(** Successive calls of [is_allowed] by any clients, each with the
    clock's reading; the answers in order and the limiter at the end. *)
Fixpoint serve (self : t) (calls : list (Z * string)) : list bool * t :=
  match calls with
  | [] => ([], self)
  | (now, client_id) :: rest =>
      let '(ok, self') := is_allowed self now client_id in
      let '(oks, self'') := serve self' rest in
      (ok :: oks, self'')
  end.

(** The times at which [client_id] called. *)
Fixpoint times_for (client_id : string) (calls : list (Z * string)) : list Z :=
  match calls with
  | [] => []
  | (now, c) :: rest =>
      if decide (c = client_id) then now :: times_for client_id rest
      else times_for client_id rest
  end.

(** The answers given to [client_id]. *)
Fixpoint answers_for (client_id : string) (calls : list (Z * string))
    (answers : list bool) : list bool :=
  match calls, answers with
  | (_, c) :: rest, ok :: oks =>
      if decide (c = client_id) then ok :: answers_for client_id rest oks
      else answers_for client_id rest oks
  | _, _ => []
  end.

(** The clients that called. *)
Definition callers (calls : list (Z * string)) : gset string :=
  list_to_set (List.map snd calls).

(** What [is_allowed] reads of a limiter for [client_id]. *)
Definition same_view (client_id : string) (a b : t) : Prop :=
  timestamps a client_id = timestamps b client_id
  /\ max_requests a = max_requests b
  /\ window a = window b.
End RateRuns.

(** The names of the five criteria, in order. *)
Definition criterion_names : list string :=
  List.map criterion_name QualityChecker.check_criteria.

(* ===================================================================== *)
(** * Part II: properties *)
(* ===================================================================== *)

(** ** Comparisons *)

Section Comparisons.
Import PyNum.

Lemma float_eq_int_not_lt (x : float) (n : Z) :
  float_eq_int x n = true -> float_lt_int x n = false.
Proof.
  unfold float_eq_int, float_lt_int.
  destruct (compare_float_int x n) as [[ | | ]|]; congruence.
Qed.

Lemma float_lt_int_not_ge (x : float) (n : Z) :
  float_lt_int x n = true -> float_ge_int x n = false.
Proof.
  unfold float_lt_int, float_ge_int.
  destruct (compare_float_int x n) as [[ | | ]|]; congruence.
Qed.

(** The mixed comparison is monotone in the integer. *)
Lemma compare_float_int_Lt_mono (x : float) (n n' : Z) :
  compare_float_int x n = Some Lt -> n <= n' ->
  compare_float_int x n' = Some Lt.
Proof.
  unfold compare_float_int.
  destruct (Prim2SF x) as [s|s| |s m e]; intros H Hle; try congruence.
  - f_equal.
    assert (Hc : (0 ?= n) = Lt) by congruence.
    rewrite Z.compare_lt_iff in Hc |- *. lia.
  - f_equal.
    set (sm := if s then Z.neg m else Z.pos m) in *.
    destruct (0 <=? e) eqn:He.
    + assert (Hc : (sm * 2 ^ e ?= n) = Lt) by congruence.
      rewrite Z.compare_lt_iff in Hc |- *. lia.
    + assert (Hc : (sm ?= n * 2 ^ (- e)) = Lt) by congruence.
      rewrite Z.compare_lt_iff in Hc |- *.
      apply Z.leb_gt in He.
      assert (0 < 2 ^ (- e)) by (apply Z.pow_pos_nonneg; lia).
      nia.
Qed.

Lemma float_lt_int_mono (x : float) (n n' : Z) :
  float_lt_int x n = true -> n <= n' -> float_ge_int x n' = false.
Proof.
  intros H Hle. apply float_lt_int_not_ge.
  unfold float_lt_int in *.
  destruct (compare_float_int x n) as [[ | | ]|] eqn:E; try discriminate.
  rewrite (compare_float_int_Lt_mono x n n' E Hle). reflexivity.
Qed.

(** On the specification of the hardware comparison: below a float
    means not at or above any float that is at least as large. *)
Lemma SFcompare_Lt_trans_finite (f : spec_float) (m1 m2 : positive) (e : Z) :
  (m1 <= m2)%positive ->
  SFcompare f (S754_finite false m1 e) = Some Lt ->
  SFcompare (S754_finite false m2 e) f = Some Gt.
Proof.
  intros Hm.
  destruct f as [s|s| |s m e']; simpl; try congruence.
  - destruct s; congruence.
  - destruct s; try congruence.
    rewrite (Z.compare_antisym e' e).
    destruct (e' ?= e) eqn:Ee; simpl; try congruence.
    intros H. f_equal.
    assert (Hc : (m ?= m1)%positive = Lt) by (unfold Pos.compare; congruence).
    change (Pos.compare_cont Eq m2 m) with (Pos.compare m2 m).
    rewrite Pos.compare_lt_iff in Hc. rewrite Pos.compare_gt_iff. lia.
Qed.

Lemma float_lt_not_ge_above (x : float) (m1 m2 : positive) (e : Z) (a b : float) :
  Prim2SF a = S754_finite false m1 e ->
  Prim2SF b = S754_finite false m2 e ->
  (m1 <= m2)%positive ->
  float_lt x a = true -> float_ge x b = false.
Proof.
  intros Ha Hb Hm.
  unfold float_lt, float_ge. rewrite ltb_spec, leb_spec, Ha, Hb.
  unfold SFltb, SFleb. intros H.
  destruct (SFcompare (Prim2SF x) (S754_finite false m1 e)) as [[ | | ]|] eqn:E;
    try discriminate.
  rewrite (SFcompare_Lt_trans_finite _ m1 m2 e Hm E). reflexivity.
Qed.
End Comparisons.

(** ** The decision judge *)

Section Judge.
Import PyNum JudgeSpec.

Lemma calculate_decision_confidence_blend (quality_score cc : float) :
  AnswerJudge._calculate_decision_confidence quality_score cc
  = Ok (blend quality_score cc).
Proof. reflexivity. Qed.

(** [judge] always returns, and its record is the one of the first rule
    whose guard holds. *)
Lemma judge_fired (self : AnswerJudge.t) (qr : QualityCheckResult.t) (cc : float) :
  exists r,
    fired (AnswerJudge.threshold self) (QualityCheckResult.overall_score qr)
          (QualityCheckResult.passed_all qr) cc = Some r
    /\ AnswerJudge.judge self qr cc
       = Ok {| JudgeDecision.decision := verdict r;
               JudgeDecision.confidence :=
                 blend (QualityCheckResult.overall_score qr) cc;
               JudgeDecision.reasoning := branch_reasoning r;
               JudgeDecision.quality_score :=
                 QualityCheckResult.overall_score qr |}.
Proof.
  unfold AnswerJudge.judge, fired, rule_order, first_match, guard.
  rewrite calculate_decision_confidence_blend.
  destruct (float_ge_int (QualityCheckResult.overall_score qr) 90
            && float_ge cc 0.8%float);
    [exists R1; split; reflexivity|].
  destruct (float_ge_int (QualityCheckResult.overall_score qr)
              (AnswerJudge.threshold self) && float_ge cc 0.6%float);
    [exists R2; split; reflexivity|].
  destruct (float_ge_int (QualityCheckResult.overall_score qr) 50
            && float_lt_int (QualityCheckResult.overall_score qr)
                 (AnswerJudge.threshold self));
    [exists R3; split; reflexivity|].
  destruct (negb (QualityCheckResult.passed_all qr));
    [exists R4; split; reflexivity|].
  exists R5; split; reflexivity.
Qed.

Lemma below_0_6_not_ge (cc : float) :
  float_lt cc 0.6%float = true ->
  float_ge cc 0.6%float = false /\ float_ge cc 0.8%float = false.
Proof.
  intros H. split.
  - apply (float_lt_not_ge_above cc 5404319552844595 5404319552844595 (-53)
             0.6%float 0.6%float);
      [vm_compute; reflexivity | vm_compute; reflexivity | lia | exact H].
  - apply (float_lt_not_ge_above cc 5404319552844595 7205759403792794 (-53)
             0.6%float 0.8%float);
      [vm_compute; reflexivity | vm_compute; reflexivity | lia | exact H].
Qed.

(** Rule 1 at its boundary: score exactly 90, confidence exactly 0.8. *)
Lemma fired_at_90_08 (th : Z) (p : bool) :
  fired th 90%float p 0.8%float = Some R1.
Proof. reflexivity. Qed.

(** A score equal to the threshold with confidence below 0.6 is outside
    rule 3 and is decided by rule 4 or rule 5. *)
Lemma fired_at_threshold_low_confidence (th : Z) (s : float) (p : bool) (cc : float) :
  float_eq_int s th = true -> float_lt cc 0.6%float = true ->
  guard th s p cc R3 = false
  /\ fired th s p cc = Some (if p then R5 else R4).
Proof.
  intros Hs Hc.
  destruct (below_0_6_not_ge cc Hc) as [H6 H8].
  pose proof (float_eq_int_not_lt s th Hs) as Hlt.
  unfold fired, rule_order, first_match, guard.
  rewrite H6, H8, Hlt, !andb_false_r. split; [reflexivity|].
  destruct p; reflexivity.
Qed.

(** In the band [50 <= score < threshold] rule 3 decides unless rule 1
    already did, whatever [passed_all] is. *)
Lemma fired_in_band (th : Z) (s : float) (p : bool) (cc : float) :
  float_ge_int s 50 = true -> float_lt_int s th = true ->
  fired th s p cc = Some (if guard th s p cc R1 then R1 else R3).
Proof.
  intros H50 Hlt.
  pose proof (float_lt_int_not_ge s th Hlt) as Hge.
  unfold fired, rule_order, first_match, guard.
  rewrite H50, Hlt, Hge. simpl.
  destruct (float_ge_int s 90 && float_ge cc 0.8%float); reflexivity.
Qed.

Lemma fired_in_band_le_90 (th : Z) (s : float) (p : bool) (cc : float) :
  th <= 90 ->
  float_ge_int s 50 = true -> float_lt_int s th = true ->
  fired th s p cc = Some R3.
Proof.
  intros Hth H50 Hlt.
  rewrite (fired_in_band th s p cc H50 Hlt).
  unfold guard. rewrite (float_lt_int_mono s th 90 Hlt Hth). reflexivity.
Qed.

(** The boundary cases listed by the specification, threshold 70. *)
Example judge_90_true_08 :
  outcome (AnswerJudge.judge default_judge (quality 90 true) 0.8%float)
  = rule_outcome R1.
Proof. reflexivity. Qed.

Example judge_899_true_08 :
  outcome (AnswerJudge.judge default_judge (quality 89.9 true) 0.8%float)
  = rule_outcome R2.
Proof. reflexivity. Qed.

Example judge_70_true_059 :
  outcome (AnswerJudge.judge default_judge (quality 70 true) 0.59%float)
  = rule_outcome R5.
Proof. reflexivity. Qed.

Example judge_70_false_059 :
  outcome (AnswerJudge.judge default_judge (quality 70 false) 0.59%float)
  = rule_outcome R4.
Proof. reflexivity. Qed.

Example judge_699_true_05 :
  outcome (AnswerJudge.judge default_judge (quality 69.9 true) 0.5%float)
  = rule_outcome R3.
Proof. reflexivity. Qed.

Example judge_50_false_09 :
  outcome (AnswerJudge.judge default_judge (quality 50 false) 0.9%float)
  = rule_outcome R3.
Proof. reflexivity. Qed.

(** The end-to-end scenario: score 85, confidence 0.75, all passed. *)
Example judge_85_true_075 :
  outcome (AnswerJudge.judge default_judge (quality 85 true) 0.75%float)
  = rule_outcome R2.
Proof. reflexivity. Qed.

(** With a threshold above 90 the band of rule 3 overlaps rule 1, which
    comes first. *)
Example judge_threshold_95 :
  outcome (AnswerJudge.judge {| AnswerJudge.threshold := 95 |}
             (quality 92 false) 0.9%float)
  = rule_outcome R1.
Proof. reflexivity. Qed.

(** With the threshold configured at 95, a score of 92 is in the band
    [50 <= score < threshold] and not all checks passed; at confidence
    0.9 the judge accepts by rule 1: rule 3 does not fire. *)
Lemma C1_counterexample :
  let settings :=
    {| Settings.retrieval_top_k := 3; Settings.quality_score_threshold := 95;
       Settings.rate_limit_requests := 10;
       Settings.rate_limit_window_seconds := 60 |} in
  let self := AnswerJudge.init settings in
  float_ge_int 92 50 = true
  /\ float_lt_int 92 (AnswerJudge.threshold self) = true
  /\ outcome (AnswerJudge.judge self (quality 92 false) 0.9%float)
     = Some (accept, "High quality score and high classification confidence")
  /\ outcome (AnswerJudge.judge self (quality 92 false) 0.9%float)
     <> rule_outcome R3
  /\ ~ (forall (self : AnswerJudge.t) (qr : QualityCheckResult.t) (cc : float),
          float_ge_int (QualityCheckResult.overall_score qr) 50 = true ->
          float_lt_int (QualityCheckResult.overall_score qr)
                       (AnswerJudge.threshold self) = true ->
          outcome (AnswerJudge.judge self qr cc) = rule_outcome R3).
Proof.
  intros settings self.
  split; [reflexivity|]. split; [reflexivity|]. split; [reflexivity|].
  split; [discriminate|].
  intros H. specialize (H self (quality 92 false) 0.9%float eq_refl eq_refl).
  discriminate H.
Qed.

(** C1 (as the code has it): [judge] returns, for every score, flag and
    confidence, the verdict (and the reasoning) of the first rule that
    matches in the
    order 1 to 5; a score of exactly 90 with confidence exactly 0.8 takes
    rule 1; a score equal to the threshold with confidence below 0.6 does
    not match rule 3 and is decided by rule 4 (checks failed) or rule 5;
    for [50 <= score < threshold] the flag [passed_all] plays no part:
    rule 3 decides, before rule 4, unless rule 1 matched first, which no
    threshold up to 90 (the default is 70) allows. *)
Theorem C1_judge_first_match_wins :
  forall (self : AnswerJudge.t) (qr : QualityCheckResult.t) (cc : float),
    let th := AnswerJudge.threshold self in
    let s := QualityCheckResult.overall_score qr in
    let p := QualityCheckResult.passed_all qr in
    (exists d r,
        AnswerJudge.judge self qr cc = Ok d
        /\ fired th s p cc = Some r
        /\ JudgeDecision.decision d = verdict r
        /\ JudgeDecision.reasoning d = branch_reasoning r)
    /\ outcome (AnswerJudge.judge self (quality 90 p) 0.8%float)
       = rule_outcome R1
    /\ (float_eq_int s th = true -> float_lt cc 0.6%float = true ->
        guard th s p cc R3 = false
        /\ fired th s p cc = Some (if p then R5 else R4))
    /\ (float_ge_int s 50 = true -> float_lt_int s th = true ->
        fired th s p cc = Some (if guard th s p cc R1 then R1 else R3)
        /\ fired th s false cc = fired th s p cc
        /\ (th <= 90 -> fired th s p cc = Some R3)).
Proof.
  intros self qr cc th s p.
  split; [|split; [|split]].
  - destruct (judge_fired self qr cc) as (r & Hf & Hj).
    eexists. exists r. rewrite Hj. repeat split. exact Hf.
  - destruct (judge_fired self (quality 90 p) 0.8%float) as (r & Hf & Hj).
    rewrite Hj. simpl in Hf. rewrite fired_at_90_08 in Hf.
    injection Hf as <-. reflexivity.
  - intros Hs Hc. apply (fired_at_threshold_low_confidence th s p cc Hs Hc).
  - intros H50 Hlt. split; [|split].
    + apply fired_in_band; assumption.
    + rewrite !fired_in_band by assumption. reflexivity.
    + intros Hth. apply fired_in_band_le_90; assumption.
Qed.

Lemma C1_judge_first_match_wins_witness :
  fired 70 70%float true 0.59%float = Some R5
  /\ fired 70 50%float false 0.9%float = Some R3.
Proof.
  split.
  - destruct (C1_judge_first_match_wins default_judge (quality 70 true) 0.59%float)
      as (_ & _ & H & _).
    destruct H as [_ H]; [vm_compute; reflexivity | vm_compute; reflexivity |].
    exact H.
  - destruct (C1_judge_first_match_wins default_judge (quality 50 false) 0.9%float)
      as (_ & _ & _ & H).
    destruct H as (_ & _ & H); [vm_compute; reflexivity | vm_compute; reflexivity |].
    apply H. vm_compute. discriminate.
Defined.

(** C5: the confidence of every decision is
    [round(overall_score/100 * 0.7 + classification_confidence * 0.3, 2)],
    whatever rule fired: it changes neither with the threshold nor with
    [passed_all]; at score 80 and confidence 0.5 it is 0.71. *)
Theorem C5_decision_confidence_blend :
  forall (self : AnswerJudge.t) (qr : QualityCheckResult.t) (cc : float),
    exists d,
      AnswerJudge.judge self qr cc = Ok d
      /\ JudgeDecision.confidence d
         = round2 (QualityCheckResult.overall_score qr / 100 * 0.7 + cc * 0.3)%float
      /\ (forall (self' : AnswerJudge.t) (p' : bool),
           exists d',
             AnswerJudge.judge self'
               (quality (QualityCheckResult.overall_score qr) p') cc = Ok d'
             /\ JudgeDecision.confidence d' = JudgeDecision.confidence d)
      /\ (forall (p' : bool),
           exists d',
             AnswerJudge.judge self (quality 80 p') 0.5%float = Ok d'
             /\ JudgeDecision.confidence d' = 0.71%float).
Proof.
  intros self qr cc.
  destruct (judge_fired self qr cc) as (r & _ & Hj).
  eexists. split; [exact Hj|]. split; [reflexivity|]. split.
  - intros self' p'.
    destruct (judge_fired self' (quality (QualityCheckResult.overall_score qr) p') cc)
      as (r' & _ & Hj').
    eexists. split; [exact Hj'|]. reflexivity.
  - intros p'.
    destruct (judge_fired self (quality 80 p') 0.5%float) as (r' & _ & Hj').
    eexists. split; [exact Hj'|]. reflexivity.
Qed.
End Judge.

(** ** The quality score aggregator *)

Section Aggregator.
Import PyNum QualitySpec.

Lemma forallb_conjunction (checks : list QualityCheck.t) :
  forallb QualityCheck.passed checks = conjunction checks.
Proof. induction checks as [|c rest IH]; simpl; [|rewrite IH]; reflexivity. Qed.

Lemma of_nat_length_nonzero {A} (l : list A) :
  l <> [] -> (Z.of_nat (length l) =? 0) = false.
Proof.
  intros H. destruct l as [|a l]; [congruence|].
  apply Z.eqb_neq. simpl length. lia.
Qed.

(** On a non-empty sequence [sum] gives a float. *)
Lemma sum_floats_nonempty (v : cpython) (l : list float) :
  l <> [] -> exists x, sum_floats v l = PyFloat x.
Proof.
  intros H. destruct l as [|x0 l']; [congruence|].
  destruct v; eexists; reflexivity.
Qed.

(** On a non-empty sequence the division is safe and the record holds
    the rounded float quotient and the conjunction. *)
Lemma aggregate_nonempty (v : cpython) (checks : list QualityCheck.t) (x : float) :
  checks <> [] ->
  sum_floats v (List.map QualityCheck.score checks) = PyFloat x ->
  QualityChecker.aggregate v checks
  = Ok {| QualityCheckResult.checks := checks;
          QualityCheckResult.overall_score :=
            round2 (x / int_to_float (Z.of_nat (length checks)) * 100)%float;
          QualityCheckResult.passed_all := conjunction checks |}.
Proof.
  intros H S. unfold QualityChecker.aggregate.
  rewrite S, forallb_conjunction.
  unfold truediv_number_int, truediv_float_int.
  rewrite (of_nat_length_nonzero checks H). reflexivity.
Qed.

Lemma aggregate_empty (v : cpython) :
  QualityChecker.aggregate v []
  = Raise (PyExc "ZeroDivisionError" "division by zero").
Proof. reflexivity. Qed.

(** Five checks of 0.85 each, all passed: the scenario's score, on
    either interpreter. *)
Example aggregate_five_085 (v : cpython) :
  QualityCheckResult.overall_score <$>
    (match QualityChecker.aggregate v
             (List.map (fun c => check_of (criterion_name c) 0.85 true)
                       QualityChecker.check_criteria) with
     | Ok r => Some r | Raise _ => None end)
  = Some 85%float.
Proof. destruct v; vm_compute; reflexivity. Qed.
End Aggregator.

(** ** The stages, one at a time *)

Section StageRuns.
Context {World : Type} (env : Collaborators World) (settings : Settings.t).

Lemma logged_refl (st : State World) : logged st st [].
Proof. split; [rewrite app_nil_r|]; reflexivity. Qed.

Lemma logged_trans (st1 st2 st3 : State World) (evs1 evs2 : list Event) :
  logged st1 st2 evs1 -> logged st2 st3 evs2 -> logged st1 st3 (evs1 ++ evs2).
Proof.
  intros [H1 R1] [H2 R2]. split.
  - rewrite H2, H1, app_assoc. reflexivity.
  - congruence.
Qed.

Lemma time_run (st : State World) :
  exists t st0,
    ask_total (time_time env) st = (Ok t, st0)
    /\ logged st st0 []
    /\ world st0 = snd (time_time env (world st)).
Proof.
  unfold ask_total. destruct (time_time env (world st)) as [t w] eqn:E.
  eexists _, _. split; [reflexivity|]. split; [|reflexivity].
  split; [simpl; rewrite app_nil_r|]; reflexivity.
Qed.

Lemma classify_run (query : string) (st : State World) :
  exists st1,
    classify env query st = (fst (llm_classify env query (world st)), st1)
    /\ logged st st1 [EvClassify query].
Proof.
  unfold classify, bind, emit, ask. simpl.
  destruct (llm_classify env query (world st)) as [r w].
  eexists. split; [reflexivity|]. split; reflexivity.
Qed.

Lemma retrieve_run (query : string) (k : option Z) (st : State World) :
  exists r st1,
    retrieve env settings query k st = (r, st1)
    /\ logged st st1 [EvRetrieve query].
Proof.
  unfold retrieve, bind, emit, ask. simpl.
  match goal with
  | |- context [similarity_search env query ?k' (world st)] =>
      destruct (similarity_search env query k' (world st)) as [r w]
  end.
  eexists _, _. split; [reflexivity|]. split; reflexivity.
Qed.

Lemma retrieved_run (query : string) (cls : Classification.t) (st : State World) :
  exists r st1,
    retrieved env settings query cls st = (r, st1)
    /\ logged st st1 (retrieval_events query cls)
    /\ (Classification.needs_context cls = false -> r = Ok []).
Proof.
  unfold retrieved, retrieval_events.
  destruct (Classification.needs_context cls).
  - destruct (retrieve_run query None st) as (r & st1 & E & L).
    exists r, st1. repeat split; try assumption; try apply L. discriminate.
  - exists (Ok []), st. split; [reflexivity|].
    split; [apply logged_refl | reflexivity].
Qed.

Lemma generate_run (query : string) (cls : Classification.t)
    (docs : list string) (st : State World) :
  exists r st1,
    generate env query cls docs st = (r, st1)
    /\ logged st st1 [EvGenerate query cls docs].
Proof.
  unfold generate, bind, emit, ask. simpl.
  destruct (llm_generate env query cls docs (world st)) as [r w].
  eexists _, _. split; [reflexivity|]. split; reflexivity.
Qed.

Lemma run_single_check_run (query answer : string) (docs : list string)
    (c : criterion) (st : State World) :
  exists r st1,
    QualityChecker._run_single_check env query answer docs c st = (r, st1)
    /\ logged st st1 []
    /\ (forall chk, r = Ok chk -> QualityCheck.check_name chk = criterion_name c).
Proof.
  unfold QualityChecker._run_single_check, bind, ask, ret.
  destruct (llm_single_check env query answer (take 2 docs) c (world st))
    as [[a|e] w]; eexists _, _; (split; [reflexivity|]);
    (split; [split; [simpl; rewrite app_nil_r|]; reflexivity|]).
  - intros chk [= <-]. reflexivity.
  - discriminate.
Qed.

(** The loop returns the checks collected so far followed by one check
    per criterion, in order, and logs nothing. *)
Lemma run_checks_run (query answer : string) (docs : list string)
    (criteria : list criterion) :
  forall (checks : list QualityCheck.t) (st : State World),
  exists r st1,
    QualityChecker.run_checks env query answer docs criteria checks st = (r, st1)
    /\ logged st st1 []
    /\ (forall l, r = Ok l ->
          exists news,
            l = checks ++ news
            /\ List.map QualityCheck.check_name news
               = List.map criterion_name criteria).
Proof.
  induction criteria as [|c rest IH]; intros checks st; simpl.
  - exists (Ok checks), st. split; [reflexivity|]. split; [apply logged_refl|].
    intros l [= <-]. exists []. rewrite app_nil_r. split; reflexivity.
  - unfold bind.
    destruct (run_single_check_run query answer docs c st)
      as (r & st1 & E & L & Hn).
    rewrite E. destruct r as [chk|e].
    + destruct (IH (checks ++ [chk]) st1) as (r' & st2 & E' & L' & Hl).
      exists r', st2. split; [exact E'|].
      split; [apply (logged_trans _ _ _ _ _ L L')|].
      intros l Hr. destruct (Hl l Hr) as (news & -> & Hm).
      exists (chk :: news). rewrite <- app_assoc. split; [reflexivity|].
      simpl. rewrite Hm, (Hn chk eq_refl). reflexivity.
    + exists (Raise e), st1. split; [reflexivity|]. split; [exact L|].
      discriminate.
Qed.

(** [check_quality] logs its own invocation; when it returns, the result
    is the aggregate of its five checks, named after the criteria. *)
Lemma check_quality_run (query answer : string) (docs : list string)
    (st : State World) :
  exists r st1,
    QualityChecker.check_quality env query answer docs st = (r, st1)
    /\ logged st st1 [EvCheckQuality query answer docs]
    /\ (forall qr, r = Ok qr ->
          QualityChecker.aggregate (python env) (QualityCheckResult.checks qr)
          = Ok qr
          /\ List.map QualityCheck.check_name (QualityCheckResult.checks qr)
             = List.map criterion_name QualityChecker.check_criteria).
Proof.
  unfold QualityChecker.check_quality, bind at 1, emit.
  set (st0 := {| world := world st;
                 log := log st ++ [EvCheckQuality query answer docs];
                 rate_limiter := rate_limiter st |}).
  assert (L0 : logged st st0 [EvCheckQuality query answer docs])
    by (split; reflexivity).
  unfold bind, lift_res.
  destruct (run_checks_run query answer docs QualityChecker.check_criteria [] st0)
    as (r & st1 & E & L & Hl).
  rewrite E. destruct r as [l|e].
  - exists (QualityChecker.aggregate (python env) l), st1. split; [reflexivity|].
    split.
    { pose proof (logged_trans _ _ _ _ _ L0 L) as L1.
      rewrite app_nil_r in L1. exact L1. }
    intros qr Hq. destruct (Hl l eq_refl) as (news & -> & Hm).
    simpl in Hq |- *.
    assert (Hne : news <> []).
    { intros ->. discriminate Hm. }
    destruct (sum_floats_nonempty (python env)
                (List.map QualityCheck.score news)) as [x Hx].
    { destruct news; [congruence | discriminate]. }
    rewrite (aggregate_nonempty _ news x Hne Hx) in Hq. injection Hq as <-.
    simpl. split; [apply aggregate_nonempty; assumption | exact Hm].
  - exists (Raise e), st1. split; [reflexivity|]. split.
    { pose proof (logged_trans _ _ _ _ _ L0 L) as L1.
      rewrite app_nil_r in L1. exact L1. }
    discriminate.
Qed.

End StageRuns.

(** ** The orchestrator *)

Section Orchestrator.
Context {World : Type} (env : Collaborators World) (settings : Settings.t).

(** Every run of [process] is of one of the five shapes, and logs
    exactly the events of its shape. *)
Lemma process_run (self : Pipeline.t) (query : string) (st : State World) :
  exists res st' evs,
    Pipeline.process env settings self query st = (res, st')
    /\ logged st st' evs
    /\ run env settings self query st res st' evs.
Proof.
  unfold Pipeline.process.
  destruct (time_run env st) as (t0 & st0 & E0 & L0 & W0).
  destruct (classify_run env query st0) as (st1 & E1 & L1).
  assert (Hcls : fst (llm_classify env query (world st0))
                 = classified env query st)
    by (unfold classified; rewrite W0; reflexivity).
  rewrite Hcls in E1.
  unfold bind at 1. rewrite E0. unfold bind at 1. rewrite E1.
  pose proof (logged_trans _ _ _ _ _ L0 L1) as L01. simpl in L01.
  destruct (classified env query st) as [cls|e] eqn:C.
  2:{ exists (Raise e), st1, [EvClassify query].
      split; [reflexivity|]. split; [exact L01|].
      apply run_classify_fails; [|exact C].
      eapply fails_classify; eassumption. }
  destruct (retrieved_run env settings query cls st1)
    as (rd & st2 & E2 & L2 & Hd).
  pose proof (logged_trans _ _ _ _ _ L01 L2) as L02.
  unfold bind at 1. fold (retrieved env settings query cls). rewrite E2.
  destruct rd as [docs|e].
  2:{ destruct (Classification.needs_context cls) eqn:NC.
      2:{ specialize (Hd eq_refl). discriminate. }
      unfold retrieval_events in L02. rewrite NC in L02.
      exists (Raise e), st2, [EvClassify query; EvRetrieve query].
      split; [reflexivity|]. split; [exact L02|].
      apply (run_retrieve_fails _ _ _ _ _ e cls); [|exact C|exact NC].
      eapply fails_retrieve; try eassumption.
      unfold retrieved in E2. rewrite NC in E2. exact E2. }
  assert (Hdocs : Classification.needs_context cls = false -> docs = []).
  { intros NC. specialize (Hd NC). congruence. }
  destruct (generate_run env query cls docs st2) as (rg & st3 & E3 & L3).
  pose proof (logged_trans _ _ _ _ _ L02 L3) as L03.
  rewrite <- app_assoc in L03.
  unfold bind at 1. rewrite E3.
  destruct rg as [gen|e].
  2:{ eexists (Raise e), st3, _.
      split; [reflexivity|]. split; [exact L03|].
      apply (run_generate_fails _ _ _ _ _ e cls docs); [|exact C|exact Hdocs].
      eapply fails_generate; eassumption. }
  destruct (check_quality_run env query (GeneratedAnswer.answer gen) docs st3)
    as (rq & st4 & E4 & L4 & Hq).
  pose proof (logged_trans _ _ _ _ _ L03 L4) as L04.
  rewrite <- !app_assoc in L04. simpl in L04.
  unfold bind at 1. rewrite E4.
  destruct rq as [qr|e].
  2:{ eexists (Raise e), st4, _.
      split; [reflexivity|]. split; [exact L04|].
      apply (run_check_quality_fails _ _ _ _ _ e cls docs gen);
        [|exact C|exact Hdocs].
      eapply fails_check_quality; eassumption. }
  destruct (Hq qr eq_refl) as [Hagg _].
  destruct (judge_fired (Pipeline.judge self) qr (Classification.confidence cls))
    as (rl & _ & Hj).
  unfold bind, emit, lift_res, ask_total, ret. simpl. rewrite Hj.
  destruct (time_time env (world st4)) as [t1 w5].
  eexists (Ok _), _, _. split; [reflexivity|]. split.
  - destruct L04 as [Hl Hr]. split; simpl.
    + rewrite Hl, <- !app_assoc. simpl. rewrite <- !app_assoc. reflexivity.
    + exact Hr.
  - eapply (run_completes _ _ _ _ _ _ cls docs gen qr);
      simpl; try reflexivity; try assumption.
Qed.

(** A failing collaborator aborts the run with its own exception. *)
Lemma stage_fails_aborts (self : Pipeline.t) (query : string)
    (st st' : State World) (stage : Stage) (e : exn) :
  stage_fails env settings query st stage e st' ->
  Pipeline.process env settings self query st = (Raise e, st').
Proof.
  intros H. unfold Pipeline.process.
  inversion H as [t0 st0 e0 st1 E0 E1
                 |t0 st0 cls st1 e0 st2 E0 E1 NC E2
                 |t0 st0 cls st1 docs st2 e0 st3 E0 E1 E2 E3
                 |t0 st0 cls st1 docs st2 gen st3 e0 st4 E0 E1 E2 E3 E4];
    subst; unfold bind at 1; rewrite E0; unfold bind at 1; rewrite E1.
  - reflexivity.
  - rewrite NC. unfold bind at 1. rewrite E2. reflexivity.
  - unfold bind at 1. fold (retrieved env settings query cls). rewrite E2.
    unfold bind at 1. rewrite E3. reflexivity.
  - unfold bind at 1. fold (retrieved env settings query cls). rewrite E2.
    unfold bind at 1. rewrite E3. unfold bind at 1. rewrite E4. reflexivity.
Qed.

(** The stages invoked in a failing run are those of the sequence up to
    and including the failing one, each on the query text. *)
Lemma stage_fails_logged (query : string) (st st' : State World)
    (stage : Stage) (e : exn) :
  stage_fails env settings query st stage e st' ->
  exists evs nc,
    logged st st' evs
    /\ stages_of evs = through stage (stage_sequence nc)
    /\ Forall (fun ev => event_query ev = Some query) evs.
Proof.
  intros H.
  inversion H as [t0 st0 e0 st1 E0 E1
                 |t0 st0 cls st1 e0 st2 E0 E1 NC E2
                 |t0 st0 cls st1 docs st2 e0 st3 E0 E1 E2 E3
                 |t0 st0 cls st1 docs st2 gen st3 e0 st4 E0 E1 E2 E3 E4];
    subst;
    destruct (time_run env st) as (t & sta & Ea & La & _);
    rewrite E0 in Ea; injection Ea as <- <-;
    destruct (classify_run env query st0) as (stb & Eb & Lb);
    rewrite E1 in Eb; injection Eb as _ <-;
    pose proof (logged_trans _ _ _ _ _ La Lb) as L1; simpl in L1.
  - exists [EvClassify query], true. split; [exact L1|].
    split; [reflexivity|]. repeat constructor.
  - destruct (retrieve_run env settings query None st1) as (r & stc & Ec & Lc).
    rewrite E2 in Ec. injection Ec as _ <-.
    pose proof (logged_trans _ _ _ _ _ L1 Lc) as L2. simpl in L2.
    exists [EvClassify query; EvRetrieve query], true.
    split; [exact L2|]. split; [reflexivity|]. repeat constructor.
  - destruct (retrieved_run env settings query cls st1) as (r & stc & Ec & Lc & _).
    rewrite E2 in Ec. injection Ec as _ <-.
    destruct (generate_run env query cls docs st2) as (r' & std & Ed & Ld).
    rewrite E3 in Ed. injection Ed as _ <-.
    pose proof (logged_trans _ _ _ _ _ (logged_trans _ _ _ _ _ L1 Lc) Ld) as L3.
    eexists _, (Classification.needs_context cls).
    split; [exact L3|]. unfold retrieval_events.
    destruct (Classification.needs_context cls);
      (split; [reflexivity|]); repeat constructor.
  - destruct (retrieved_run env settings query cls st1) as (r & stc & Ec & Lc & _).
    rewrite E2 in Ec. injection Ec as _ <-.
    destruct (generate_run env query cls docs st2) as (r' & std & Ed & Ld).
    rewrite E3 in Ed. injection Ed as _ <-.
    destruct (check_quality_run env query (GeneratedAnswer.answer gen) docs st3)
      as (r'' & ste & Ee & Le & _).
    rewrite E4 in Ee. injection Ee as _ <-.
    pose proof (logged_trans _ _ _ _ _
                  (logged_trans _ _ _ _ _ (logged_trans _ _ _ _ _ L1 Lc) Ld) Le)
      as L4.
    eexists _, (Classification.needs_context cls).
    split; [exact L4|]. unfold retrieval_events.
    destruct (Classification.needs_context cls);
      (split; [reflexivity|]); repeat constructor.
Qed.

(** C3: when the classification says no context is needed, [process]
    never calls the retriever and the result carries no documents; when
    it says context is needed, the retriever is called exactly once, on
    the query text, right after classification, and every call of the
    generator comes after it. *)
Theorem C3_retrieval_follows_needs_context :
  forall (self : Pipeline.t) (query : string) (st : State World)
         (cls : Classification.t),
    classified env query st = Ok cls ->
    exists res st' evs,
      Pipeline.process env settings self query st = (res, st')
      /\ log st' = log st ++ evs
      /\ (Classification.needs_context cls = false ->
          List.filter is_retrieve evs = []
          /\ (forall r, res = Ok r -> PipelineResult.retrieved_docs r = []))
      /\ (Classification.needs_context cls = true ->
          List.filter is_retrieve evs = [EvRetrieve query]
          /\ (exists rest, evs = [EvClassify query; EvRetrieve query] ++ rest)
          /\ (forall pre ev post,
                evs = pre ++ ev :: post -> is_generate ev = true ->
                In (EvRetrieve query) pre)).
Proof.
  intros self query st cls C.
  destruct (process_run self query st) as (res & st' & evs & E & [L _] & R).
  exists res, st', evs. split; [exact E|]. split; [exact L|].
  assert (Hgen : forall rest pre ev post,
             [EvClassify query; EvRetrieve query] ++ rest = pre ++ ev :: post ->
             is_generate ev = true -> In (EvRetrieve query) pre).
  { intros rest pre ev post Heq Hg.
    destruct pre as [|a [|b pre]]; simpl in Heq.
    - injection Heq as <- _. discriminate Hg.
    - injection Heq as _ <- _. discriminate Hg.
    - injection Heq as _ <- _. right. left. reflexivity. }
  inversion R as [e st1 F C'
                 |e cls' st1 F C' NC'
                 |e cls' docs st1 F C' D
                 |e cls' docs gen st1 F C' D
                 |r cls' docs gen qr jd st1 C' D A J Q1 Q2 Q3 Q4 Q5 Q6];
    subst; rewrite C in C'; try discriminate; injection C' as C';
    unfold retrieval_events; rewrite <- ?C' in *.
  - split; [congruence|]. intros _.
    split; [reflexivity|]. split; [exists []; reflexivity|]. apply (Hgen []).
  - split; intros NC; rewrite NC.
    + split; [reflexivity | discriminate].
    + split; [reflexivity|]. split; [eexists; reflexivity|]. apply Hgen.
  - split; intros NC; rewrite NC.
    + split; [reflexivity | discriminate].
    + split; [reflexivity|]. split; [eexists; reflexivity|]. apply Hgen.
  - split; intros NC; rewrite NC.
    + split; [reflexivity|]. intros r' [= <-]. exact (D NC).
    + split; [reflexivity|]. split; [eexists; reflexivity|]. apply Hgen.
Qed.
End Orchestrator.

(** ** The boundary layer *)

Section Boundary.
Context {World : Type} (env : Collaborators World) (settings : Settings.t).

(** [check] on a request with a client address: the limiter is asked at
    the clock's reading, its new state is stored and the consultation is
    logged; a denial raises status 429. *)
Lemma check_run (request : Main.Request) (st : State World) (c : string) :
  Main.client_host request = Some c ->
  let now := fst (datetime_now env (world st)) in
  let allowed := fst (RateLimiter.is_allowed (rate_limiter st) now c) in
  let rl' := snd (RateLimiter.is_allowed (rate_limiter st) now c) in
  exists st1,
    Main.check env request st
    = ((if allowed then Ok tt
        else Raise (HTTPException 429 (RateLimiter.rate_limit_detail rl'))), st1)
    /\ log st1 = log st ++ [EvRateLimit c now allowed]
    /\ rate_limiter st1 = rl'.
Proof.
  intros Hc. unfold Main.check. rewrite Hc.
  unfold bind, ask_total, get_rate_limiter, put_rate_limiter, emit, raise, ret.
  destruct (datetime_now env (world st)) as [now w]. simpl.
  destruct (RateLimiter.is_allowed (rate_limiter st) now c) as [allowed rl'].
  simpl. destruct allowed; simpl; eexists; repeat split.
Qed.

Lemma check_no_client (request : Main.Request) (st : State World) :
  Main.client_host request = None ->
  Main.check env request st = (Raise attribute_error, st).
Proof. intros Hc. unfold Main.check. rewrite Hc. reflexivity. Qed.

(** An exception of [check] leaves the handler at once. *)
Lemma handler_check_raises (ep : Main.Endpoint) (pipeline : Pipeline.t)
    (request : Main.Request) (query : UserQuery.t) (st st1 : State World) (e : exn) :
  Main.check env request st = (Raise e, st1) ->
  Main.handler env settings ep pipeline request query st = (Raise e, st1).
Proof.
  intros H. destruct ep; simpl;
    unfold Main.process_query, Main.classify_only, Main.retrieve_only;
    unfold bind at 1; rewrite H; reflexivity.
Qed.

Lemma run_stage_events (self : Pipeline.t) (query : string)
    (st st' : State World) (res : Res PipelineResult.t) (evs : list Event) :
  run env settings self query st res st' evs ->
  Forall (stage_event_on query) evs.
Proof.
  intros R.
  assert (Hr : forall cls, Forall (stage_event_on query) (retrieval_events query cls)).
  { intros cls. unfold retrieval_events.
    destruct (Classification.needs_context cls); repeat constructor.
    intros q [= <-]. reflexivity. }
  assert (He : forall ev,
             is_stage_event ev = true ->
             event_query ev = Some query \/ event_query ev = None ->
             stage_event_on query ev).
  { intros ev Hs [Hq|Hq]; (split; [exact Hs|]); rewrite Hq; congruence. }
  inversion R; subst;
    repeat match goal with
      | |- Forall _ (_ ++ _) => apply Forall_app_2
      | |- Forall _ (retrieval_events _ _) => apply Hr
      | |- Forall _ (_ :: _) => constructor
      | |- Forall _ [] => constructor
      | |- stage_event_on _ _ => apply He; [reflexivity | simpl; auto]
      end.
Qed.

(** After admission, each handler runs its stages on the sanitized text
    and turns any exception into a status-500 response that carries the
    handler's prefix and the message of the cause. *)
Lemma handler_admitted (ep : Main.Endpoint) (pipeline : Pipeline.t)
    (request : Main.Request) (query : UserQuery.t) (st st1 : State World) :
  Main.check env request st = (Ok tt, st1) ->
  exists res st' evs,
    Main.handler env settings ep pipeline request query st = (res, st')
    /\ logged st1 st' evs
    /\ Forall (stage_event_on (Utils.sanitize_input (UserQuery.text query))) evs
    /\ (forall e, res = Raise e -> exists cause, e = failure_response ep cause).
Proof.
  intros H. set (clean := Utils.sanitize_input (UserQuery.text query)).
  destruct ep; simpl;
    unfold Main.process_query, Main.classify_only, Main.retrieve_only;
    unfold bind at 1; rewrite H; unfold try_except, bind; fold clean.
  - destruct (process_run env settings pipeline clean st1)
      as (res & st' & evs & E & L & R).
    rewrite E. pose proof (run_stage_events _ _ _ _ _ _ R) as Hev.
    destruct res as [r|e].
    + eexists _, st', evs. split; [reflexivity|]. repeat split; try apply L.
      * exact Hev.
      * discriminate.
    + eexists _, st', evs. split; [reflexivity|]. repeat split; try apply L.
      * exact Hev.
      * intros e' [= <-]. exists e. reflexivity.
  - destruct (classify_run env clean st1) as (st' & E & L).
    rewrite E.
    assert (Hev : Forall (stage_event_on clean) [EvClassify clean]).
    { repeat constructor. intros q [= <-]. reflexivity. }
    destruct (fst (llm_classify env clean (world st1))) as [r|e].
    + eexists _, st', _. split; [reflexivity|]. repeat split; try apply L.
      * exact Hev.
      * discriminate.
    + eexists _, st', _. split; [reflexivity|]. repeat split; try apply L.
      * exact Hev.
      * intros e' [= <-]. exists e. reflexivity.
  - destruct (retrieve_run env settings clean None st1) as (res & st' & E & L).
    rewrite E.
    assert (Hev : Forall (stage_event_on clean) [EvRetrieve clean]).
    { repeat constructor. intros q [= <-]. reflexivity. }
    destruct res as [r|e].
    + eexists _, st', _. split; [reflexivity|]. repeat split; try apply L.
      * exact Hev.
      * discriminate.
    + eexists _, st', _. split; [reflexivity|]. repeat split; try apply L.
      * exact Hev.
      * intros e' [= <-]. exists e. reflexivity.
Qed.

(** C6 (as the code has it): when a collaborator fails in an admitted
    request, the run stops there, the stages invoked being exactly those
    of the sequence up to and including the failing one, and the caller
    receives a single failure of status 500 whose detail is
    ["Pipeline error: "] followed by the message of the cause. The
    response is a function of that message alone: it names no stage. *)
Theorem C6_failure_aborts_with_untagged_500 :
  forall (pipeline : Pipeline.t) (request : Main.Request) (query : UserQuery.t)
         (st st_c st' : State World) (stage : Stage) (e : exn),
    Main.check env request st = (Ok tt, st_c) ->
    stage_fails env settings (Utils.sanitize_input (UserQuery.text query))
                st_c stage e st' ->
    Main.process_query env settings pipeline request query st
    = (Raise (HTTPException 500 ("Pipeline error: " ++ exn_str e)), st')
    /\ exists evs nc,
         log st' = log st_c ++ evs
         /\ stages_of evs = through stage (stage_sequence nc).
Proof.
  intros pipeline request query st st_c st' stage e Hc Hf. split.
  - unfold Main.process_query. unfold bind at 1. rewrite Hc.
    unfold try_except, bind.
    rewrite (stage_fails_aborts env settings pipeline _ _ _ _ _ Hf).
    reflexivity.
  - destruct (stage_fails_logged env settings _ _ _ _ _ Hf)
      as (evs & nc & [L _] & Hs & _).
    exists evs, nc. split; assumption.
Qed.

(** A request through any of the three handlers, in full. *)
Lemma handler_run (ep : Main.Endpoint) (pipeline : Pipeline.t)
    (request : Main.Request) (query : UserQuery.t) (st : State World) :
  exists res st' evs,
    Main.handler env settings ep pipeline request query st = (res, st')
    /\ log st' = log st ++ evs
    /\ match Main.client_host request with
       | None => evs = [] /\ res = Raise attribute_error
       | Some c =>
           let now := fst (datetime_now env (world st)) in
           let verdict := RateLimiter.is_allowed (rate_limiter st) now c in
           exists stages,
             evs = EvRateLimit c now (fst verdict) :: stages
             /\ Forall (stage_event_on
                          (Utils.sanitize_input (UserQuery.text query))) stages
             /\ (fst verdict = false ->
                 stages = []
                 /\ res = Raise (HTTPException 429
                                   (RateLimiter.rate_limit_detail (snd verdict))))
             /\ (fst verdict = true ->
                 forall e, res = Raise e ->
                           exists cause, e = failure_response ep cause)
       end.
Proof.
  destruct (Main.client_host request) as [c|] eqn:Hc.
  - destruct (check_run request st c Hc) as (st1 & E & L & _).
    cbv zeta in E, L |- *.
    destruct (fst (RateLimiter.is_allowed (rate_limiter st)
                     (fst (datetime_now env (world st))) c)) eqn:A.
    + destruct (handler_admitted ep pipeline request query st st1 E)
        as (res & st' & evs & E' & [L' _] & Hev & Hres).
      exists res, st', (EvRateLimit c (fst (datetime_now env (world st))) true :: evs).
      split; [exact E'|]. split.
      { rewrite L', L, <- app_assoc. reflexivity. }
      exists evs. split; [reflexivity|]. split; [exact Hev|].
      split; [discriminate|]. intros _. exact Hres.
    + eexists _, st1, _. split.
      { apply handler_check_raises. exact E. }
      split; [exact L|].
      exists []. split; [reflexivity|]. split; [constructor|].
      split; [intros _; split; reflexivity | discriminate].
  - exists (Raise attribute_error), st, []. split.
    { apply handler_check_raises. apply check_no_client. exact Hc. }
    split; [rewrite app_nil_r; reflexivity|]. split; reflexivity.
Qed.

(** C9: every entry point consults the rate limiter first: the events of
    a request are that consultation followed by stage invocations only.
    On a denial no stage is invoked and the response has status 429; any
    failure after admission has status 500. (A request without a client
    address fails before the limiter and before any stage.) *)
Theorem C9_rate_limit_before_stages :
  forall (ep : Main.Endpoint) (pipeline : Pipeline.t) (request : Main.Request)
         (query : UserQuery.t) (st : State World),
  exists res st' evs,
    Main.handler env settings ep pipeline request query st = (res, st')
    /\ log st' = log st ++ evs
    /\ match Main.client_host request with
       | None => evs = [] /\ res = Raise attribute_error
       | Some c =>
           let now := fst (datetime_now env (world st)) in
           let verdict := RateLimiter.is_allowed (rate_limiter st) now c in
           exists stages,
             evs = EvRateLimit c now (fst verdict) :: stages
             /\ Forall (fun ev => is_stage_event ev = true) stages
             /\ (fst verdict = false ->
                 stages = []
                 /\ res = Raise (HTTPException 429
                                   (RateLimiter.rate_limit_detail (snd verdict))))
             /\ (fst verdict = true ->
                 forall e, res = Raise e -> status_of e = Some 500)
       end.
Proof.
  intros ep pipeline request query st.
  destruct (handler_run ep pipeline request query st)
    as (res & st' & evs & E & L & H).
  exists res, st', evs. split; [exact E|]. split; [exact L|].
  destruct (Main.client_host request) as [c|]; [|exact H].
  cbv zeta in H |- *. destruct H as (stages & Hevs & Hst & Hdeny & Hfail).
  exists stages. split; [exact Hevs|]. split.
  { eapply Forall_impl; [exact Hst|]. intros ev [Hs _]. exact Hs. }
  split; [exact Hdeny|].
  intros Ha e He. destruct (Hfail Ha e He) as (cause & ->). reflexivity.
Qed.

End Boundary.

(** A run without context: the retriever is not called. *)
Lemma C3_retrieval_follows_needs_context_witness :
  exists res st' evs,
    Pipeline.process (Double.healthy false) Settings.default Double.pipeline
      "What are your business hours?" Double.start = (res, st')
    /\ List.filter is_retrieve evs = []
    /\ log st' = log Double.start ++ evs.
Proof.
  destruct (C3_retrieval_follows_needs_context (Double.healthy false)
              Settings.default Double.pipeline "What are your business hours?"
              Double.start (Double.classification false) eq_refl)
    as (res & st' & evs & E & L & Hf & _).
  exists res, st', evs. split; [exact E|]. split; [apply Hf; reflexivity | exact L].
Defined.

(** The classifier fails in the first run and the generator in the second,
    with the same message: the two responses are equal, so nothing in a
    response tells the stages apart. *)
Lemma C6_counterexample : ~ responses_tagged_with_stage.
Proof.
  intros [tag H].
  set (q := Double.user_query "What are your business hours?").
  assert (Hc1 : Main.check Double.classifier_down Double.request Double.start
                = (Ok tt, snd (Main.check Double.classifier_down Double.request
                                 Double.start)))
    by (vm_compute; reflexivity).
  assert (Hc2 : Main.check Double.generator_down Double.request Double.start
                = (Ok tt, snd (Main.check Double.generator_down Double.request
                                 Double.start)))
    by (vm_compute; reflexivity).
  assert (H1 : tag (fst (Main.process_query Double.classifier_down
                           Settings.default Double.pipeline Double.request q
                           Double.start)) = StClassify).
  { eapply H; [exact Hc1|]. eapply fails_classify; vm_compute; reflexivity. }
  assert (H2 : tag (fst (Main.process_query Double.generator_down
                           Settings.default Double.pipeline Double.request q
                           Double.start)) = StGenerate).
  { eapply H; [exact Hc2|]. eapply fails_generate; vm_compute; reflexivity. }
  assert (E :
    fst (Main.process_query Double.classifier_down Settings.default
           Double.pipeline Double.request q Double.start)
    = fst (Main.process_query Double.generator_down Settings.default
             Double.pipeline Double.request q Double.start))
    by (vm_compute; reflexivity).
  rewrite E in H1. rewrite H1 in H2. discriminate.
Qed.

(** ** The aggregator's claims *)

(** The same five checks, with scores in range, on the two
    interpreters: 70.0 where [sum] adds the floats from left to right,
    69.99 where it compensates. So the overall score is no function of
    the scores alone, whatever [round(mean(s_i) * 100, 2)] is read to
    be. *)
Lemma C2_counterexample :
  let checks :=
    QualitySpec.checks_of [0.7; 0.69; 0.65; 0.53; 0.92975]%float in
  Forall (fun c => QualityCheck.score_in_range c = true) checks
  /\ QualitySpec.score_of (QualityChecker.aggregate PyNum.upto_3_11 checks)
     = Some 70%float
  /\ QualitySpec.score_of (QualityChecker.aggregate PyNum.from_3_12 checks)
     = Some 69.99%float
  /\ ~ (exists overall : list float -> float,
          forall v checks,
            checks <> [] ->
            Forall (fun c => QualityCheck.score_in_range c = true) checks ->
            QualitySpec.score_of (QualityChecker.aggregate v checks)
            = Some (overall (List.map QualityCheck.score checks))).
Proof.
  intros checks.
  assert (R : Forall (fun c => QualityCheck.score_in_range c = true) checks)
    by (repeat constructor).
  assert (A : QualitySpec.score_of
                (QualityChecker.aggregate PyNum.upto_3_11 checks)
              = Some 70%float) by (vm_compute; reflexivity).
  assert (B : QualitySpec.score_of
                (QualityChecker.aggregate PyNum.from_3_12 checks)
              = Some 69.99%float) by (vm_compute; reflexivity).
  split; [exact R|]. split; [exact A|]. split; [exact B|].
  intros [overall H].
  assert (Ne : checks <> []) by discriminate.
  pose proof (H PyNum.upto_3_11 checks Ne R) as H1.
  pose proof (H PyNum.from_3_12 checks Ne R) as H2.
  rewrite A in H1. rewrite B, <- H1 in H2.
  apply (f_equal (fun o => match o with
                           | Some x => PrimFloat.eqb x 70%float
                           | None => false
                           end)) in H2.
  vm_compute in H2. discriminate H2.
Qed.

(** C2 (as the code has it): for every non-empty sequence of checks with
    scores in [0,1] the aggregation returns a result, over the same
    checks, whose [passed_all] is the conjunction of the flags and whose
    [overall_score] is [round(x, 2)] of the float [x = sum / n * 100]: the
    interpreter's [sum] of the scores (added from left to right up to
    CPython 3.11, compensated from 3.12), divided and multiplied as floats.
    It depends on nothing else: whatever the world, the query, the answer
    and the documents, a result of [check_quality] is the aggregate of the
    checks it carries. *)
Theorem C2_aggregate_mean_and_conjunction :
  forall (v : PyNum.cpython) (checks : list QualityCheck.t),
    checks <> [] ->
    Forall (fun c => QualityCheck.score_in_range c = true) checks ->
    (exists r sum,
        QualityChecker.aggregate v checks = Ok r
        /\ QualityCheckResult.checks r = checks
        /\ PyNum.sum_floats v (List.map QualityCheck.score checks)
           = PyNum.PyFloat sum
        /\ (v = PyNum.upto_3_11 ->
            sum = fold_left PrimFloat.add (List.map QualityCheck.score checks)
                            0%float)
        /\ QualityCheckResult.overall_score r
           = PyNum.round2
               (sum / PyNum.int_to_float (Z.of_nat (length checks)) * 100)%float
        /\ QualityCheckResult.passed_all r = QualitySpec.conjunction checks)
    /\ (forall (World : Type) (env : Collaborators World) (query answer : string)
               (docs : list string) (st st' : State World)
               (qr : QualityCheckResult.t),
          QualityChecker.check_quality env query answer docs st = (Ok qr, st') ->
          QualityChecker.aggregate (python env) (QualityCheckResult.checks qr)
          = Ok qr).
Proof.
  intros v checks Hne _. split.
  - destruct (sum_floats_nonempty v (List.map QualityCheck.score checks))
      as [x Hx].
    { destruct checks; [congruence | discriminate]. }
    exists {| QualityCheckResult.checks := checks;
              QualityCheckResult.overall_score :=
                PyNum.round2
                  (x / PyNum.int_to_float (Z.of_nat (length checks)) * 100)%float;
              QualityCheckResult.passed_all := QualitySpec.conjunction checks |}, x.
    split; [apply aggregate_nonempty; assumption|].
    split; [reflexivity|]. split; [exact Hx|].
    split; [|split; reflexivity].
    intros ->. destruct checks as [|c rest]; [congruence|].
    simpl in Hx. injection Hx as <-. reflexivity.
  - intros World env query answer docs st st' qr E.
    destruct (check_quality_run env query answer docs st) as (r & st1 & E1 & _ & Hq).
    same_run E E1.
    apply (Hq qr eq_refl).
Qed.

Lemma C2_aggregate_mean_and_conjunction_witness :
  exists r,
    QualityChecker.aggregate PyNum.from_3_12
      (QualitySpec.checks_of [0.7; 0.69; 0.65; 0.53; 0.92975]%float) = Ok r
    /\ QualityCheckResult.overall_score r = 69.99%float
    /\ QualityCheckResult.passed_all r = true.
Proof.
  destruct (C2_aggregate_mean_and_conjunction PyNum.from_3_12
              (QualitySpec.checks_of [0.7; 0.69; 0.65; 0.53; 0.92975]%float))
    as [(r & x & E & _ & Hx & _ & Hs & Hp) _].
  - discriminate.
  - repeat constructor.
  - exists r. split; [exact E|]. split.
    + rewrite Hs. vm_compute in Hx. injection Hx as <-. vm_compute. reflexivity.
    + rewrite Hp. reflexivity.
Defined.



(** A classifier failure in an admitted request. *)
Lemma C6_failure_aborts_with_untagged_500_witness :
  fst (Main.process_query Double.classifier_down Settings.default Double.pipeline
         Double.request (Double.user_query "What are your business hours?")
         Double.start)
  = Raise (HTTPException 500 "Pipeline error: upstream unavailable").
Proof.
  set (q := Double.user_query "What are your business hours?").
  assert (Hc : Main.check Double.classifier_down Double.request Double.start
               = (Ok tt, snd (Main.check Double.classifier_down Double.request
                                Double.start)))
    by (vm_compute; reflexivity).
  assert (Hf : exists st',
             stage_fails Double.classifier_down Settings.default
               (Utils.sanitize_input (UserQuery.text q))
               (snd (Main.check Double.classifier_down Double.request Double.start))
               StClassify Double.boom st').
  { eexists. eapply fails_classify; vm_compute; reflexivity. }
  destruct Hf as [st' Hf].
  destruct (C6_failure_aborts_with_untagged_500 Double.classifier_down
              Settings.default Double.pipeline Double.request q Double.start
              _ st' StClassify Double.boom Hc Hf) as [E _].
  rewrite E. reflexivity.
Defined.

(** ** The rate limiter *)

Section Limiter.
Import RateLimiter RateSpec.

Lemma timestamps_set_eq (self : t) (c : string) (l : list Z) :
  timestamps (set_timestamps self c l) c = l.
Proof. unfold timestamps, set_timestamps. simpl. rewrite lookup_insert_eq. reflexivity. Qed.

Lemma timestamps_set_ne (self : t) (c c' : string) (l : list Z) :
  c <> c' -> timestamps (set_timestamps self c l) c' = timestamps self c'.
Proof.
  intros H. unfold timestamps, set_timestamps. simpl.
  rewrite lookup_insert_ne by exact H. reflexivity.
Qed.

Lemma set_timestamps_twice (self : t) (c : string) (l l' : list Z) :
  set_timestamps (set_timestamps self c l) c l' = set_timestamps self c l'.
Proof. unfold set_timestamps. simpl. rewrite insert_insert_eq. reflexivity. Qed.

(** [is_allowed] in one step: the kept timestamps, the test, the two
    outcomes. *)
Lemma is_allowed_unfold (self : t) (now : Z) (c : string) :
  is_allowed self now c
  = let kept := filter (fun ts => now - ts < window self) (timestamps self c) in
    if Z.of_nat (length kept) >=? max_requests self
    then (false, set_timestamps self c kept)
    else (true, set_timestamps self c (kept ++ [now])).
Proof.
  unfold is_allowed. cbv zeta.
  rewrite timestamps_set_eq, set_timestamps_twice. reflexivity.
Qed.

Lemma is_allowed_timestamps (self : t) (now : Z) (c : string) :
  let kept := filter (fun ts => now - ts < window self) (timestamps self c) in
  fst (is_allowed self now c) = negb (Z.of_nat (length kept) >=? max_requests self)
  /\ timestamps (snd (is_allowed self now c)) c
     = (if Z.of_nat (length kept) >=? max_requests self
        then kept else kept ++ [now])
  /\ max_requests (snd (is_allowed self now c)) = max_requests self
  /\ window (snd (is_allowed self now c)) = window self
  /\ (forall c', c <> c' ->
        timestamps (snd (is_allowed self now c)) c' = timestamps self c').
Proof.
  rewrite is_allowed_unfold. cbv zeta.
  destruct (Z.of_nat (length (filter (fun ts => now - ts < window self)
                                     (timestamps self c))) >=? max_requests self);
    simpl; rewrite timestamps_set_eq; repeat split; try reflexivity;
    intros c' Hc; apply timestamps_set_ne; exact Hc.
Qed.

Lemma purge_expired_filter (now w : Z) (l : list Z) :
  purge_expired now w l = filter (fun ts => now - ts < w) l.
Proof. unfold purge_expired. apply list_filter_iff. intros x. lia. Qed.

Lemma geb_true_le (a b : Z) : b <= a -> (a >=? b) = true.
Proof. intros H. apply Z.geb_le. lia. Qed.

Lemma geb_false_lt (a b : Z) : a < b -> (a >=? b) = false.
Proof. intros H. case_geb; [lia | reflexivity]. Qed.

(** The code purges the timestamps that are a full window old or more. *)
Lemma is_allowed_admit_expired (self : t) (now : Z) (c : string) :
  is_allowed self now c = admit_with purge_expired self now c.
Proof.
  rewrite is_allowed_unfold. unfold admit_with. cbv zeta.
  rewrite purge_expired_filter.
  destruct (decide (max_requests self
                    <= Z.of_nat (length (filter (fun ts => now - ts < window self)
                                                (timestamps self c)))))
    as [H|H].
  - rewrite geb_true_le by lia. reflexivity.
  - rewrite geb_false_lt by lia. reflexivity.
Qed.

Lemma step_admit (self : t) (now : Z) (c : string) (l : list Z) :
  timestamps self c = l ->
  Z.of_nat (length (filter (fun ts => now - ts < window self) l))
  < max_requests self ->
  fst (is_allowed self now c) = true
  /\ timestamps (snd (is_allowed self now c)) c
     = filter (fun ts => now - ts < window self) l ++ [now]
  /\ max_requests (snd (is_allowed self now c)) = max_requests self
  /\ window (snd (is_allowed self now c)) = window self.
Proof.
  intros <- H.
  destruct (is_allowed_timestamps self now c) as (A & T & M & W & _).
  cbv zeta in A, T. rewrite geb_false_lt in A, T by exact H.
  repeat split; assumption.
Qed.

Lemma step_reject (self : t) (now : Z) (c : string) (l : list Z) :
  timestamps self c = l ->
  max_requests self
  <= Z.of_nat (length (filter (fun ts => now - ts < window self) l)) ->
  fst (is_allowed self now c) = false
  /\ timestamps (snd (is_allowed self now c)) c
     = filter (fun ts => now - ts < window self) l
  /\ max_requests (snd (is_allowed self now c)) = max_requests self
  /\ window (snd (is_allowed self now c)) = window self.
Proof.
  intros <- H.
  destruct (is_allowed_timestamps self now c) as (A & T & M & W & _).
  cbv zeta in A, T. rewrite geb_true_le in A, T by exact H.
  repeat split; assumption.
Qed.

Lemma filter_keeps_all (P : Z -> Prop) `{!forall x, Decision (P x)} (l : list Z) :
  Forall P l -> filter P l = l.
Proof.
  induction 1 as [|x l Hx _ IH]; [reflexivity|].
  rewrite filter_cons_True by exact Hx. rewrite IH. reflexivity.
Qed.

Lemma admit_each_cons (self : t) (c : string) (now : Z) (rest : list Z) :
  fst (admit_each self c (now :: rest))
  = fst (is_allowed self now c)
    :: fst (admit_each (snd (is_allowed self now c)) c rest).
Proof.
  simpl. destruct (is_allowed self now c) as [ok self']. simpl.
  destruct (admit_each self' c rest) as [oks self'']. reflexivity.
Qed.

(** With three requests per 60 seconds: three calls within a window are
    admitted, a fourth in that window is rejected, and a call made once
    the first admission is a full window old is admitted again, however
    recent the other two are. *)
Lemma three_per_minute (c : string) (t1 t2 t3 t4 t5 : Z) :
  t1 <= t2 -> t2 <= t3 -> t3 <= t4 -> t4 - t1 < seconds 60 ->
  seconds 60 <= t5 - t1 ->
  fst (admit_each (init 3 60) c [t1; t2; t3; t4; t5])
  = [true; true; true; false; true].
Proof.
  unfold seconds. intros H12 H23 H34 H41 H51.
  rewrite !admit_each_cons. simpl (fst (admit_each _ _ [])).
  set (s0 := init 3 60).
  assert (T0 : timestamps s0 c = []) by reflexivity.
  assert (M0 : max_requests s0 = 3) by reflexivity.
  assert (W0 : window s0 = 60000000) by reflexivity.
  destruct (step_admit s0 t1 c [] T0) as (A1 & T1 & M1 & W1);
    [rewrite M0; simpl; lia|].
  set (s1 := snd (is_allowed s0 t1 c)) in *.
  rewrite M0 in M1. rewrite W0 in W1, T1. simpl in T1.
  destruct (step_admit s1 t2 c [t1] T1) as (A2 & T2 & M2 & W2).
  { rewrite M1, W1, filter_keeps_all by (repeat constructor; lia). simpl. lia. }
  set (s2 := snd (is_allowed s1 t2 c)) in *.
  rewrite M1 in M2. rewrite W1 in W2, T2.
  rewrite filter_keeps_all in T2 by (repeat constructor; lia). simpl in T2.
  destruct (step_admit s2 t3 c [t1; t2] T2) as (A3 & T3 & M3 & W3).
  { rewrite M2, W2, filter_keeps_all by (repeat constructor; lia). simpl. lia. }
  set (s3 := snd (is_allowed s2 t3 c)) in *.
  rewrite M2 in M3. rewrite W2 in W3, T3.
  rewrite filter_keeps_all in T3 by (repeat constructor; lia). simpl in T3.
  destruct (step_reject s3 t4 c [t1; t2; t3] T3) as (A4 & T4 & M4 & W4).
  { rewrite M3, W3, filter_keeps_all by (repeat constructor; lia). simpl. lia. }
  set (s4 := snd (is_allowed s3 t4 c)) in *.
  rewrite M3 in M4. rewrite W3 in W4, T4.
  rewrite filter_keeps_all in T4 by (repeat constructor; lia).
  destruct (step_admit s4 t5 c [t1; t2; t3] T4) as (A5 & _).
  { rewrite M4, W4, filter_cons_False by lia.
    pose proof (length_filter (fun ts => t5 - ts < 60000000) [t2; t3]) as Hl.
    simpl in Hl. lia. }
  rewrite A1, A2, A3, A4, A5. reflexivity.
Qed.

(** Parameters never change, and a limiter that starts within its
    bound stays within it. *)
Lemma reachable_invariant (self0 self : t) :
  0 <= max_requests self0 ->
  (forall c, Z.of_nat (length (timestamps self0 c)) <= max_requests self0) ->
  reachable self0 self ->
  max_requests self = max_requests self0
  /\ window self = window self0
  /\ (forall c, Z.of_nat (length (timestamps self c)) <= max_requests self0).
Proof.
  intros Hm H0 R. induction R as [|self now c R (IHm & IHw & IHl)].
  - repeat split. exact H0.
  - destruct (is_allowed_timestamps self now c) as (_ & T & M & W & O).
    cbv zeta in T.
    split; [congruence|]. split; [congruence|].
    intros c'. destruct (decide (c = c')) as [<-|Hne].
    + rewrite T.
      pose proof (length_filter (fun ts => now - ts < window self)
                    (timestamps self c)) as Hl.
      specialize (IHl c).
      case_geb.
      * lia.
      * rewrite length_app. simpl. lia.
    + rewrite (O c' Hne). apply IHl.
Qed.
End Limiter.

(** A limit of three per 60 seconds, admissions at 0, 10 and 20 seconds,
    then a call at exactly 60 seconds: the first timestamp is not older
    than [now - window], yet the code purges it and admits the call; the
    purge of what is strictly older would reject it. *)
Lemma C4_counterexample :
  let client := "10.0.0.7" in
  let self :=
    snd (RateSpec.admit_each (RateLimiter.init 3 60) client
           [RateSpec.seconds 0; RateSpec.seconds 10; RateSpec.seconds 20]) in
  RateLimiter.timestamps self client
  = [RateSpec.seconds 0; RateSpec.seconds 10; RateSpec.seconds 20]
  /\ fst (RateLimiter.is_allowed self (RateSpec.seconds 60) client) = true
  /\ fst (RateSpec.admit_with RateSpec.purge_older self (RateSpec.seconds 60) client)
     = false.
Proof. vm_compute. repeat split. Qed.

(** C4 (as the code has it): a call at time [now] first purges the
    client's timestamps that are a full window old or more
    ([now - t >= window], the boundary included); if the remaining count
    has reached [max_requests] it returns false and records nothing, else
    it records [now] and returns true. With three requests per 60 seconds,
    three calls within a window are admitted and a fourth in that window
    is rejected; a call made once the first admission is a full window old
    is admitted, whatever the age of the later ones: the window slides. *)
Theorem C4_sliding_window_admission :
  (forall (self : RateLimiter.t) (now : Z) (client_id : string),
      RateLimiter.is_allowed self now client_id
      = RateSpec.admit_with RateSpec.purge_expired self now client_id)
  /\ (forall (client_id : string) (t1 t2 t3 t4 t5 : Z),
        t1 <= t2 -> t2 <= t3 -> t3 <= t4 ->
        t4 - t1 < RateSpec.seconds 60 ->
        RateSpec.seconds 60 <= t5 - t1 ->
        fst (RateSpec.admit_each (RateLimiter.init 3 60) client_id
               [t1; t2; t3; t4; t5])
        = [true; true; true; false; true]).
Proof.
  split.
  - exact is_allowed_admit_expired.
  - exact three_per_minute.
Qed.

Lemma C4_sliding_window_admission_witness :
  fst (RateSpec.admit_each (RateLimiter.init 3 60) "10.0.0.7"
         [RateSpec.seconds 0; RateSpec.seconds 10; RateSpec.seconds 20;
          RateSpec.seconds 30; RateSpec.seconds 60])
  = [true; true; true; false; true].
Proof.
  destruct C4_sliding_window_admission as [_ H].
  apply H; vm_compute; congruence.
Defined.

(** The configuration is not validated. With a window of zero seconds
    an admitted call records [now], for which [now - now < window] fails;
    with a limit of -1 the call is refused, and the empty sequence left
    for the client is longer than the limit. *)
Lemma C10_counterexample :
  let now := RateSpec.seconds 5 in
  let client := "10.0.0.7" in
  (let self' := snd (RateLimiter.is_allowed (RateLimiter.init 1 0) now client) in
   fst (RateLimiter.is_allowed (RateLimiter.init 1 0) now client) = true
   /\ RateLimiter.timestamps self' client = [now]
   /\ ~ Forall (fun t => now - t < RateLimiter.window self')
               (RateLimiter.timestamps self' client))
  /\ (let self' := snd (RateLimiter.is_allowed (RateLimiter.init (-1) 60) now client) in
      fst (RateLimiter.is_allowed (RateLimiter.init (-1) 60) now client) = false
      /\ ~ Z.of_nat (length (RateLimiter.timestamps self' client))
            <= RateLimiter.max_requests self').
Proof.
  intros now client. split.
  - split; [vm_compute; reflexivity|]. split; [vm_compute; reflexivity|].
    intros H.
    assert (E : RateLimiter.timestamps
                  (snd (RateLimiter.is_allowed (RateLimiter.init 1 0) now client))
                  client = [now]) by (vm_compute; reflexivity).
    rewrite E in H. inversion H as [|x l Hx _]. subst.
    vm_compute in Hx. discriminate Hx.
  - split; [vm_compute; reflexivity|].
    intros H. vm_compute in H. apply H. reflexivity.
Qed.

(** C10 (as the code has it): for a limiter with a positive window and a
    non-negative limit,
    in any state the server can reach, after a call of [is_allowed] at
    time [now] the client's sequence holds only timestamps [t] with
    [now - t < window] and at most [max_requests] of them; a rejected call
    leaves exactly the purged sequence, with no new timestamp. *)
Theorem C10_window_invariant :
  forall (max_requests window_seconds : Z) (self : RateLimiter.t) (now : Z)
         (client_id : string),
    0 <= max_requests ->
    0 < window_seconds ->
    RateSpec.reachable (RateLimiter.init max_requests window_seconds) self ->
    let ok := fst (RateLimiter.is_allowed self now client_id) in
    let self' := snd (RateLimiter.is_allowed self now client_id) in
    Forall (fun t => now - t < RateLimiter.window self')
           (RateLimiter.timestamps self' client_id)
    /\ Z.of_nat (length (RateLimiter.timestamps self' client_id)) <= max_requests
    /\ (ok = false ->
        RateLimiter.timestamps self' client_id
        = filter (fun t => now - t < RateLimiter.window self)
                 (RateLimiter.timestamps self client_id)).
Proof.
  intros max_requests window_seconds self now c Hm Hw R ok self'.
  assert (H0 : forall c',
             Z.of_nat (length (RateLimiter.timestamps
                                 (RateLimiter.init max_requests window_seconds) c'))
             <= RateLimiter.max_requests
                  (RateLimiter.init max_requests window_seconds))
    by (intros c'; simpl; exact Hm).
  destruct (reachable_invariant
              (RateLimiter.init max_requests window_seconds) self Hm H0 R)
    as (M & W & _).
  destruct (reachable_invariant
              (RateLimiter.init max_requests window_seconds) self' Hm H0
              (RateSpec.reach_call _ self now c R)) as (_ & W' & L').
  destruct (is_allowed_timestamps self now c) as (A & T & _).
  cbv zeta in A, T. fold ok in A. fold self' in T.
  simpl in W, W', L'.
  split; [|split].
  - rewrite T, W', <- W.
    assert (Hk : Forall (fun t => now - t < RateLimiter.window self)
                   (filter (fun ts => now - ts < RateLimiter.window self)
                           (RateLimiter.timestamps self c))).
    { apply Forall_forall. intros t Ht.
      apply list_elem_of_filter in Ht. apply Ht. }
    destruct (_ >=? _); [exact Hk|].
    apply Forall_app_2; [exact Hk|]. repeat constructor. lia.
  - apply L'.
  - intros Hok. rewrite T. rewrite Hok in A.
    destruct (_ >=? _); [reflexivity | discriminate].
Qed.

Lemma C10_window_invariant_witness :
  let client := "10.0.0.7" in
  let self :=
    snd (RateLimiter.is_allowed
           (snd (RateLimiter.is_allowed
                   (snd (RateLimiter.is_allowed (RateLimiter.init 2 60)
                           (RateSpec.seconds 0) client))
                   (RateSpec.seconds 30) client))
           (RateSpec.seconds 65) client) in
  let self' := snd (RateLimiter.is_allowed self (RateSpec.seconds 80) client) in
  RateLimiter.timestamps self client = [RateSpec.seconds 30; RateSpec.seconds 65]
  /\ fst (RateLimiter.is_allowed self (RateSpec.seconds 80) client) = false
  /\ RateLimiter.timestamps self' client
     = [RateSpec.seconds 30; RateSpec.seconds 65]
  /\ Z.of_nat (length (RateLimiter.timestamps self' client)) <= 2.
Proof.
  intros client self self'.
  destruct (C10_window_invariant 2 60 self (RateSpec.seconds 80) client)
    as (_ & Hlen & Hrej).
  - lia.
  - lia.
  - apply RateSpec.reach_call, RateSpec.reach_call, RateSpec.reach_call,
      RateSpec.reach_init.
  - cbv zeta in Hlen, Hrej. fold self' in Hlen, Hrej.
    assert (F : fst (RateLimiter.is_allowed self (RateSpec.seconds 80) client)
                = false) by (vm_compute; reflexivity).
    split; [vm_compute; reflexivity|].
    split; [exact F|]. split; [|exact Hlen].
    rewrite (Hrej F). vm_compute. reflexivity.
Defined.

(** ** Sanitizing *)

Section Sanitize.
Import Utils SanitizeSpec.

Lemma lt_not_gt (c : ascii) : is_lt c = true -> is_gt c = false.
Proof.
  unfold is_lt, is_gt. intros H. apply Ascii.eqb_eq in H. subst c. reflexivity.
Qed.

Lemma space_not_gt (c : ascii) : is_space c = true -> is_gt c = false.
Proof.
  unfold is_gt. intros H. destruct (Ascii.eqb_spec c gt_char) as [->|]; [|reflexivity].
  discriminate H.
Qed.

Lemma tag_opens_has_gt (s : string) : tag_opens s = true -> has_gt s = true.
Proof.
  destruct s as [|c s]; simpl; [discriminate|].
  intros H. apply andb_true_iff in H. apply H.
Qed.

Lemma has_gt_sub_tags (s : string) :
  forall b, has_gt (sub_tags b s) = true -> has_gt s = true.
Proof.
  induction s as [|c s IH]; intros b; simpl; [destruct b; auto|].
  destruct b.
  - destruct (is_gt c); [reflexivity|]. simpl. apply IH.
  - destruct (is_lt c && tag_opens s).
    + intros H. rewrite (IH _ H). apply orb_true_r.
    + simpl. destruct (is_gt c); [reflexivity|]. simpl. apply IH.
Qed.

Lemma tag_opens_sub_tags (s : string) :
  tag_opens (sub_tags false s) = true -> tag_opens s = true.
Proof.
  destruct s as [|c s]; simpl; [discriminate|].
  destruct (is_lt c && tag_opens s) eqn:E.
  - intros _. apply andb_true_iff in E. destruct E as [Hc Ho].
    rewrite (lt_not_gt c Hc), (tag_opens_has_gt s Ho). reflexivity.
  - simpl. destruct (is_gt c); simpl; [discriminate|]. apply has_gt_sub_tags.
Qed.

(** After the substitution no tag is left. *)
Lemma has_tag_sub_tags (s : string) :
  forall b, has_tag (sub_tags b s) = false.
Proof.
  induction s as [|c s IH]; intros b; simpl; [destruct b; reflexivity|].
  destruct b.
  - destruct (is_gt c); apply IH.
  - destruct (is_lt c && tag_opens s) eqn:E; [apply IH|].
    simpl. rewrite IH, orb_false_r.
    destruct (is_lt c); [|reflexivity]. simpl in E |- *.
    destruct (tag_opens (sub_tags false s)) eqn:T; [|reflexivity].
    rewrite (tag_opens_sub_tags s T) in E. discriminate.
Qed.

Lemma has_gt_collapse (s : string) :
  forall w g, has_gt (collapse w g s) = true -> has_gt s = true.
Proof.
  induction s as [|c s IH]; intros w g; simpl; [auto|].
  destruct (is_space c) eqn:Sc.
  - intros H. rewrite (IH _ _ H). apply orb_true_r.
  - destruct (w && g); simpl.
    + destruct (is_gt c); [reflexivity|]. simpl. apply IH.
    + destruct (is_gt c); [reflexivity|]. simpl. apply IH.
Qed.

Lemma tag_opens_collapse (s : string) :
  tag_opens (collapse true false s) = true -> tag_opens s = true.
Proof.
  destruct s as [|c s]; simpl; [discriminate|].
  destruct (is_space c) eqn:Sc.
  - intros H. apply tag_opens_has_gt, has_gt_collapse in H.
    rewrite (space_not_gt c Sc), H. reflexivity.
  - simpl. destruct (is_gt c); simpl; [discriminate|]. apply has_gt_collapse.
Qed.

(** Collapsing whitespace creates no tag. *)
Lemma has_tag_collapse (s : string) :
  forall w g, has_tag (collapse w g s) = true -> has_tag s = true.
Proof.
  induction s as [|c s IH]; intros w g; simpl; [auto|].
  destruct (is_space c) eqn:Sc.
  - intros H. rewrite (IH _ _ H). apply orb_true_r.
  - assert (Hc : has_tag (String c (collapse true false s)) = true ->
                 (is_lt c && tag_opens s) || has_tag s = true).
    { simpl. intros H. apply orb_true_iff in H. destruct H as [H|H].
      - apply andb_true_iff in H. destruct H as [Hl Ho].
        rewrite Hl, (tag_opens_collapse s Ho). reflexivity.
      - rewrite (IH _ _ H). apply orb_true_r. }
    destruct (w && g); [|exact Hc].
    intros H. apply Hc. exact H.
Qed.

(** Strings and their concatenation. *)
Lemma sapp_cons (c : ascii) (a b : string) :
  (String c a ++ b)%string = String c (a ++ b)%string.
Proof. reflexivity. Qed.

Lemma sapp_nil_r (s : string) : (s ++ EmptyString)%string = s.
Proof.
  induction s as [|c s IH]; [reflexivity|]. rewrite sapp_cons, IH. reflexivity.
Qed.

Lemma sapp_assoc (a b c : string) :
  ((a ++ b) ++ c)%string = (a ++ (b ++ c))%string.
Proof.
  induction a as [|x a IH]; [reflexivity|]. rewrite !sapp_cons, IH. reflexivity.
Qed.

Lemma sapp_nonempty_r (a b : string) : b <> EmptyString -> (a ++ b)%string <> EmptyString.
Proof. destruct a; [auto|]. rewrite sapp_cons. discriminate. Qed.

Lemma no_space_app (a b : string) :
  no_space (a ++ b) = no_space a && no_space b.
Proof.
  induction a as [|c a IH]; [reflexivity|].
  rewrite sapp_cons. simpl. rewrite IH, andb_assoc. reflexivity.
Qed.

(** [split] yields words. *)
Lemma split_from_words (s : string) :
  forall cur, no_space cur = true -> Forall is_word (split_from cur s).
Proof.
  induction s as [|c s IH]; intros cur Hc; simpl.
  - destruct (String.eqb_spec cur EmptyString); constructor; [|constructor].
    split; assumption.
  - destruct (is_space c) eqn:Sc.
    + destruct (String.eqb_spec cur EmptyString).
      * apply IH. reflexivity.
      * constructor; [split; assumption|]. apply IH. reflexivity.
    + apply IH. rewrite no_space_app, Hc. simpl. rewrite Sc. reflexivity.
Qed.

Lemma join_words_nonempty (w : string) (ws : list string) :
  w <> EmptyString -> join " " (w :: ws) <> EmptyString.
Proof.
  intros Hw. unfold join. simpl. destruct ws as [|w' ws]; [exact Hw|].
  destruct w; [congruence|]. rewrite sapp_cons. discriminate.
Qed.

Lemma collapse_unstarted (s : string) (g : bool) :
  collapse false g s = collapse false false s.
Proof.
  revert g. induction s as [|c s IH]; intros g; simpl; [reflexivity|].
  destruct (is_space c); [|reflexivity].
  rewrite (IH true). reflexivity.
Qed.

Lemma collapse_gap (s : string) :
  collapse true true s
  = match collapse false false s with
    | EmptyString => EmptyString
    | x => String space x
    end.
Proof.
  induction s as [|c s IH]; simpl; [reflexivity|].
  destruct (is_space c).
  - rewrite IH, (collapse_unstarted s true). reflexivity.
  - reflexivity.
Qed.

(** Splitting on whitespace and joining with single spaces is the
    one-scan collapse. *)
Lemma join_split_from (s : string) :
  forall cur,
    no_space cur = true ->
    join " " (split_from cur s)
    = if String.eqb cur EmptyString then collapse false false s
      else (cur ++ collapse true false s)%string.
Proof.
  induction s as [|c s IH]; intros cur Hc; simpl.
  - destruct (String.eqb_spec cur EmptyString); [reflexivity|].
    rewrite sapp_nil_r. reflexivity.
  - destruct (is_space c) eqn:Sc.
    + destruct (String.eqb_spec cur EmptyString) as [->|Hne].
      * rewrite (IH EmptyString eq_refl). simpl. apply eq_sym, collapse_unstarted.
      * pose proof (IH EmptyString eq_refl) as J. simpl in J.
        pose proof (split_from_words s EmptyString eq_refl) as Hw.
        rewrite collapse_gap, <- J. unfold join in *.
        destruct (split_from EmptyString s) as [|w ws].
        { simpl. rewrite sapp_nil_r. reflexivity. }
        inversion Hw as [|? ? [Hw1 _] _]; subst.
        pose proof (join_words_nonempty w ws Hw1) as Hj. unfold join in Hj.
        change (String.concat " " (cur :: w :: ws))
          with (cur ++ (" " ++ String.concat " " (w :: ws)))%string.
        destruct (String.concat " " (w :: ws)) as [|a x]; [congruence|].
        reflexivity.
    + assert (Hc' : no_space (cur ++ String c EmptyString) = true).
      { rewrite no_space_app, Hc. simpl. rewrite Sc. reflexivity. }
      rewrite (IH _ Hc').
      destruct (String.eqb_spec (cur ++ String c EmptyString) EmptyString) as [E|_].
      { destruct cur; discriminate E. }
      rewrite sapp_assoc. simpl.
      destruct (String.eqb_spec cur EmptyString) as [->|_]; reflexivity.
Qed.

Lemma join_split_collapse (s : string) :
  join " " (split s) = collapse false false s.
Proof. unfold split. rewrite (join_split_from s EmptyString eq_refl). reflexivity. Qed.

(** Stripping a string that neither starts nor ends with whitespace. *)
Lemma lstrip_id (s : string) : head_nonspace s = true -> lstrip s = s.
Proof. destruct s as [|c s]; simpl; [reflexivity|]. destruct (is_space c); [discriminate|reflexivity]. Qed.

Lemma string_of_list_ascii_app (l1 l2 : list ascii) :
  string_of_list_ascii (l1 ++ l2)
  = (string_of_list_ascii l1 ++ string_of_list_ascii l2)%string.
Proof.
  induction l1 as [|c l1 IH]; [reflexivity|].
  simpl. rewrite IH, sapp_cons. reflexivity.
Qed.

Lemma rev_string_cons (c : ascii) (s : string) :
  rev_string (String c s) = (rev_string s ++ String c EmptyString)%string.
Proof. unfold rev_string. simpl. rewrite string_of_list_ascii_app. reflexivity. Qed.

Lemma rev_string_involutive (s : string) : rev_string (rev_string s) = s.
Proof.
  unfold rev_string.
  rewrite list_ascii_of_string_of_list_ascii, rev_involutive.
  apply string_of_list_ascii_of_string.
Qed.

Lemma head_nonspace_app (a b : string) :
  a <> EmptyString -> head_nonspace (a ++ b) = head_nonspace a.
Proof. destruct a; [congruence|]. rewrite sapp_cons. reflexivity. Qed.

Lemma head_rev_last (s : string) : head_nonspace (rev_string s) = last_nonspace s.
Proof.
  induction s as [|c s IH]; [reflexivity|].
  rewrite rev_string_cons. destruct s as [|c' s'].
  - reflexivity.
  - rewrite head_nonspace_app.
    + rewrite IH. reflexivity.
    + rewrite rev_string_cons. apply sapp_nonempty_r. discriminate.
Qed.

Lemma last_nonspace_word (w : string) : no_space w = true -> last_nonspace w = true.
Proof.
  induction w as [|c w IH]; [reflexivity|]. simpl.
  intros H. apply andb_true_iff in H. destruct H as [Hc Hw].
  destruct w; [exact Hc | apply IH; exact Hw].
Qed.

Lemma last_nonspace_skip (c : ascii) (s : string) :
  s <> EmptyString -> last_nonspace (String c s) = last_nonspace s.
Proof. destruct s; [congruence | reflexivity]. Qed.

Lemma last_nonspace_app (a b : string) :
  b <> EmptyString -> last_nonspace (a ++ b) = last_nonspace b.
Proof.
  intros Hb. induction a as [|c a IH]; [reflexivity|].
  rewrite sapp_cons, last_nonspace_skip by (apply sapp_nonempty_r; exact Hb).
  exact IH.
Qed.

Lemma join_cons2 (w w' : string) (ws : list string) :
  join " " (w :: w' :: ws) = (w ++ String space (join " " (w' :: ws)))%string.
Proof. reflexivity. Qed.

Lemma last_nonspace_join (ws : list string) :
  Forall is_word ws -> last_nonspace (join " " ws) = true.
Proof.
  induction 1 as [|w ws [Hw Hn] Hws IH]; [reflexivity|].
  destruct ws as [|w' ws'].
  - apply last_nonspace_word. exact Hn.
  - rewrite join_cons2.
    inversion Hws as [|? ? [Hw' _] _]; subst.
    pose proof (join_words_nonempty w' ws' Hw') as Hj.
    rewrite last_nonspace_app by discriminate.
    rewrite last_nonspace_skip by exact Hj. exact IH.
Qed.

Lemma head_nonspace_join (ws : list string) :
  Forall is_word ws -> head_nonspace (join " " ws) = true.
Proof.
  intros H. destruct H as [|w ws [Hw Hn] Hws]; [reflexivity|].
  destruct w as [|c w]; [congruence|].
  simpl in Hn. apply andb_true_iff in Hn. destruct Hn as [Hc _].
  destruct ws as [|w' ws']; [exact Hc|].
  rewrite join_cons2, sapp_cons. exact Hc.
Qed.

Lemma strip_join (ws : list string) :
  Forall is_word ws -> strip (join " " ws) = join " " ws.
Proof.
  intros H. unfold strip.
  rewrite (lstrip_id _ (head_nonspace_join ws H)).
  rewrite lstrip_id; [apply rev_string_involutive|].
  rewrite head_rev_last. apply last_nonspace_join. exact H.
Qed.

(** What [sanitize_input] returns: the input without its tags, split
    into words joined by single spaces; it holds no tag, and whitespace
    in it is collapsed. *)
Lemma sanitize_input_spec (text : string) :
  sanitize_input text = join " " (split (sub_tags false text))
  /\ collapsed (sanitize_input text)
  /\ has_tag (sanitize_input text) = false.
Proof.
  pose proof (split_from_words (sub_tags false text) EmptyString eq_refl) as Hw.
  fold (split (sub_tags false text)) in Hw.
  assert (E : sanitize_input text = join " " (split (sub_tags false text))).
  { unfold sanitize_input. apply strip_join. exact Hw. }
  split; [exact E|]. split.
  - exists (split (sub_tags false text)). split; assumption.
  - rewrite E, join_split_collapse.
    destruct (has_tag (collapse false false (sub_tags false text))) eqn:T;
      [|reflexivity].
    apply has_tag_collapse in T. rewrite has_tag_sub_tags in T. discriminate.
Qed.

(** *** Stripping the tags, against its description *)

Lemma has_gt_app (a b : string) : has_gt (a ++ b) = has_gt a || has_gt b.
Proof.
  induction a as [|c a IH]; [reflexivity|].
  rewrite sapp_cons. simpl. rewrite IH, orb_assoc. reflexivity.
Qed.

(** Inside a tag the scan drops everything up to the first [>]. *)
Lemma sub_tags_in_tag (s : string) :
  has_gt s = true ->
  exists body rest,
    s = (body ++ String gt_char rest)%string
    /\ has_gt body = false
    /\ sub_tags true s = sub_tags false rest.
Proof.
  induction s as [|c s IH]; [discriminate|].
  simpl. destruct (is_gt c) eqn:G.
  - intros _. exists EmptyString, s.
    unfold is_gt in G. apply Ascii.eqb_eq in G. subst c.
    split; [reflexivity|]. split; reflexivity.
  - simpl. intros H. destruct (IH H) as (body & rest & -> & Hb & Hs).
    exists (String c body), rest.
    split; [reflexivity|]. split; [simpl; rewrite G; exact Hb | exact Hs].
Qed.

Lemma tag_opens_split (s : string) :
  tag_opens s = true ->
  exists body rest,
    s = (body ++ String gt_char rest)%string
    /\ body <> EmptyString
    /\ has_gt body = false
    /\ sub_tags true s = sub_tags false rest.
Proof.
  intros H. destruct s as [|c s]; [discriminate|].
  unfold tag_opens in H. apply andb_true_iff in H. destruct H as [Hc Hg].
  destruct (sub_tags_in_tag _ Hg) as (body & rest & E & Hb & Hs).
  exists body, rest. split; [exact E|]. split; [|split; assumption].
  intros ->. change (EmptyString ++ String gt_char rest)%string
    with (String gt_char rest) in E.
  injection E as -> _. discriminate Hc.
Qed.

Lemma tag_at_head_opens (c : ascii) (s : string) :
  tag_at_head (String c s) -> is_lt c && tag_opens s = true.
Proof.
  intros (t & rest & (body & -> & Hne & Hb) & E).
  rewrite sapp_cons, sapp_assoc in E. injection E as -> ->.
  destruct body as [|b body]; [congruence|].
  rewrite sapp_cons. simpl in Hb. apply orb_false_iff in Hb. destruct Hb as [Hb1 Hb2].
  unfold tag_opens. cbn [has_gt]. rewrite Hb1, has_gt_app. cbn [has_gt].
  replace (is_gt gt_char) with true by reflexivity.
  rewrite orb_true_r. reflexivity.
Qed.

Lemma slength_app_gt (body rest : string) :
  (String.length rest < String.length (body ++ String gt_char rest))%nat.
Proof.
  induction body as [|c body IH]; [simpl; lia|].
  rewrite sapp_cons. simpl. lia.
Qed.

Lemma sub_tags_strips_upto (n : nat) :
  forall s, (String.length s <= n)%nat -> strips s (sub_tags false s).
Proof.
  induction n as [|n IH]; intros s Hn.
  - destruct s; [apply strips_end | simpl in Hn; lia].
  - destruct s as [|c s]; [apply strips_end|].
    simpl in Hn. simpl sub_tags.
    destruct (is_lt c && tag_opens s) eqn:T.
    + apply andb_true_iff in T. destruct T as [Tc To].
      destruct (tag_opens_split s To) as (body & rest & E & Hne & Hb & Hs).
      rewrite Hs.
      apply (strips_tag _ (String lt_char (body ++ String gt_char EmptyString)) rest).
      * unfold is_lt in Tc. apply Ascii.eqb_eq in Tc. subst c.
        rewrite sapp_cons, sapp_assoc. rewrite E. reflexivity.
      * exists body. split; [reflexivity|]. split; assumption.
      * apply IH. pose proof (slength_app_gt body rest) as L.
        rewrite <- E in L. lia.
    + apply strips_keep; [|apply IH; lia].
      intros H. rewrite (tag_at_head_opens c s H) in T. discriminate.
Qed.

(** The scan strips the tags, each dropped whole and nothing else. *)
Lemma sub_tags_strips (s : string) : strips s (sub_tags false s).
Proof. apply (sub_tags_strips_upto (String.length s)). lia. Qed.

(** A tag at the head of a text is determined by the text. *)
Lemma body_unique (b b' r r' : string) :
  has_gt b = false -> has_gt b' = false ->
  (b ++ String gt_char r)%string = (b' ++ String gt_char r')%string ->
  b = b' /\ r = r'.
Proof.
  revert b'. induction b as [|c b IH]; intros b' Hb Hb' E.
  - destruct b' as [|c' b'].
    + injection E as ->. split; reflexivity.
    + rewrite sapp_cons in E. injection E as <- _. discriminate Hb'.
  - destruct b' as [|c' b'].
    + rewrite sapp_cons in E. injection E as -> _. discriminate Hb.
    + rewrite !sapp_cons in E. injection E as -> E.
      simpl in Hb, Hb'. apply orb_false_iff in Hb. apply orb_false_iff in Hb'.
      destruct (IH b' (proj2 Hb) (proj2 Hb') E) as [-> ->].
      split; reflexivity.
Qed.

Lemma tag_unique (t t' r r' : string) :
  is_tag t -> is_tag t' -> (t ++ r)%string = (t' ++ r')%string ->
  t = t' /\ r = r'.
Proof.
  intros (b & -> & _ & Hb) (b' & -> & _ & Hb') E.
  rewrite !sapp_cons, !sapp_assoc in E. injection E as E.
  destruct (body_unique b b' r r' Hb Hb' E) as [-> ->].
  split; reflexivity.
Qed.

(** Stripping is a function of the text: the description leaves no
    choice. *)
Lemma strips_functional (s o1 o2 : string) :
  strips s o1 -> strips s o2 -> o1 = o2.
Proof.
  intros H1. revert o2.
  induction H1 as [|s t rest out E T H1 IH|c rest out N H1 IH]; intros o2 H2.
  - inversion H2 as [|s' t' rest' out' E' T' H2'|]; [reflexivity|].
    destruct T' as (b & -> & _). rewrite sapp_cons in E'. discriminate E'.
  - inversion H2 as [E2|s' t' rest' out' E' T' H2'|c' rest' out' N' H2' E2].
    + subst s. destruct T as (b & -> & _). rewrite sapp_cons in E2.
      discriminate E2.
    + subst. destruct (tag_unique _ _ _ _ T T' E') as [-> ->].
      apply IH. exact H2'.
    + exfalso. apply N'. exists t, rest. split; [exact T | congruence].
  - inversion H2 as [|s' t' rest' out' E' T' H2'|c' rest' out' N' H2'].
    + subst. exfalso. apply N. exists t', rest'. split; assumption.
    + subst. f_equal. apply IH. exact H2'.
Qed.

Example sanitize_bold :
  sanitize_input "  <b>What</b>   are your
  hours?  " = "What are your hours?".
Proof. vm_compute. reflexivity. Qed.

(** A text of markup only passes the length check and sanitizes to the
    empty string. *)
Example sanitize_only_tags : sanitize_input "<br/>" = EmptyString.
Proof. vm_compute. reflexivity. Qed.
End Sanitize.

(** ** The text the stages read *)

Section Texts.
Context {World : Type} (env : Collaborators World) (settings : Settings.t).

(** C8: a request whose text is empty or longer than 1000 characters is
    rejected with a validation error before anything runs: no state
    changes, no event. Otherwise every stage that runs reads the sanitized
    text; so a request that reaches a stage or succeeds has a text of 1 to
    1000 characters. The sanitized text is the submitted text with its
    tags stripped, each dropped whole and every other character kept, and
    then its whitespace collapsed: the words of what is left, in order,
    with single spaces between them. It holds no HTML tag. *)
Theorem C8_stages_read_sanitized_text :
  forall (ep : Main.Endpoint) (pipeline : Pipeline.t) (request : Main.Request)
         (raw_text : string) (raw_metadata : option (list (string * string)))
         (st : State World),
    let n := Z.of_nat (String.length raw_text) in
    let clean := Utils.sanitize_input raw_text in
    exists res st' evs,
      Main.post env settings ep pipeline request raw_text raw_metadata st
      = (res, st')
      /\ log st' = log st ++ evs
      /\ SanitizeSpec.stages_read clean evs
      /\ (SanitizeSpec.has_stage evs \/ (exists body, res = Ok body) ->
          1 <= n <= 1000)
      /\ (n < 1 \/ 1000 < n ->
          (exists msg, res = Raise (PyExc "ValidationError" msg))
          /\ st' = st /\ evs = [])
      /\ (exists stripped,
            SanitizeSpec.strips raw_text stripped
            /\ clean = SanitizeSpec.collapse false false stripped)
      /\ SanitizeSpec.collapsed clean
      /\ SanitizeSpec.has_tag clean = false.
Proof.
  intros ep pipeline request raw_text raw_metadata st n clean.
  destruct (sanitize_input_spec raw_text) as (Heq & Hcol & Htag).
  assert (Hstr : exists stripped,
             SanitizeSpec.strips raw_text stripped
             /\ clean = SanitizeSpec.collapse false false stripped).
  { exists (Utils.sub_tags false raw_text).
    split; [apply sub_tags_strips|].
    subst clean. rewrite Heq. apply join_split_collapse. }
  unfold Main.post, bind, lift_res, UserQuery.validate,
    UserQuery.min_length, UserQuery.max_length.
  fold n.
  destruct (Z.ltb_spec n 1) as [Hlo|Hlo].
  { eexists _, st, []. split; [reflexivity|].
    split; [rewrite app_nil_r; reflexivity|].
    split; [intros ev q []|].
    split. { intros [(ev & [] & _)|(body & Hb)]. discriminate Hb. }
    split; [|split; [exact Hstr | split; assumption]].
    intros _. split; [eexists; reflexivity|]. split; reflexivity. }
  destruct (Z.ltb_spec 1000 n) as [Hhi|Hhi].
  { eexists _, st, []. split; [reflexivity|].
    split; [rewrite app_nil_r; reflexivity|].
    split; [intros ev q []|].
    split. { intros [(ev & [] & _)|(body & Hb)]. discriminate Hb. }
    split; [|split; [exact Hstr | split; assumption]].
    intros _. split; [eexists; reflexivity|]. split; reflexivity. }
  destruct (handler_run env settings ep pipeline request
              {| UserQuery.text := raw_text; UserQuery.metadata := raw_metadata |} st)
    as (res & st' & evs & E & L & H).
  exists res, st', evs. split; [exact E|]. split; [exact L|].
  split; [|split; [intros _; lia
                  | split; [intros [?|?]; lia
                           | split; [exact Hstr | split; assumption]]]].
  simpl in H. fold clean in H.
  destruct (Main.client_host request) as [c|].
  - cbv zeta in H. destruct H as (stages & -> & Hst & _).
    intros ev q [<-|Hin] Hq; [discriminate Hq|].
    rewrite Forall_forall in Hst.
    apply (Hst ev); [apply list_elem_of_In; exact Hin | exact Hq].
  - destruct H as [-> _]. intros ev q [].
Qed.
End Texts.

(** A text with tags and runs of whitespace, on [/classify]: the
    classifier reads the sanitized text. *)
Lemma C8_stages_read_sanitized_text_witness :
  let raw := "  What are   your <b>business</b> hours? " in
  exists res st',
    Main.post (Double.healthy true) Settings.default Main.EpClassify
      Double.pipeline Double.request raw None Double.start = (res, st')
    /\ In (EvClassify "What are your business hours?") (log st')
    /\ SanitizeSpec.stages_read "What are your business hours?" (log st')
    /\ SanitizeSpec.strips raw "  What are   your business hours? ".
Proof.
  intros raw.
  destruct (C8_stages_read_sanitized_text (Double.healthy true) Settings.default
              Main.EpClassify Double.pipeline Double.request raw None Double.start)
    as (res & st' & evs & E & L & Hread & _ & _ & (stripped & Hs & _) & _).
  exists res, st'. split; [exact E|].
  change (log Double.start) with (@nil Event) in L. cbn [app] in L.
  change (Utils.sanitize_input raw) with "What are your business hours?" in Hread.
  rewrite L. split; [|split; [exact Hread|]].
  - assert (Ev : log (snd (Main.post (Double.healthy true) Settings.default
                             Main.EpClassify Double.pipeline Double.request raw
                             None Double.start))
                 = [EvRateLimit "10.0.0.7" 0 true;
                    EvClassify "What are your business hours?"])
      by (vm_compute; reflexivity).
    rewrite E in Ev. cbn [snd] in Ev. rewrite L in Ev. rewrite Ev.
    right. left. reflexivity.
  - assert (Es : stripped = "  What are   your business hours? ").
    { apply (strips_functional raw); [exact Hs|].
      change "  What are   your business hours? "
        with (Utils.sub_tags false raw).
      apply sub_tags_strips. }
    rewrite <- Es. exact Hs.
Defined.

(** With one request per minute, the second request of a client within
    the minute is denied with status 429. *)
Lemma C9_rate_limit_before_stages_witness :
  let settings :=
    {| Settings.retrieval_top_k := 3; Settings.quality_score_threshold := 70;
       Settings.rate_limit_requests := 1;
       Settings.rate_limit_window_seconds := 60 |} in
  let q := Double.user_query "What are your business hours?" in
  let st1 :=
    snd (Main.handler (Double.healthy false) settings Main.EpClassify
           Double.pipeline Double.request q (Main.initial_state settings 0)) in
  fst (Main.handler (Double.healthy false) settings Main.EpClassify
         Double.pipeline Double.request q st1)
  = Raise (HTTPException 429 "Rate limit exceeded. Max 1 requests per 60 seconds.").
Proof.
  intros settings q st1.
  destruct (C9_rate_limit_before_stages (Double.healthy false) settings
              Main.EpClassify Double.pipeline Double.request q st1)
    as (res & st' & evs & E & _ & H).
  unfold Double.request in H. cbn [Main.client_host] in H. cbv zeta in H.
  destruct H as (stages & _ & _ & Hdeny & _).
  rewrite E. cbn [fst]. destruct Hdeny as [_ ->]; [vm_compute; reflexivity|].
  vm_compute. reflexivity.
Defined.

(* ===================================================================== *)
(** * Part III: further properties of the code *)
(* ===================================================================== *)

(** ** src/utils.py: truncate_text *)

Section Truncate.
Import Utils.

Lemma slength_app (a b : string) :
  String.length (a ++ b) = (String.length a + String.length b)%nat.
Proof.
  induction a as [|c a IH]; [reflexivity|].
  rewrite sapp_cons. simpl. rewrite IH. reflexivity.
Qed.

Lemma length_take_chars (n : nat) (s : string) :
  String.length (take_chars n s) = Nat.min n (String.length s).
Proof.
  revert s. induction n as [|n IH]; intros [|c s]; simpl; try reflexivity.
  rewrite IH. reflexivity.
Qed.

Lemma length_slice_to (s : string) (k : Z) :
  Z.of_nat (String.length (slice_to s k))
  = if 0 <=? k then Z.min k (Z.of_nat (String.length s))
    else Z.max 0 (Z.of_nat (String.length s) + k).
Proof.
  unfold slice_to. destruct (Z.leb_spec 0 k); rewrite length_take_chars; lia.
Qed.

Lemma length_truncated (text : string) (max_length : Z) :
  max_length < Z.of_nat (String.length text) ->
  truncate_text text max_length
  = (slice_to text (max_length - 3) ++ "...")%string
  /\ Z.of_nat (String.length (truncate_text text max_length))
     = 3 + (if 3 <=? max_length then max_length - 3
            else Z.max 0 (Z.of_nat (String.length text) + max_length - 3)).
Proof.
  intros H. unfold truncate_text.
  destruct (Z.leb_spec (Z.of_nat (String.length text)) max_length); [lia|].
  split; [reflexivity|].
  rewrite slength_app, Nat2Z.inj_add, length_slice_to. simpl String.length.
  destruct (Z.leb_spec 0 (max_length - 3)); destruct (Z.leb_spec 3 max_length); lia.
Qed.

Lemma truncate_text_length_min (text : string) (max_length : Z) :
  3 <= max_length ->
  Z.of_nat (String.length (truncate_text text max_length))
  = Z.min (Z.of_nat (String.length text)) max_length.
Proof.
  intros Hm.
  destruct (Z.le_gt_cases (Z.of_nat (String.length text)) max_length) as [H|H].
  - unfold truncate_text.
    destruct (Z.leb_spec (Z.of_nat (String.length text)) max_length); lia.
  - destruct (length_truncated text max_length H) as [_ ->].
    destruct (Z.leb_spec 3 max_length); lia.
Qed.

(** X1: with a limit of at least 3, the result has the length of the text
    or the limit, whichever is smaller; a longer text is cut to its first
    [max_length - 3] characters followed by three dots. *)
Theorem X1_truncate_text_length :
  forall (text : string) (max_length : Z),
    3 <= max_length ->
    Z.of_nat (String.length (truncate_text text max_length))
    = Z.min (Z.of_nat (String.length text)) max_length
    /\ (max_length < Z.of_nat (String.length text) ->
        truncate_text text max_length
        = (take_chars (Z.to_nat (max_length - 3)) text ++ "...")%string).
Proof.
  intros text max_length Hm. split.
  - apply truncate_text_length_min. exact Hm.
  - intros H. destruct (length_truncated text max_length H) as [-> _].
    unfold slice_to. destruct (Z.leb_spec 0 (max_length - 3)); [reflexivity | lia].
Qed.

Lemma X1_truncate_text_length_witness :
  truncate_text "What are your business hours?" 10 = "What ar...".
Proof.
  destruct (X1_truncate_text_length "What are your business hours?" 10)
    as [_ H]; [lia|].
  rewrite H by (vm_compute; reflexivity). reflexivity.
Defined.

(** X2: with a limit below 3 a text longer than the limit is not brought
    under it: the slice counts from the end, the dots are added, and the
    result is longer than the limit; for a limit from 0 to 2 it is at
    least as long as the text. *)
Theorem X2_truncate_text_small_limit :
  forall (text : string) (max_length : Z),
    max_length < 3 ->
    max_length < Z.of_nat (String.length text) ->
    max_length < Z.of_nat (String.length (truncate_text text max_length))
    /\ (0 <= max_length ->
        Z.of_nat (String.length text)
        <= Z.of_nat (String.length (truncate_text text max_length))).
Proof.
  intros text max_length Hm H.
  destruct (length_truncated text max_length H) as [_ ->].
  destruct (Z.leb_spec 3 max_length); lia.
Qed.

Lemma X2_truncate_text_small_limit_witness :
  2 < Z.of_nat (String.length (truncate_text "abcd" 2)).
Proof.
  destruct (X2_truncate_text_small_limit "abcd" 2) as [H _];
    [lia | vm_compute; reflexivity | exact H].
Defined.

(** X3: with a limit of at least 3, truncating twice is truncating once. *)
Theorem X3_truncate_text_idempotent :
  forall (text : string) (max_length : Z),
    3 <= max_length ->
    truncate_text (truncate_text text max_length) max_length
    = truncate_text text max_length.
Proof.
  intros text max_length Hm.
  pose proof (truncate_text_length_min text max_length Hm) as Hl.
  unfold truncate_text at 1.
  destruct (Z.leb_spec (Z.of_nat (String.length (truncate_text text max_length)))
              max_length); [reflexivity | lia].
Qed.
End Truncate.

Lemma X3_truncate_text_idempotent_witness :
  Utils.truncate_text (Utils.truncate_text "The quick brown fox" 10) 10
  = Utils.truncate_text "The quick brown fox" 10.
Proof.
  apply (X3_truncate_text_idempotent "The quick brown fox" 10). lia.
Defined.

(** ** src/utils.py: sanitize_input, further *)

Section SanitizeMore.
Import Utils SanitizeSpec.

Lemma sub_tags_no_tag (s : string) : has_tag s = false -> sub_tags false s = s.
Proof.
  induction s as [|c s IH]; [reflexivity|]. simpl. intros H.
  apply orb_false_iff in H. destruct H as [H1 H2].
  rewrite H1, (IH H2). reflexivity.
Qed.

Lemma split_from_word (w : string) :
  forall cur r,
    no_space w = true ->
    split_from cur (w ++ r) = split_from (cur ++ w) r.
Proof.
  induction w as [|c w IH]; intros cur r Hw.
  - rewrite sapp_nil_r. reflexivity.
  - simpl in Hw. apply andb_true_iff in Hw. destruct Hw as [Hc Hw].
    apply negb_true_iff in Hc.
    rewrite sapp_cons. simpl. rewrite Hc, (IH _ _ Hw), sapp_assoc. reflexivity.
Qed.

Lemma split_from_space (cur r : string) :
  split_from cur (String space r)
  = if String.eqb cur EmptyString then split_from EmptyString r
    else cur :: split_from EmptyString r.
Proof. reflexivity. Qed.

(** Splitting a single-space join of words gives the words back. *)
Lemma split_join_words (ws : list string) :
  Forall is_word ws -> split (join " " ws) = ws.
Proof.
  unfold split. induction 1 as [|w ws [Hne Hw] Hws IH]; [reflexivity|].
  destruct ws as [|w' ws'].
  - change (join " " [w]) with w.
    rewrite <- (sapp_nil_r w) at 1.
    rewrite (split_from_word w EmptyString EmptyString Hw).
    change (EmptyString ++ w)%string with w. simpl.
    destruct (String.eqb_spec w EmptyString); [congruence | reflexivity].
  - rewrite join_cons2, (split_from_word w EmptyString _ Hw).
    change (EmptyString ++ w)%string with w. rewrite split_from_space.
    destruct (String.eqb_spec w EmptyString); [congruence|].
    rewrite IH. reflexivity.
Qed.

Lemma length_sub_tags (s : string) :
  forall b, (String.length (sub_tags b s) <= String.length s)%nat.
Proof.
  induction s as [|c s IH]; intros b; simpl; [destruct b; simpl; lia|].
  destruct b.
  - destruct (is_gt c); [specialize (IH false) | specialize (IH true)]; lia.
  - destruct (is_lt c && tag_opens s); [specialize (IH true); lia|].
    simpl. specialize (IH false). lia.
Qed.

Lemma length_collapse (s : string) :
  forall w g,
    (String.length (collapse w g s)
     <= String.length s + (if w && g then 1 else 0))%nat.
Proof.
  induction s as [|c s IH]; intros w g; simpl; [lia|].
  destruct (is_space c).
  - specialize (IH w true). destruct (w && true); destruct (w && g); lia.
  - specialize (IH true false). simpl in IH.
    destruct (w && g); simpl; lia.
Qed.

Lemma sanitize_input_length_le (text : string) :
  (String.length (sanitize_input text) <= String.length text)%nat.
Proof.
  destruct (sanitize_input_spec text) as (E & _ & _).
  rewrite E, join_split_collapse.
  pose proof (length_collapse (sub_tags false text) false false) as H1.
  pose proof (length_sub_tags text false) as H2. simpl in H1. lia.
Qed.

(** X4: sanitizing is idempotent: a sanitized text is left as it is. *)
Theorem X4_sanitize_input_idempotent :
  forall text : string,
    sanitize_input (sanitize_input text) = sanitize_input text.
Proof.
  intros text.
  destruct (sanitize_input_spec text) as (E & _ & Htag).
  pose proof (split_from_words (sub_tags false text) EmptyString eq_refl) as Hw.
  fold (split (sub_tags false text)) in Hw.
  destruct (sanitize_input_spec (sanitize_input text)) as (E2 & _ & _).
  rewrite E2, (sub_tags_no_tag _ Htag), E, (split_join_words _ Hw).
  reflexivity.
Qed.

(** X5: sanitizing never lengthens a text. *)
Theorem X5_sanitize_input_never_longer :
  forall text : string,
    (String.length (sanitize_input text) <= String.length text)%nat.
Proof. exact sanitize_input_length_le. Qed.
End SanitizeMore.

Section TextBound.
Context {World : Type} (env : Collaborators World) (settings : Settings.t).

(** X6: whatever is posted to any of the three routes, the text a stage is
    given has at most 1000 characters (it may have none). *)
Theorem X6_stages_read_at_most_1000_characters :
  forall (ep : Main.Endpoint) (pipeline : Pipeline.t) (request : Main.Request)
         (raw_text : string) (raw_metadata : option (list (string * string)))
         (st : State World),
  exists res st' evs,
    Main.post env settings ep pipeline request raw_text raw_metadata st
    = (res, st')
    /\ log st' = log st ++ evs
    /\ (forall ev q,
          In ev evs -> event_query ev = Some q ->
          Z.of_nat (String.length q) <= 1000).
Proof.
  intros ep pipeline request raw_text raw_metadata st.
  unfold Main.post, bind, lift_res, UserQuery.validate,
    UserQuery.min_length, UserQuery.max_length.
  destruct (Z.ltb_spec (Z.of_nat (String.length raw_text)) 1) as [Hlo|Hlo].
  { eexists _, st, []. split; [reflexivity|].
    split; [rewrite app_nil_r; reflexivity|]. intros ev q []. }
  destruct (Z.ltb_spec 1000 (Z.of_nat (String.length raw_text))) as [Hhi|Hhi].
  { eexists _, st, []. split; [reflexivity|].
    split; [rewrite app_nil_r; reflexivity|]. intros ev q []. }
  destruct (handler_run env settings ep pipeline request
              {| UserQuery.text := raw_text; UserQuery.metadata := raw_metadata |} st)
    as (res & st' & evs & E & L & H).
  exists res, st', evs. split; [exact E|]. split; [exact L|].
  pose proof (sanitize_input_length_le raw_text) as Hlen.
  cbn [UserQuery.text] in H.
  destruct (Main.client_host request) as [c|].
  - cbv zeta in H. destruct H as (stages & -> & Hst & _).
    intros ev q [<-|Hin] Hq; [discriminate Hq|].
    rewrite Forall_forall in Hst.
    destruct (Hst ev (proj2 (list_elem_of_In _ _) Hin)) as [_ Hq'].
    rewrite (Hq' q Hq). lia.
  - destruct H as [-> _]. intros ev q [].
Qed.
End TextBound.

(** ** src/utils.py: extract_json_from_markdown *)

Section Extract.
Import Utils SanitizeSpec TextSpec.

Lemma strip_prefix_sound (p : string) :
  forall s r, strip_prefix p s = Some r -> s = (p ++ r)%string.
Proof.
  induction p as [|a p IH]; intros s r; simpl.
  - intros [= ->]. reflexivity.
  - destruct s as [|c s]; [discriminate|].
    destruct (Ascii.eqb_spec a c) as [->|]; [|discriminate].
    intros H. rewrite sapp_cons, (IH _ _ H). reflexivity.
Qed.

Lemma strip_prefix_app (p r : string) : strip_prefix p (p ++ r) = Some r.
Proof.
  induction p as [|a p IH]; [reflexivity|].
  rewrite sapp_cons. simpl. rewrite Ascii.eqb_refl. exact IH.
Qed.

Lemma strip_prefix_extend (p : string) :
  forall s x r, strip_prefix p s = Some x ->
                strip_prefix p (s ++ r) = Some (x ++ r)%string.
Proof.
  intros s x r H. rewrite (strip_prefix_sound p s x H), sapp_assoc.
  apply strip_prefix_app.
Qed.

(** A fence at the very start closes at once. *)
Lemma fence_closes (s x : string) : strip_prefix "```" s = Some x -> closes s = true.
Proof.
  intros H. unfold closes.
  rewrite (strip_prefix_sound _ _ _ H) at 1.
  change (lstrip ("```" ++ x)) with ("```" ++ x)%string.
  rewrite strip_prefix_app. reflexivity.
Qed.

Lemma closes_skips_space (c : ascii) (s : string) :
  is_space c = true -> closes (String c s) = closes s.
Proof. intros H. unfold closes. simpl lstrip. rewrite H. reflexivity. Qed.

Lemma lazy_group_unfold (s : string) :
  lazy_group s
  = if closes s then Some EmptyString
    else match s with
         | EmptyString => None
         | String c s' =>
             match lazy_group s' with
             | Some g => Some (String c g)
             | None => None
             end
         end.
Proof. destruct s; reflexivity. Qed.

Lemma lazy_group_empty (s : string) :
  lazy_group s = Some EmptyString -> closes s = true.
Proof.
  rewrite lazy_group_unfold. destruct (closes s); [reflexivity|].
  destruct s as [|c s]; [discriminate|].
  destruct (lazy_group s); discriminate.
Qed.

(** The group is a prefix of what was scanned, and the closing part
    matches right after it. *)
Lemma lazy_group_prefix (s : string) :
  forall g, lazy_group s = Some g ->
            exists r, s = (g ++ r)%string /\ closes r = true.
Proof.
  induction s as [|c s IH]; intros g; rewrite lazy_group_unfold.
  - destruct (closes EmptyString) eqn:C; [|discriminate].
    intros [= <-]. exists EmptyString. split; [reflexivity | exact C].
  - destruct (closes (String c s)) eqn:C.
    + intros [= <-]. exists (String c s). split; [reflexivity | exact C].
    + destruct (lazy_group s) as [g'|] eqn:G; [|discriminate].
      intros [= <-]. destruct (IH g' eq_refl) as (r & -> & Hr).
      exists r. split; [reflexivity | exact Hr].
Qed.

Lemma lazy_group_no_fence (s : string) :
  forall g, lazy_group s = Some g -> has_fence g = false.
Proof.
  induction s as [|c s IH]; intros g; rewrite lazy_group_unfold.
  - destruct (closes EmptyString); [|discriminate]. intros [= <-]. reflexivity.
  - destruct (closes (String c s)) eqn:C; [intros [= <-]; reflexivity|].
    destruct (lazy_group s) as [g'|] eqn:G; [|discriminate].
    intros [= <-].
    destruct (lazy_group_prefix s g' G) as (r & Hs & _).
    change (has_fence (String c g'))
      with (match strip_prefix "```" (String c g') with
            | Some _ => true
            | None => has_fence g'
            end).
    destruct (strip_prefix "```" (String c g')) as [x|] eqn:P;
      [|apply IH; reflexivity].
    pose proof (strip_prefix_extend _ _ x r P) as P'.
    rewrite sapp_cons, <- Hs in P'.
    rewrite (fence_closes _ _ P') in C. discriminate.
Qed.

Lemma lazy_group_last_nonspace (s : string) :
  forall g, lazy_group s = Some g -> last_nonspace g = true.
Proof.
  induction s as [|c s IH]; intros g; rewrite lazy_group_unfold.
  - destruct (closes EmptyString); [|discriminate]. intros [= <-]. reflexivity.
  - destruct (closes (String c s)) eqn:C; [intros [= <-]; reflexivity|].
    destruct (lazy_group s) as [g'|] eqn:G; [|discriminate].
    intros [= <-]. destruct g' as [|c' g''].
    + simpl. destruct (is_space c) eqn:Sc; [|reflexivity].
      rewrite (closes_skips_space c s Sc), (lazy_group_empty s G) in C.
      discriminate.
    + rewrite last_nonspace_skip by discriminate. apply IH. reflexivity.
Qed.

Lemma head_nonspace_lstrip (s : string) : head_nonspace (lstrip s) = true.
Proof.
  induction s as [|c s IH]; [reflexivity|]. simpl.
  destruct (is_space c) eqn:Sc; [exact IH|]. simpl. rewrite Sc. reflexivity.
Qed.

Lemma lstrip_split (s : string) :
  exists ws, all_space ws = true /\ s = (ws ++ lstrip s)%string.
Proof.
  induction s as [|c s (ws & Hws & Hs)]; [exists EmptyString; split; reflexivity|].
  simpl. destruct (is_space c) eqn:Sc.
  - exists (String c ws). split; [simpl; rewrite Sc; exact Hws|].
    rewrite sapp_cons, <- Hs. reflexivity.
  - exists EmptyString. split; reflexivity.
Qed.

Lemma after_opener_unfold (s : string) :
  after_opener s
  = match strip_prefix "```json" s with
    | Some rest => Some rest
    | None => match s with
              | EmptyString => None
              | String _ s' => after_opener s'
              end
    end.
Proof. destruct s; reflexivity. Qed.

Lemma after_opener_sound (s : string) :
  forall rest, after_opener s = Some rest ->
               exists pre, s = (pre ++ "```json" ++ rest)%string.
Proof.
  induction s as [|c s IH]; intros rest; rewrite after_opener_unfold.
  - simpl. discriminate.
  - destruct (strip_prefix "```json" (String c s)) as [x|] eqn:P.
    + intros [= <-]. exists EmptyString. apply (strip_prefix_sound _ _ _ P).
    + intros H. destruct (IH rest H) as (pre & ->).
      exists (String c pre). reflexivity.
Qed.

Lemma not_backtick_no_prefix (c : ascii) (s p : string) :
  is_backtick c = false -> strip_prefix (String backtick p) (String c s) = None.
Proof.
  unfold is_backtick. intros H.
  change (strip_prefix (String backtick p) (String c s))
    with (if Ascii.eqb backtick c then strip_prefix p s else None).
  rewrite Ascii.eqb_sym, H. reflexivity.
Qed.

Lemma after_opener_found (pre rest : string) :
  no_backtick pre = true ->
  after_opener (pre ++ "```json" ++ rest) = Some rest.
Proof.
  induction pre as [|c pre IH]; intros H.
  - rewrite after_opener_unfold.
    change (EmptyString ++ "```json" ++ rest)%string with ("```json" ++ rest)%string.
    rewrite strip_prefix_app. reflexivity.
  - simpl in H. apply andb_true_iff in H. destruct H as [Hc Hp].
    apply negb_true_iff in Hc.
    rewrite sapp_cons, after_opener_unfold.
    change "```json" with (String backtick "``json") at 1.
    rewrite (not_backtick_no_prefix c _ _ Hc). apply IH. exact Hp.
Qed.

Lemma lstrip_all_space (ws s : string) :
  all_space ws = true -> lstrip (ws ++ s) = lstrip s.
Proof.
  induction ws as [|c ws IH]; intros H; [reflexivity|].
  simpl in H. apply andb_true_iff in H. destruct H as [Hc Hw].
  rewrite sapp_cons. simpl. rewrite Hc. apply IH. exact Hw.
Qed.

Lemma closes_after_space (ws post : string) :
  all_space ws = true -> closes (ws ++ "```" ++ post) = true.
Proof.
  intros H. unfold closes. rewrite (lstrip_all_space _ _ H).
  change (lstrip ("```" ++ post)) with ("```" ++ post)%string.
  rewrite strip_prefix_app. reflexivity.
Qed.

(** Before the end of a body without backticks that ends on a
    non-whitespace character, the closing part does not match. *)
Lemma body_does_not_close (b tail : string) :
  b <> EmptyString -> no_backtick b = true -> last_nonspace b = true ->
  closes (b ++ tail) = false.
Proof.
  induction b as [|c b IH]; intros Hne Hb Hl; [congruence|].
  simpl in Hb. apply andb_true_iff in Hb. destruct Hb as [Hc Hb].
  apply negb_true_iff in Hc. rewrite sapp_cons.
  destruct (is_space c) eqn:Sc.
  - rewrite (closes_skips_space c _ Sc).
    destruct b as [|c' b']; [simpl in Hl; rewrite Sc in Hl; discriminate|].
    apply IH; [discriminate | exact Hb|].
    rewrite last_nonspace_skip in Hl by discriminate. exact Hl.
  - unfold closes. simpl lstrip. rewrite Sc.
    change "```" with (String backtick "``").
    rewrite (not_backtick_no_prefix c _ _ Hc). reflexivity.
Qed.

Lemma lazy_group_body (b ws post : string) :
  no_backtick b = true -> last_nonspace b = true -> all_space ws = true ->
  lazy_group (b ++ ws ++ "```" ++ post) = Some b.
Proof.
  induction b as [|c b IH]; intros Hb Hl Hw.
  - change (EmptyString ++ ws ++ "```" ++ post)%string
      with (ws ++ "```" ++ post)%string.
    rewrite lazy_group_unfold, (closes_after_space ws post Hw). reflexivity.
  - rewrite lazy_group_unfold.
    rewrite (body_does_not_close (String c b) _ ltac:(discriminate) Hb Hl).
    rewrite sapp_cons.
    simpl in Hb. apply andb_true_iff in Hb. destruct Hb as [_ Hb].
    rewrite IH; [reflexivity | exact Hb | | exact Hw].
    destruct b as [|c' b']; [reflexivity|].
    rewrite last_nonspace_skip in Hl by discriminate. exact Hl.
Qed.

(** X8: a block written as text without backticks, [```json], whitespace,
    a body without backticks that neither starts nor ends with
    whitespace, whitespace, [```], anything, is read back as that body. *)
Theorem X8_extract_reads_back_a_fenced_block :
  forall pre ws1 body ws2 post : string,
    no_backtick pre = true ->
    all_space ws1 = true ->
    no_backtick body = true ->
    head_nonspace body = true ->
    last_nonspace body = true ->
    all_space ws2 = true ->
    extract_json_from_markdown
      (pre ++ "```json" ++ ws1 ++ body ++ ws2 ++ "```" ++ post)
    = Some body.
Proof.
  intros pre ws1 body ws2 post Hpre Hw1 Hb Hh Hl Hw2.
  unfold extract_json_from_markdown.
  rewrite (after_opener_found pre _ Hpre), (lstrip_all_space ws1 _ Hw1).
  destruct body as [|c b].
  - change (EmptyString ++ ws2 ++ "```" ++ post)%string
      with (ws2 ++ "```" ++ post)%string.
    rewrite (lstrip_all_space ws2 _ Hw2).
    change (lstrip ("```" ++ post)) with ("```" ++ post)%string.
    reflexivity.
  - rewrite lstrip_id by (rewrite sapp_cons; exact Hh).
    apply lazy_group_body; assumption.
Qed.

Lemma X8_extract_reads_back_a_fenced_block_witness :
  extract_json_from_markdown "Answer: ```json
{}
``` done" = Some "{}".
Proof.
  apply (X8_extract_reads_back_a_fenced_block "Answer: " "
" "{}" "
" " done"); reflexivity.
Defined.

Lemma has_fence_unfold (s : string) :
  has_fence s
  = match strip_prefix "```" s with
    | Some _ => true
    | None => match s with
              | EmptyString => false
              | String _ s' => has_fence s'
              end
    end.
Proof. destruct s; reflexivity. Qed.

Lemma has_fence_lazy_group (s : string) :
  has_fence s = true -> exists g, lazy_group s = Some g.
Proof.
  induction s as [|c s IH]; rewrite has_fence_unfold, lazy_group_unfold.
  - simpl. discriminate.
  - destruct (strip_prefix "```" (String c s)) as [x|] eqn:P.
    + intros _. rewrite (fence_closes _ _ P). eexists. reflexivity.
    + intros H. destruct (IH H) as (g & ->).
      destruct (closes (String c s)); eexists; reflexivity.
Qed.

Lemma has_fence_app_r (a b : string) : has_fence b = true -> has_fence (a ++ b) = true.
Proof.
  intros H. induction a as [|c a IH]; [exact H|].
  rewrite sapp_cons, has_fence_unfold.
  destruct (strip_prefix "```" (String c (a ++ b))); [reflexivity | exact IH].
Qed.

Lemma closes_has_fence (s : string) : closes s = true -> has_fence s = true.
Proof.
  unfold closes. intros H.
  destruct (lstrip_split s) as (ws & _ & Hs).
  destruct (strip_prefix "```" (lstrip s)) as [x|] eqn:P; [|discriminate].
  rewrite Hs. apply has_fence_app_r.
  rewrite has_fence_unfold, P. reflexivity.
Qed.

Lemma lazy_group_has_fence (s g : string) :
  lazy_group s = Some g -> has_fence s = true.
Proof.
  intros G. destruct (lazy_group_prefix s g G) as (r & -> & Hr).
  apply has_fence_app_r, closes_has_fence, Hr.
Qed.

Lemma has_fence_lstrip (s : string) : has_fence (lstrip s) = has_fence s.
Proof.
  induction s as [|c s IH]; [reflexivity|].
  simpl lstrip. destruct (is_space c) eqn:Sc; [|reflexivity].
  rewrite IH. rewrite (has_fence_unfold (String c s)).
  destruct (strip_prefix "```" (String c s)) as [x|] eqn:P; [|reflexivity].
  apply strip_prefix_sound in P. injection P as -> _. discriminate Sc.
Qed.

(** X9: nothing is extracted exactly when the text has no [```json], or
    no fence after the first one (an opened block that is never closed). *)
Theorem X9_extract_none_without_closed_block :
  forall text : string,
    extract_json_from_markdown text = None
    <-> match after_opener text with
        | None => True
        | Some rest => has_fence rest = false
        end.
Proof.
  intros text. unfold extract_json_from_markdown.
  destruct (after_opener text) as [rest|]; [|split; auto].
  rewrite <- (has_fence_lstrip rest). split.
  - intros H. destruct (has_fence (lstrip rest)) eqn:F; [|reflexivity].
    destruct (has_fence_lazy_group _ F) as (g & G). congruence.
  - intros F. destruct (lazy_group (lstrip rest)) as [g|] eqn:G; [|reflexivity].
    rewrite (lazy_group_has_fence _ _ G) in F. discriminate.
Qed.
(** *** The extracted block, characterised *)

Lemma closes_closing (s : string) : closes s = true <-> closing s.
Proof.
  split.
  - unfold closes. intros H.
    destruct (lstrip_split s) as (ws & Hws & Hs).
    destruct (strip_prefix "```" (lstrip s)) as [tail|] eqn:P; [|discriminate].
    exists ws, tail. split; [exact Hws|].
    rewrite Hs at 1. rewrite (strip_prefix_sound _ _ _ P). reflexivity.
  - intros (ws & tail & Hws & ->). apply closes_after_space. exact Hws.
Qed.

Lemma not_closing (s : string) : closes s = false <-> ~ closing s.
Proof.
  rewrite <- closes_closing. destruct (closes s); split; congruence.
Qed.

Lemma strip_prefix_within (p : string) :
  forall s r x,
    strip_prefix p (s ++ r) = Some x ->
    (String.length p <= String.length s)%nat ->
    exists x', strip_prefix p s = Some x'.
Proof.
  induction p as [|a p IH]; intros s r x H L.
  - eexists. reflexivity.
  - destruct s as [|c s]; [simpl in L; lia|].
    rewrite sapp_cons in H. simpl in H |- *.
    destruct (Ascii.eqb a c); [|discriminate].
    apply (IH s r x H). simpl in L. lia.
Qed.

Lemma has_opener_unfold (s : string) :
  has_opener s
  = match strip_prefix "```json" s with
    | Some _ => true
    | None => match s with
              | EmptyString => false
              | String _ s' => has_opener s'
              end
    end.
Proof. destruct s; reflexivity. Qed.

Lemma opener_split (pre rest : string) :
  ((pre ++ "```jso") ++ "n" ++ rest)%string = (pre ++ "```json" ++ rest)%string.
Proof. rewrite sapp_assoc. reflexivity. Qed.

(** The opener found is the first of the text. *)
Lemma after_opener_first (s : string) :
  forall rest,
    after_opener s = Some rest ->
    exists pre,
      s = (pre ++ "```json" ++ rest)%string
      /\ has_opener (pre ++ "```jso") = false.
Proof.
  induction s as [|c s IH]; intros rest; rewrite after_opener_unfold.
  - simpl. discriminate.
  - destruct (strip_prefix "```json" (String c s)) as [x|] eqn:P.
    + intros [= <-]. exists EmptyString.
      split; [apply (strip_prefix_sound _ _ _ P) | reflexivity].
    + intros H. destruct (IH rest H) as (pre & -> & Hpre).
      exists (String c pre). split; [reflexivity|].
      rewrite sapp_cons, has_opener_unfold.
      destruct (strip_prefix "```json" (String c (pre ++ "```jso")))
        as [y|] eqn:Q; [|exact Hpre].
      pose proof (strip_prefix_extend _ _ y ("n" ++ rest) Q) as Q'.
      rewrite sapp_cons, opener_split in Q'. congruence.
Qed.

Lemma slength_sapp (a b : string) :
  String.length (a ++ b) = (String.length a + String.length b)%nat.
Proof.
  induction a as [|c a IH]; [reflexivity|]. rewrite sapp_cons. simpl.
  rewrite IH. reflexivity.
Qed.

Lemma after_opener_of_first (pre rest : string) :
  has_opener (pre ++ "```jso") = false ->
  after_opener (pre ++ "```json" ++ rest) = Some rest.
Proof.
  induction pre as [|c pre IH]; intros H; rewrite after_opener_unfold.
  - change (EmptyString ++ "```json" ++ rest)%string
      with ("```json" ++ rest)%string.
    rewrite strip_prefix_app. reflexivity.
  - rewrite sapp_cons in H. rewrite has_opener_unfold in H.
    destruct (strip_prefix "```json" (String c (pre ++ "```jso")))
      as [y|] eqn:Q; [discriminate H|].
    rewrite sapp_cons.
    destruct (strip_prefix "```json" (String c (pre ++ "```json" ++ rest)))
      as [x|] eqn:P; [|exact (IH H)].
    assert (P' : strip_prefix "```json"
                   (String c (pre ++ "```jso") ++ "n" ++ rest) = Some x)
      by (rewrite sapp_cons, opener_split; exact P).
    destruct (strip_prefix_within _ (String c (pre ++ "```jso")) _ _ P')
      as [x' Hx'].
    + cbn [String.length]. rewrite slength_sapp. cbn [String.length]. lia.
    + congruence.
Qed.

(** The lazy group stops at the first place where the closing matches. *)
Lemma lazy_group_first (s : string) :
  forall g,
    lazy_group s = Some g ->
    exists r,
      s = (g ++ r)%string
      /\ closes r = true
      /\ forall a b,
           g = (a ++ b)%string -> b <> EmptyString -> closes (b ++ r) = false.
Proof.
  induction s as [|c s IH]; intros g; rewrite lazy_group_unfold.
  - destruct (closes EmptyString) eqn:C; [|discriminate].
    intros [= <-]. exists EmptyString. split; [reflexivity|]. split; [exact C|].
    intros a b E Hb. destruct a; [|discriminate E].
    exfalso. apply Hb. symmetry. exact E.
  - destruct (closes (String c s)) eqn:C.
    + intros [= <-]. exists (String c s).
      split; [reflexivity|]. split; [exact C|].
      intros a b E Hb. destruct a; [|discriminate E].
      exfalso. apply Hb. symmetry. exact E.
    + destruct (lazy_group s) as [g'|] eqn:G; [|discriminate].
      intros [= <-]. destruct (IH g' eq_refl) as (r & -> & Hr & Hmin).
      exists r. split; [reflexivity|]. split; [exact Hr|].
      intros a b E Hb. destruct a as [|x a].
      * change (EmptyString ++ b)%string with b in E. subst b.
        rewrite sapp_cons. exact C.
      * rewrite sapp_cons in E. injection E as -> E.
        apply (Hmin a b E Hb).
Qed.

Lemma lazy_group_of_first (g r : string) :
  closes r = true ->
  (forall a b,
      g = (a ++ b)%string -> b <> EmptyString -> closes (b ++ r) = false) ->
  lazy_group (g ++ r) = Some g.
Proof.
  intros Hr. induction g as [|c g IH]; intros Hmin.
  - change (EmptyString ++ r)%string with r.
    rewrite lazy_group_unfold, Hr. reflexivity.
  - rewrite lazy_group_unfold.
    rewrite (Hmin EmptyString (String c g) eq_refl ltac:(discriminate)).
    rewrite sapp_cons, IH; [reflexivity|].
    intros a b E Hb. apply (Hmin (String c a) b); [|exact Hb].
    rewrite sapp_cons, E. reflexivity.
Qed.

Lemma lstrip_idempotent (s : string) : lstrip (lstrip s) = lstrip s.
Proof. apply lstrip_id, head_nonspace_lstrip. Qed.

Lemma closes_lstrip (s : string) : closes (lstrip s) = closes s.
Proof. unfold closes. rewrite lstrip_idempotent. reflexivity. Qed.

(** X7: [extract_json_from_markdown] returns [g] exactly when [g] is the
    first block of the text: what stands after the first [```json] of the
    text and the whitespace following it, up to the first place where
    optional whitespace and a fence follow. What it returns holds no
    fence and neither starts nor ends with whitespace. *)
Theorem X7_extracted_block_is_trimmed :
  forall text g : string,
    (extract_json_from_markdown text = Some g <-> first_block text g)
    /\ (extract_json_from_markdown text = Some g ->
        has_fence g = false
        /\ head_nonspace g = true
        /\ last_nonspace g = true).
Proof.
  intros text g.
  assert (Hhead : extract_json_from_markdown text = Some g ->
                  head_nonspace g = true).
  { unfold extract_json_from_markdown.
    destruct (after_opener text) as [rest|]; [|discriminate].
    intros G. destruct (lazy_group_prefix _ g G) as (post & Hpost & _).
    pose proof (head_nonspace_lstrip rest) as Hh. rewrite Hpost in Hh.
    destruct g; [reflexivity | exact Hh]. }
  split; [split|].
  - intros H. pose proof (Hhead H) as Hh. revert H.
    unfold extract_json_from_markdown.
    destruct (after_opener text) as [rest|] eqn:A; [|discriminate].
    intros G.
    destruct (after_opener_first text rest A) as (pre & -> & Hpre).
    destruct (lstrip_split rest) as (ws & Hws & Hrest).
    destruct (lazy_group_first _ g G) as (post & Hpost & Hc & Hmin).
    exists pre, ws, post.
    split; [rewrite Hrest at 1; rewrite Hpost; reflexivity|].
    split; [exact Hpre|]. split; [exact Hws|]. split; [exact Hh|].
    split; [apply closes_closing; exact Hc|].
    intros a b E Hb. apply not_closing. apply (Hmin a b E Hb).
  - intros (pre & ws & post & -> & Hpre & Hws & Hh & Hc & Hmin).
    apply closes_closing in Hc.
    unfold extract_json_from_markdown.
    rewrite (after_opener_of_first pre _ Hpre), (lstrip_all_space ws _ Hws).
    destruct g as [|c g].
    + change (EmptyString ++ post)%string with post.
      rewrite lazy_group_unfold, closes_lstrip, Hc. reflexivity.
    + rewrite lstrip_id by (rewrite sapp_cons; exact Hh).
      apply lazy_group_of_first; [exact Hc|].
      intros a b E Hb. apply not_closing. apply (Hmin a b E Hb).
  - intros H. split; [|split].
    + revert H. unfold extract_json_from_markdown.
      destruct (after_opener text) as [rest|]; [|discriminate].
      apply lazy_group_no_fence.
    + apply Hhead. exact H.
    + revert H. unfold extract_json_from_markdown.
      destruct (after_opener text) as [rest|]; [|discriminate].
      apply lazy_group_last_nonspace.
Qed.

(** Two blocks: the first is returned, and the second is not the first
    block of the text. *)
Lemma X7_extracted_block_is_trimmed_witness :
  first_block "```json a ``` ```json b ```" "a"
  /\ has_fence "a" = false
  /\ ~ first_block "```json a ``` ```json b ```" "b".
Proof.
  destruct (X7_extracted_block_is_trimmed "```json a ``` ```json b ```" "a")
    as ([Hto _] & Hshape).
  destruct (X7_extracted_block_is_trimmed "```json a ``` ```json b ```" "b")
    as ([_ Hfrom] & _).
  assert (E : extract_json_from_markdown "```json a ``` ```json b ```" = Some "a")
    by (vm_compute; reflexivity).
  split; [exact (Hto E)|]. split; [apply (Hshape E)|].
  intros H. rewrite (Hfrom H) in E. discriminate E.
Defined.
End Extract.

(** ** The rate limiter over many calls *)

Section LimiterRuns.
Import RateLimiter RateSpec RateRuns.

Lemma is_allowed_same_view (c : string) (a b : t) (now : Z) :
  same_view c a b ->
  fst (is_allowed a now c) = fst (is_allowed b now c)
  /\ same_view c (snd (is_allowed a now c)) (snd (is_allowed b now c)).
Proof.
  intros (Ht & Hm & Hw).
  destruct (is_allowed_timestamps a now c) as (Fa & Ta & Ma & Wa & _).
  destruct (is_allowed_timestamps b now c) as (Fb & Tb & Mb & Wb & _).
  cbv zeta in *. rewrite Ht, Hm, Hw in Fa, Ta.
  split; [congruence|]. repeat split; congruence.
Qed.

Lemma is_allowed_other_view (c c' : string) (a : t) (now : Z) :
  c' <> c -> same_view c (snd (is_allowed a now c')) a.
Proof.
  intros Hne.
  destruct (is_allowed_timestamps a now c') as (_ & _ & Ma & Wa & Oa).
  cbv zeta in *. repeat split; [apply Oa; exact Hne | exact Ma | exact Wa].
Qed.

Lemma serve_cons (self : t) (now : Z) (c : string) (rest : list (Z * string)) :
  serve self ((now, c) :: rest)
  = (fst (is_allowed self now c) :: fst (serve (snd (is_allowed self now c)) rest),
     snd (serve (snd (is_allowed self now c)) rest)).
Proof.
  simpl. destruct (is_allowed self now c) as [ok self']. simpl.
  destruct (serve self' rest) as [oks self'']. reflexivity.
Qed.

Lemma admit_each_snd_cons (self : t) (c : string) (now : Z) (rest : list Z) :
  snd (admit_each self c (now :: rest))
  = snd (admit_each (snd (is_allowed self now c)) c rest).
Proof.
  simpl. destruct (is_allowed self now c) as [ok self']. simpl.
  destruct (admit_each self' c rest) as [oks self'']. reflexivity.
Qed.

Lemma serve_per_client (c : string) (calls : list (Z * string)) :
  forall a b : t,
    same_view c a b ->
    answers_for c calls (fst (serve a calls))
    = fst (admit_each b c (times_for c calls))
    /\ same_view c (snd (serve a calls)) (snd (admit_each b c (times_for c calls))).
Proof.
  induction calls as [|[now c'] rest IH]; intros a b V.
  - simpl. split; [reflexivity | exact V].
  - rewrite serve_cons. cbn [fst snd answers_for times_for].
    destruct (decide (c' = c)) as [->|Hne].
    + destruct (is_allowed_same_view c a b now V) as (F & V').
      rewrite admit_each_cons, admit_each_snd_cons.
      destruct (IH _ _ V') as (IH1 & IH2).
      split; [rewrite F, IH1; reflexivity | exact IH2].
    + apply IH. destruct (is_allowed_other_view c c' a now Hne) as (T & M & W).
      destruct V as (T' & M' & W'). repeat split; congruence.
Qed.

(** X10: clients do not interfere. In any interleaving of calls, the
    answers a client gets, and the timestamps kept for it at the end, are
    those of its own calls alone at their times. *)
Theorem X10_clients_are_limited_independently :
  forall (self : t) (calls : list (Z * string)) (client_id : string),
    answers_for client_id calls (fst (serve self calls))
    = fst (admit_each self client_id (times_for client_id calls))
    /\ timestamps (snd (serve self calls)) client_id
       = timestamps (snd (admit_each self client_id (times_for client_id calls)))
                    client_id.
Proof.
  intros self calls c.
  destruct (serve_per_client c calls self self) as (A & T & _).
  - repeat split.
  - split; [exact A | exact T].
Qed.

Lemma admit_each_reachable (self0 self : t) (c : string) (times : list Z) :
  reachable self0 self -> reachable self0 (snd (admit_each self c times)).
Proof.
  revert self. induction times as [|now rest IH]; intros self R; [exact R|].
  rewrite admit_each_snd_cons. apply IH. apply reach_call. exact R.
Qed.

Lemma filter_window_later (w t0 now : Z) (l : list Z) :
  t0 <= now ->
  filter (fun ts => now - ts < w) (filter (fun ts => t0 - ts < w) l)
  = filter (fun ts => now - ts < w) l.
Proof.
  intros H. induction l as [|x l IH]; [reflexivity|].
  destruct (decide (t0 - x < w)) as [Hx|Hx].
  - rewrite (filter_cons_True (fun ts => t0 - ts < w)) by exact Hx.
    destruct (decide (now - x < w)) as [Hy|Hy].
    + rewrite !(filter_cons_True (fun ts => now - ts < w)) by exact Hy.
      rewrite IH. reflexivity.
    + rewrite !(filter_cons_False (fun ts => now - ts < w)) by exact Hy.
      exact IH.
  - rewrite (filter_cons_False (fun ts => t0 - ts < w)) by exact Hx.
    rewrite (filter_cons_False (fun ts => now - ts < w)) by lia.
    exact IH.
Qed.

(** With a clock that never goes back, what is kept for a client is what
    was admitted and is still inside the window of the last call. *)
Lemma admit_each_keeps_window (c : string) (times : list Z) :
  forall (self : t) (t0 : Z) (prev : list Z),
    0 < window self ->
    ascending t0 times ->
    timestamps self c = filter (fun ts => t0 - ts < window self) prev ->
    timestamps (snd (admit_each self c times)) c
    = filter (fun ts => last_time t0 times - ts < window self)
             (prev ++ admitted times (fst (admit_each self c times))).
Proof.
  induction times as [|now rest IH]; intros self t0 prev Hw Ha Ht.
  - simpl. rewrite app_nil_r. exact Ht.
  - destruct Ha as [Hle Ha].
    rewrite admit_each_cons, admit_each_snd_cons.
    destruct (is_allowed_timestamps self now c) as (F & T & _ & W & _).
    cbv zeta in F, T. rewrite Ht, (filter_window_later _ _ _ _ Hle) in F, T.
    cbn [last_time admitted].
    destruct (_ >=? _) in F, T; cbn [negb] in F; rewrite F.
    + rewrite (IH _ now prev); rewrite ?W; auto.
    + rewrite (IH _ now (prev ++ [now])); rewrite ?W; auto.
      * rewrite <- app_assoc. reflexivity.
      * rewrite filter_app, T. f_equal.
        rewrite filter_cons_True by lia. reflexivity.
Qed.

(** X11: the limit holds over the sliding window. For a server started
    with a positive window and a non-negative limit and a clock that never
    goes back, after any calls of a client the kept timestamps are exactly
    its admitted calls less than a window before the last call, and there
    are at most [max_requests] of them. *)
Theorem X11_at_most_max_requests_admitted_per_window :
  forall (max_requests window_seconds : Z) (client_id : string)
         (t0 : Z) (times : list Z),
    0 <= max_requests ->
    0 < window_seconds ->
    ascending t0 times ->
    let run := admit_each (init max_requests window_seconds) client_id times in
    let recent :=
      filter (fun ts => last_time t0 times - ts < seconds window_seconds)
             (admitted times (fst run)) in
    timestamps (snd run) client_id = recent
    /\ Z.of_nat (length recent) <= max_requests.
Proof.
  intros m ws c t0 times Hm Hw Ha run recent.
  assert (E : timestamps (snd run) c = recent).
  { subst run recent.
    rewrite (admit_each_keeps_window c times (init m ws) t0 []).
    - reflexivity.
    - simpl. lia.
    - exact Ha.
    - reflexivity. }
  split; [exact E|]. rewrite <- E.
  destruct (reachable_invariant (init m ws) (snd run)) as (_ & _ & L).
  - exact Hm.
  - intros c'. simpl. exact Hm.
  - apply admit_each_reachable, reach_init.
  - apply L.
Qed.

Lemma X11_at_most_max_requests_admitted_per_window_witness :
  Z.of_nat (length (filter (fun ts => seconds 70 - ts < seconds 60)
                      (admitted [seconds 0; seconds 30; seconds 50; seconds 70]
                         (fst (admit_each (init 2 60) "10.0.0.7"
                                 [seconds 0; seconds 30; seconds 50; seconds 70])))))
  <= 2.
Proof.
  destruct (X11_at_most_max_requests_admitted_per_window 2 60 "10.0.0.7" 0
              [seconds 0; seconds 30; seconds 50; seconds 70]) as (_ & H).
  - lia.
  - lia.
  - vm_compute. repeat split; congruence.
  - exact H.
Defined.

Lemma dom_is_allowed (self : t) (now : Z) (c : string) :
  dom (requests (snd (is_allowed self now c))) = {[ c ]} ∪ dom (requests self).
Proof.
  rewrite is_allowed_unfold. cbv zeta.
  destruct (_ >=? _); simpl; apply dom_insert_L.
Qed.

(** X12: the limiter never forgets a client. After any calls, [requests]
    has a key for every client that has called since the start, besides
    the keys it had, also for clients whose timestamps have all expired. *)
Theorem X12_requests_keeps_every_caller :
  forall (self : t) (calls : list (Z * string)),
    dom (requests (snd (serve self calls)))
    = callers calls ∪ dom (requests self).
Proof.
  intros self calls. revert self.
  induction calls as [|[now c] rest IH]; intros self.
  - unfold callers. simpl. rewrite (left_id_L ∅ (∪)). reflexivity.
  - rewrite serve_cons. cbn [snd]. rewrite IH, dom_is_allowed.
    unfold callers. simpl.
    rewrite (assoc_L (∪)), (comm_L (∪) (list_to_set (List.map snd rest)) {[ c ]}).
    reflexivity.
Qed.

(** X13: the message of a refusal names the seconds field of the window,
    [window_seconds mod 86400], not the window: for every window a
    [timedelta] can hold, it is the configured number of seconds exactly
    when that is below one day. *)
Theorem X13_refusal_names_window_modulo_one_day :
  forall max_requests window_seconds : Z,
    - 86400 * 999999999 <= window_seconds < 86400 * 1000000000 ->
    rate_limit_detail (init max_requests window_seconds)
    = ("Rate limit exceeded. Max " ++ pretty max_requests ++ " requests per "
       ++ pretty (window_seconds mod 86400) ++ " seconds.")%string
    /\ (window_seconds_field (init max_requests window_seconds) = window_seconds
        <-> 0 <= window_seconds < 86400).
Proof.
  intros m ws _.
  assert (E : window_seconds_field (init m ws) = ws mod 86400).
  { unfold window_seconds_field, init. cbn [window].
    rewrite Z.div_mul by lia. reflexivity. }
  split.
  - unfold rate_limit_detail. rewrite E. reflexivity.
  - rewrite E. split.
    + intros H. rewrite <- H. apply Z.mod_pos_bound. lia.
    + intros H. apply Z.mod_small. exact H.
Qed.

Lemma X13_refusal_names_window_modulo_one_day_witness :
  rate_limit_detail (init 10 86460)
  = "Rate limit exceeded. Max 10 requests per 60 seconds.".
Proof.
  destruct (X13_refusal_names_window_modulo_one_day 10 86460) as (H & _).
  - lia.
  - rewrite H. vm_compute. reflexivity.
Defined.
End LimiterRuns.


(** ** The orchestrator and the handlers, further *)

Section Serving.
Context {World : Type} (env : Collaborators World) (settings : Settings.t).

(** A run of [process] that returns: the values the stages gave and how
    the result is made of them. *)
Lemma process_returns (self : Pipeline.t) (query : string)
    (st st' : State World) (r : PipelineResult.t) :
  Pipeline.process env settings self query st = (Ok r, st') ->
  exists cls docs gen qr jd,
    classified env query st = Ok cls
    /\ (Classification.needs_context cls = false -> docs = [])
    /\ QualityChecker.aggregate (python env) (QualityCheckResult.checks qr) = Ok qr
    /\ List.map QualityCheck.check_name (QualityCheckResult.checks qr)
       = criterion_names
    /\ AnswerJudge.judge (Pipeline.judge self) qr (Classification.confidence cls)
       = Ok jd
    /\ JudgeDecision.quality_score jd = QualityCheckResult.overall_score qr
    /\ rate_limiter st' = rate_limiter st
    /\ PipelineResult.query r = query
    /\ PipelineResult.classification r = cls
    /\ PipelineResult.retrieved_docs r = docs
    /\ PipelineResult.answer r = GeneratedAnswer.answer gen
    /\ PipelineResult.quality_checks r = qr
    /\ PipelineResult.judge_decision r = jd
    /\ PipelineResult.meta_sources_used (PipelineResult.metadata r)
       = GeneratedAnswer.sources_used gen
    /\ PipelineResult.generator_confidence (PipelineResult.metadata r)
       = GeneratedAnswer.confidence gen.
Proof.
  unfold Pipeline.process. intros H.
  destruct (time_run env st) as (t0 & st0 & E0 & L0 & W0).
  destruct (classify_run env query st0) as (st1 & E1 & L1).
  assert (Hcls : fst (llm_classify env query (world st0))
                 = classified env query st)
    by (unfold classified; rewrite W0; reflexivity).
  rewrite Hcls in E1.
  unfold bind at 1 in H. rewrite E0 in H. unfold bind at 1 in H. rewrite E1 in H.
  pose proof (logged_trans _ _ _ _ _ L0 L1) as L01.
  destruct (classified env query st) as [cls|e] eqn:C; [|discriminate H].
  destruct (retrieved_run env settings query cls st1)
    as (rd & st2 & E2 & L2 & Hd).
  pose proof (logged_trans _ _ _ _ _ L01 L2) as L02.
  unfold bind at 1 in H. fold (retrieved env settings query cls) in H.
  rewrite E2 in H.
  destruct rd as [docs|e]; [|discriminate H].
  assert (Hdocs : Classification.needs_context cls = false -> docs = []).
  { intros NC. specialize (Hd NC). congruence. }
  destruct (generate_run env query cls docs st2) as (rg & st3 & E3 & L3).
  pose proof (logged_trans _ _ _ _ _ L02 L3) as L03.
  unfold bind at 1 in H. rewrite E3 in H.
  destruct rg as [gen|e]; [|discriminate H].
  destruct (check_quality_run env query (GeneratedAnswer.answer gen) docs st3)
    as (rq & st4 & E4 & L4 & Hq).
  pose proof (logged_trans _ _ _ _ _ L03 L4) as L04.
  unfold bind at 1 in H. rewrite E4 in H.
  destruct rq as [qr|e]; [|discriminate H].
  destruct (Hq qr eq_refl) as [Hagg Hnames].
  destruct (judge_fired (Pipeline.judge self) qr (Classification.confidence cls))
    as (rl & _ & Hj).
  unfold bind, emit, lift_res, ask_total, ret in H. simpl in H. rewrite Hj in H.
  destruct (time_time env (world st4)) as [t1 w5].
  injection H as <- <-.
  eexists cls, docs, gen, qr, _.
  split; [reflexivity|]. split; [exact Hdocs|]. split; [exact Hagg|].
  split; [exact Hnames|]. split; [exact Hj|]. split; [reflexivity|].
  split; [simpl; apply L04|].
  repeat split.
Qed.

(** X14: [process] fails exactly when a stage fails, and then with the
    stage's own exception and in the state the stage left: timing,
    judging and building the result never fail. *)
Theorem X14_process_fails_only_where_a_stage_fails :
  forall (self : Pipeline.t) (query : string) (st st' : State World) (e : exn),
    Pipeline.process env settings self query st = (Raise e, st')
    <-> exists stage, stage_fails env settings query st stage e st'.
Proof.
  intros self query st st' e. split.
  - intros H.
    destruct (process_run env settings self query st) as (res & st1 & evs & E & _ & R).
    rewrite E in H. injection H as -> ->.
    inversion R; subst; eexists; eassumption.
  - intros [stage H].
    exact (stage_fails_aborts env settings self query st st' stage e H).
Qed.

(** X15: the parts of a result agree with one another. Its judge decision
    is the judgement of the quality result and of the classification
    confidence it carries, and repeats the overall score; its quality
    result is the aggregate, on the interpreter of the run, of its own
    five checks, named after the five criteria in order; it echoes the
    query; without [needs_context] it carries no document; and the run
    leaves the rate limiter alone. *)
Theorem X15_result_parts_agree :
  forall (self : Pipeline.t) (query : string) (st st' : State World)
         (r : PipelineResult.t),
    Pipeline.process env settings self query st = (Ok r, st') ->
    let qr := PipelineResult.quality_checks r in
    let cls := PipelineResult.classification r in
    PipelineResult.query r = query
    /\ classified env query st = Ok cls
    /\ AnswerJudge.judge (Pipeline.judge self) qr (Classification.confidence cls)
       = Ok (PipelineResult.judge_decision r)
    /\ JudgeDecision.quality_score (PipelineResult.judge_decision r)
       = QualityCheckResult.overall_score qr
    /\ QualityChecker.aggregate (python env) (QualityCheckResult.checks qr) = Ok qr
    /\ List.map QualityCheck.check_name (QualityCheckResult.checks qr)
       = ["relevance"; "completeness"; "accuracy"; "clarity"; "professionalism"]
    /\ (Classification.needs_context cls = false ->
        PipelineResult.retrieved_docs r = [])
    /\ rate_limiter st' = rate_limiter st.
Proof.
  intros self query st st' r H qr cls.
  destruct (process_returns self query st st' r H)
    as (cls' & docs & gen & qr' & jd & C & Hd & Hagg & Hn & Hj & Hs & Hr
        & Eq & Ec & Ed & _ & Eqr & Ej & _).
  subst qr cls. rewrite Ec, Eqr, Ed, Ej.
  repeat (split; [assumption|]). exact Hr.
Qed.

(** A handler's first stage reads the sanitized text. *)
Lemma handler_first_stage (ep : Main.Endpoint) (pipeline : Pipeline.t)
    (request : Main.Request) (query : UserQuery.t) (st st1 : State World) :
  Main.check env request st = (Ok tt, st1) ->
  let clean := Utils.sanitize_input (UserQuery.text query) in
  exists res st' first rest,
    Main.handler env settings ep pipeline request query st = (res, st')
    /\ logged st1 st' (first :: rest)
    /\ first = match ep with
               | Main.EpRetrieve => EvRetrieve clean
               | _ => EvClassify clean
               end.
Proof.
  intros H clean.
  destruct ep; simpl;
    unfold Main.process_query, Main.classify_only, Main.retrieve_only;
    unfold bind at 1; rewrite H; unfold try_except, bind; fold clean.
  - destruct (process_run env settings pipeline clean st1)
      as (res & st' & evs & E & L & R).
    rewrite E.
    assert (Hev : exists rest, evs = EvClassify clean :: rest)
      by (inversion R; subst; eexists; reflexivity).
    destruct Hev as [rest ->].
    destruct res as [r|e]; eexists _, st', _, rest;
      (split; [reflexivity|]); split; [exact L | reflexivity | exact L | reflexivity].
  - destruct (classify_run env clean st1) as (st' & E & L).
    rewrite E.
    destruct (fst (llm_classify env clean (world st1))) as [r|e];
      eexists _, st', _, [];
      (split; [reflexivity|]); split; [exact L | reflexivity | exact L | reflexivity].
  - destruct (retrieve_run env settings clean None st1) as (res & st' & E & L).
    rewrite E.
    destruct res as [r|e]; eexists _, st', _, [];
      (split; [reflexivity|]); split; [exact L | reflexivity | exact L | reflexivity].
Qed.


(** X17: the two single-stage endpoints. An admitted [/classify] calls
    the classifier once, on the sanitized text, and returns its
    classification or status 500 with ["Classification error: "] and the
    message; an admitted [/retrieve] asks the vector store once for
    [retrieval_top_k] documents for the sanitized text and returns them
    with that text, not the raw one, or status 500 with
    ["Retrieval error: "]. *)
Theorem X17_single_stage_endpoints :
  forall (pipeline : Pipeline.t) (request : Main.Request) (query : UserQuery.t)
         (st st1 : State World),
    Main.check env request st = (Ok tt, st1) ->
    let clean := Utils.sanitize_input (UserQuery.text query) in
    (exists st',
        Main.classify_only env pipeline request query st
        = (match fst (llm_classify env clean (world st1)) with
           | Ok cls => Ok (Main.ClassifyBody cls)
           | Raise e =>
               Raise (HTTPException 500 ("Classification error: " ++ exn_str e))
           end, st')
        /\ logged st1 st' [EvClassify clean]
        /\ world st' = snd (llm_classify env clean (world st1)))
    /\ (exists st',
           Main.retrieve_only env settings pipeline request query st
           = (match fst (similarity_search env clean
                           (Settings.retrieval_top_k settings) (world st1)) with
              | Ok docs => Ok (Main.RetrieveBody clean docs)
              | Raise e =>
                  Raise (HTTPException 500 ("Retrieval error: " ++ exn_str e))
              end, st')
           /\ logged st1 st' [EvRetrieve clean]
           /\ world st' = snd (similarity_search env clean
                                 (Settings.retrieval_top_k settings) (world st1))).
Proof.
  intros pipeline request query st st1 H clean. split.
  - unfold Main.classify_only. unfold bind at 1. rewrite H.
    fold clean. unfold classify.
    unfold try_except, bind, emit, ask, ret, raise. simpl.
    destruct (llm_classify env clean (world st1)) as [[cls|e] w]; simpl;
      eexists; (split; [reflexivity|]); split; try reflexivity;
      split; reflexivity.
  - unfold Main.retrieve_only. unfold bind at 1. rewrite H.
    fold clean. unfold retrieve.
    unfold try_except, bind, emit, ask, ret, raise. simpl.
    destruct (similarity_search env clean (Settings.retrieval_top_k settings)
                (world st1)) as [[docs|e] w]; simpl;
      eexists; (split; [reflexivity|]); split; try reflexivity;
      split; reflexivity.
Qed.
End Serving.

Lemma X15_result_parts_agree_witness :
  exists r st',
    Pipeline.process (Double.healthy true) Settings.default Double.pipeline
      "What are your business hours?" Double.start = (Ok r, st')
    /\ AnswerJudge.judge (Pipeline.judge Double.pipeline)
         (PipelineResult.quality_checks r)
         (Classification.confidence (PipelineResult.classification r))
       = Ok (PipelineResult.judge_decision r).
Proof.
  destruct (Pipeline.process (Double.healthy true) Settings.default Double.pipeline
              "What are your business hours?" Double.start)
    as [[r|e] st'] eqn:E; [|vm_compute in E; discriminate E].
  exists r, st'. split; [reflexivity|].
  apply (X15_result_parts_agree (Double.healthy true) Settings.default
           Double.pipeline "What are your business hours?" Double.start st' r E).
Defined.

Lemma X17_single_stage_endpoints_witness :
  fst (Main.retrieve_only (Double.healthy true) Settings.default Double.pipeline
         Double.request
         (Double.user_query "  What are   your <b>business</b> hours? ")
         Double.start)
  = Ok (Main.RetrieveBody "What are your business hours?" Double.docs).
Proof.
  set (q := Double.user_query "  What are   your <b>business</b> hours? ").
  assert (Hc : Main.check (Double.healthy true) Double.request Double.start
               = (Ok tt, snd (Main.check (Double.healthy true) Double.request
                                Double.start)))
    by (vm_compute; reflexivity).
  destruct (X17_single_stage_endpoints (Double.healthy true) Settings.default
              Double.pipeline Double.request q Double.start _ Hc)
    as (_ & st' & E & _).
  rewrite E. vm_compute. reflexivity.
Defined.

(** ** src/answer_judge.py: what a verdict tells *)

Section Verdicts.
Import PyNum JudgeSpec.

Lemma SFleb_finite_lower (f : spec_float) (m1 m2 : positive) (e : Z) :
  (m1 <= m2)%positive ->
  SFleb (S754_finite false m2 e) f = true ->
  SFleb (S754_finite false m1 e) f = true.
Proof.
  intros Hm. unfold SFleb.
  destruct f as [s|s| |s m e']; simpl; try congruence.
  destruct s; try congruence.
  destruct (e ?= e'); try congruence.
  change (Pos.compare_cont Eq m2 m) with (Pos.compare m2 m).
  change (Pos.compare_cont Eq m1 m) with (Pos.compare m1 m).
  destruct (Pos.compare_spec m2 m); try discriminate;
    destruct (Pos.compare_spec m1 m); try reflexivity; lia.
Qed.

(** A confidence of at least 0.8 is at least 0.6. *)
Lemma float_ge_08_06 (cc : float) :
  float_ge cc 0.8%float = true -> float_ge cc 0.6%float = true.
Proof.
  unfold float_ge. rewrite !leb_spec.
  replace (Prim2SF 0.8%float)
    with (S754_finite false 7205759403792794 (-53)) by (vm_compute; reflexivity).
  replace (Prim2SF 0.6%float)
    with (S754_finite false 5404319552844595 (-53)) by (vm_compute; reflexivity).
  apply SFleb_finite_lower. lia.
Qed.

(** At or above an integer means at or above every smaller one. *)
Lemma float_ge_int_lower (x : float) (n n' : Z) :
  n <= n' -> float_ge_int x n' = true -> float_ge_int x n = true.
Proof.
  intros Hle H.
  destruct (float_ge_int x n) eqn:G; [reflexivity|].
  destruct (float_lt_int x n) eqn:L.
  - rewrite (float_lt_int_mono x n n' L Hle) in H. discriminate.
  - unfold float_ge_int, float_lt_int in *.
    assert (N : compare_float_int x n = None)
      by (destruct (compare_float_int x n) as [[ | | ]|]; congruence).
    unfold compare_float_int in *.
    destruct (Prim2SF x); try discriminate N. discriminate H.
Qed.

(** Neither at or above [n] nor below it: then not at or above anything. *)
Lemma float_int_unordered (x : float) (n n' : Z) :
  float_ge_int x n = false -> float_lt_int x n = false ->
  float_ge_int x n' = false.
Proof.
  unfold float_ge_int, float_lt_int. intros G L.
  assert (N : compare_float_int x n = None)
    by (destruct (compare_float_int x n) as [[ | | ]|]; congruence).
  unfold compare_float_int in *.
  destruct (Prim2SF x); try discriminate N. reflexivity.
Qed.

Lemma fired_accept (th : Z) (s : float) (p : bool) (cc : float) (r : rule) :
  fired th s p cc = Some r -> verdict r = accept ->
  guard th s p cc R1 = true \/ guard th s p cc R2 = true.
Proof.
  unfold fired, rule_order, first_match.
  destruct (guard th s p cc R1) eqn:G1; [left; reflexivity|].
  destruct (guard th s p cc R2) eqn:G2; [right; reflexivity|].
  destruct (guard th s p cc R3); [intros [= <-]; discriminate|].
  destruct (guard th s p cc R4); [intros [= <-]; discriminate|].
  intros [= <-]. discriminate.
Qed.

Lemma fired_reject (th : Z) (s : float) (p : bool) (cc : float) (r : rule) :
  fired th s p cc = Some r -> verdict r = reject ->
  guard th s p cc R2 = false /\ guard th s p cc R3 = false /\ p = true.
Proof.
  unfold fired, rule_order, first_match.
  destruct (guard th s p cc R1); [intros [= <-]; discriminate|].
  destruct (guard th s p cc R2); [intros [= <-]; discriminate|].
  destruct (guard th s p cc R3); [intros [= <-]; discriminate|].
  destruct (guard th s p cc R4) eqn:G4; [intros [= <-]; discriminate|].
  intros _ _. simpl in G4. apply negb_false_iff in G4. auto.
Qed.

Lemma judge_decision_fired (self : AnswerJudge.t) (qr : QualityCheckResult.t)
    (cc : float) (d : JudgeDecision.t) :
  AnswerJudge.judge self qr cc = Ok d ->
  exists r,
    fired (AnswerJudge.threshold self) (QualityCheckResult.overall_score qr)
          (QualityCheckResult.passed_all qr) cc = Some r
    /\ JudgeDecision.decision d = verdict r.
Proof.
  intros H. destruct (judge_fired self qr cc) as (r & F & J).
  rewrite J in H. injection H as <-. exists r. split; [exact F | reflexivity].
Qed.

(** X18: an answer is accepted only with a classification confidence of
    at least 0.6 and a score of at least the smaller of 90 and the
    threshold; so with a threshold of at most 90, only at or above the
    threshold. *)
Theorem X18_accept_needs_confidence_and_score :
  forall (self : AnswerJudge.t) (qr : QualityCheckResult.t) (cc : float)
         (d : JudgeDecision.t),
    AnswerJudge.judge self qr cc = Ok d ->
    JudgeDecision.decision d = accept ->
    float_ge cc 0.6%float = true
    /\ float_ge_int (QualityCheckResult.overall_score qr)
         (Z.min 90 (AnswerJudge.threshold self)) = true.
Proof.
  intros self qr cc d H Hd.
  destruct (judge_decision_fired self qr cc d H) as (r & F & V).
  rewrite V in Hd.
  destruct (fired_accept _ _ _ _ r F Hd) as [G|G];
    simpl in G; apply andb_true_iff in G; destruct G as [Gs Gc].
  - split; [apply float_ge_08_06; exact Gc|].
    apply (float_ge_int_lower _ _ 90); [lia | exact Gs].
  - split; [exact Gc|].
    apply (float_ge_int_lower _ _ (AnswerJudge.threshold self)); [lia | exact Gs].
Qed.

Lemma X18_accept_needs_confidence_and_score_witness :
  float_ge 0.75%float 0.6%float = true
  /\ float_ge_int 85%float (Z.min 90 (AnswerJudge.threshold default_judge)) = true.
Proof.
  destruct (AnswerJudge.judge default_judge (quality 85 true) 0.75%float)
    as [d|e] eqn:E; [|vm_compute in E; discriminate E].
  apply (X18_accept_needs_confidence_and_score default_judge (quality 85 true)
           0.75%float d E).
  vm_compute in E. injection E as <-. reflexivity.
Defined.

(** X19: [reject] is given only to answers that passed every check: a
    failed check leads at worst to manual review. A rejected answer is
    also outside rules 2 and 3, and when the classification confidence is
    at least 0.6 its score is not 50 or more. *)
Theorem X19_reject_only_when_all_checks_passed :
  forall (self : AnswerJudge.t) (qr : QualityCheckResult.t) (cc : float)
         (d : JudgeDecision.t),
    AnswerJudge.judge self qr cc = Ok d ->
    JudgeDecision.decision d = reject ->
    let s := QualityCheckResult.overall_score qr in
    let th := AnswerJudge.threshold self in
    QualityCheckResult.passed_all qr = true
    /\ float_ge_int s th && float_ge cc 0.6%float = false
    /\ float_ge_int s 50 && float_lt_int s th = false
    /\ (float_ge cc 0.6%float = true -> float_ge_int s 50 = false).
Proof.
  intros self qr cc d H Hd s th.
  destruct (judge_decision_fired self qr cc d H) as (r & F & V).
  rewrite V in Hd.
  destruct (fired_reject _ _ _ _ r F Hd) as (G2 & G3 & P).
  simpl in G2, G3. fold s th in G2, G3.
  split; [exact P|]. split; [exact G2|]. split; [exact G3|].
  intros Hc. rewrite Hc, andb_true_r in G2.
  destruct (float_ge_int s 50) eqn:G50; [|reflexivity].
  simpl in G3.
  rewrite (float_int_unordered s th 50 G2 G3) in G50. discriminate.
Qed.

Lemma X19_reject_only_when_all_checks_passed_witness :
  float_ge_int 40%float 50 = false.
Proof.
  destruct (AnswerJudge.judge default_judge (quality 40 true) 0.9%float)
    as [d|e] eqn:E; [|vm_compute in E; discriminate E].
  apply (X19_reject_only_when_all_checks_passed default_judge (quality 40 true)
           0.9%float d E).
  - vm_compute in E. injection E as <-. reflexivity.
  - reflexivity.
Defined.
End Verdicts.

(** ** Texts that sanitize to nothing *)

Section SanitizeEmpty.
Import Utils SanitizeSpec TextSpec.

Lemma collapse_empty (s : string) :
  collapse false false s = EmptyString <-> all_space s = true.
Proof.
  induction s as [|c s IH]; simpl; [split; reflexivity|].
  destruct (is_space c); simpl.
  - rewrite collapse_unstarted. exact IH.
  - split; discriminate.
Qed.

(** X20: [sanitize_input] returns the empty string exactly for the texts
    that are nothing but tags and whitespace. *)
Theorem X20_sanitize_input_empty_iff_only_markup :
  forall text : string,
    sanitize_input text = EmptyString
    <-> all_space (sub_tags false text) = true.
Proof.
  intros text. destruct (sanitize_input_spec text) as (E & _).
  rewrite E, join_split_collapse. apply collapse_empty.
Qed.
End SanitizeEmpty.

Section EmptyText.
Context {World : Type} (env : Collaborators World) (settings : Settings.t).

(** X21: the length check is on the raw text, the stages read the
    sanitized one. A text of 1 to 1000 characters that is nothing but tags
    and whitespace passes validation, and in an admitted request the first
    stage (the classifier, or the retriever on [/retrieve]) runs on the
    empty string. *)
Theorem X21_markup_only_text_reaches_the_stages_empty :
  forall (ep : Main.Endpoint) (pipeline : Pipeline.t) (request : Main.Request)
         (raw_text : string) (raw_metadata : option (list (string * string)))
         (st st1 : State World),
    1 <= Z.of_nat (String.length raw_text) <= 1000 ->
    TextSpec.all_space (Utils.sub_tags false raw_text) = true ->
    Main.check env request st = (Ok tt, st1) ->
    exists res st' rest,
      Main.post env settings ep pipeline request raw_text raw_metadata st
      = (res, st')
      /\ log st' = log st1
                   ++ match ep with
                      | Main.EpRetrieve => EvRetrieve EmptyString
                      | _ => EvClassify EmptyString
                      end :: rest.
Proof.
  intros ep pipeline request raw_text raw_metadata st st1 [Hlo Hhi] Hm Hc.
  unfold Main.post, bind, lift_res, UserQuery.validate,
    UserQuery.min_length, UserQuery.max_length.
  destruct (Z.ltb_spec (Z.of_nat (String.length raw_text)) 1); [lia|].
  destruct (Z.ltb_spec 1000 (Z.of_nat (String.length raw_text))); [lia|].
  destruct (handler_first_stage env settings ep pipeline request
              {| UserQuery.text := raw_text; UserQuery.metadata := raw_metadata |}
              st st1 Hc) as (res & st' & first & rest & E & [L _] & F).
  cbn [UserQuery.text] in F.
  destruct (sanitize_input_spec raw_text) as (Es & _).
  assert (Z0 : Utils.sanitize_input raw_text = EmptyString).
  { rewrite Es, join_split_collapse. apply collapse_empty. exact Hm. }
  rewrite Z0 in F. subst first.
  exists res, st', rest. split; [exact E | exact L].
Qed.
End EmptyText.

Lemma X21_markup_only_text_reaches_the_stages_empty_witness :
  exists res st' rest,
    Main.post (Double.healthy true) Settings.default Main.EpClassify
      Double.pipeline Double.request "<br> <hr>" None Double.start = (res, st')
    /\ log st'
       = log (snd (Main.check (Double.healthy true) Double.request Double.start))
         ++ EvClassify EmptyString :: rest.
Proof.
  apply (X21_markup_only_text_reaches_the_stages_empty (Double.healthy true)
           Settings.default Main.EpClassify Double.pipeline Double.request
           "<br> <hr>" None Double.start).
  - vm_compute. split; discriminate.
  - vm_compute. reflexivity.
  - vm_compute. reflexivity.
Defined.

(** ** The rate limiter at the edges of its configuration *)

Section LimiterEdges.
Import RateLimiter RateSpec RateRuns.

Lemma admit_each_fresh_calls (c : string) (times : list Z) :
  forall self : t,
    Z.of_nat (length (timestamps self c)) + Z.of_nat (length times)
    <= max_requests self ->
    fst (admit_each self c times) = List.map (fun _ => true) times.
Proof.
  induction times as [|now rest IH]; intros self H; [reflexivity|].
  rewrite admit_each_cons.
  pose proof (length_filter (fun ts => now - ts < window self) (timestamps self c))
    as Hk.
  cbn [length] in H.
  destruct (step_admit self now c _ eq_refl) as (F & T & M & _); [lia|].
  rewrite F, IH; [reflexivity|].
  rewrite T, M, length_app. cbn [length]. lia.
Qed.

(** X22: a client's first [max_requests] calls to a fresh server are all
    admitted, whatever the window and whatever the clock reads. *)
Theorem X22_first_calls_are_admitted :
  forall (max_requests window_seconds : Z) (client_id : string) (times : list Z),
    Z.of_nat (length times) <= max_requests ->
    fst (admit_each (init max_requests window_seconds) client_id times)
    = List.map (fun _ => true) times.
Proof.
  intros m ws c times H. apply admit_each_fresh_calls.
  change (timestamps (init m ws) c) with (@nil Z).
  change (RateLimiter.max_requests (init m ws)) with m.
  cbn [length]. lia.
Qed.

Lemma X22_first_calls_are_admitted_witness :
  fst (admit_each (init 3 60) "10.0.0.7" [seconds 50; seconds 0; seconds 50])
  = [true; true; true].
Proof.
  apply (X22_first_calls_are_admitted 3 60 "10.0.0.7"
           [seconds 50; seconds 0; seconds 50]).
  simpl. lia.
Defined.

Lemma reachable_closed (self0 self : t) :
  max_requests self0 <= 0 ->
  (forall c, timestamps self0 c = []) ->
  reachable self0 self ->
  max_requests self = max_requests self0 /\ forall c, timestamps self c = [].
Proof.
  intros Hm H0 R. induction R as [|self now c R (IHm & IHt)]; [auto|].
  destruct (step_reject self now c _ (IHt c)) as (_ & T & M & _).
  { simpl. lia. }
  split; [congruence|]. intros c'.
  destruct (decide (c = c')) as [<-|Hne]; [exact T|].
  destruct (is_allowed_timestamps self now c) as (_ & _ & _ & _ & O).
  rewrite (O c' Hne). apply IHt.
Qed.

(** X23: with a limit of zero or less the server refuses every call of
    every client and never records a timestamp. *)
Theorem X23_no_call_admitted_without_quota :
  forall (max_requests window_seconds : Z) (self : t) (now : Z)
         (client_id : string),
    max_requests <= 0 ->
    reachable (init max_requests window_seconds) self ->
    fst (is_allowed self now client_id) = false
    /\ forall c, timestamps (snd (is_allowed self now client_id)) c = [].
Proof.
  intros m ws self now c Hm R.
  destruct (reachable_closed (init m ws) self Hm (fun _ => eq_refl) R) as (M & T).
  destruct (step_reject self now c _ (T c)) as (F & _).
  { simpl. rewrite M. simpl. lia. }
  split; [exact F|].
  apply (reachable_closed (init m ws) _ Hm (fun _ => eq_refl)
           (reach_call _ self now c R)).
Qed.

Lemma X23_no_call_admitted_without_quota_witness :
  fst (is_allowed (init 0 60) (seconds 5) "10.0.0.7") = false.
Proof.
  destruct (X23_no_call_admitted_without_quota 0 60 (init 0 60) (seconds 5)
              "10.0.0.7") as (H & _).
  - lia.
  - apply reach_init.
  - exact H.
Defined.

Lemma admit_each_no_window (c : string) (times : list Z) :
  forall (self : t) (t0 : Z),
    1 <= max_requests self ->
    window self <= 0 ->
    ascending t0 times ->
    Forall (fun ts => ts <= t0) (timestamps self c) ->
    fst (admit_each self c times) = List.map (fun _ => true) times.
Proof.
  induction times as [|now rest IH]; intros self t0 Hm Hw Ha Hts;
    [reflexivity|].
  destruct Ha as [Hle Ha].
  rewrite admit_each_cons.
  assert (K : filter (fun ts => now - ts < window self) (timestamps self c) = []).
  { induction Hts as [|x l Hx _ IHl]; [reflexivity|].
    rewrite filter_cons_False by lia. exact IHl. }
  destruct (step_admit self now c _ eq_refl) as (F & T & M & W).
  { rewrite K. simpl. lia. }
  rewrite F, (IH _ now); [reflexivity | lia | lia | exact Ha |].
  rewrite T, K. repeat constructor. lia.
Qed.

(** X24: a window of zero seconds or less limits nothing: with a clock
    that never goes back and a limit of at least one, every call is
    admitted. *)
Theorem X24_no_limit_without_window :
  forall (max_requests window_seconds : Z) (client_id : string)
         (t0 : Z) (times : list Z),
    1 <= max_requests ->
    window_seconds <= 0 ->
    ascending t0 times ->
    fst (admit_each (init max_requests window_seconds) client_id times)
    = List.map (fun _ => true) times.
Proof.
  intros m ws c t0 times Hm Hw Ha.
  apply (admit_each_no_window c times (init m ws) t0);
    [exact Hm | simpl; lia | exact Ha | constructor].
Qed.

Lemma X24_no_limit_without_window_witness :
  fst (admit_each (init 1 0) "10.0.0.7" [seconds 1; seconds 1; seconds 2])
  = [true; true; true].
Proof.
  apply (X24_no_limit_without_window 1 0 "10.0.0.7" 0
           [seconds 1; seconds 1; seconds 2]).
  - lia.
  - lia.
  - vm_compute. repeat split; congruence.
Defined.
End LimiterEdges.

(** ** src/answer_judge.py: the part of [passed_all] *)

Section PassedAll.
Import PyNum JudgeSpec.

Lemma fired_early (th : Z) (s : float) (p p' : bool) (cc : float) (r : rule) :
  fired th s p cc = Some r ->
  r = R1 \/ r = R2 \/ r = R3 ->
  fired th s p' cc = Some r.
Proof.
  unfold fired, rule_order, first_match.
  change (guard th s p cc R1) with (guard th s p' cc R1).
  change (guard th s p cc R2) with (guard th s p' cc R2).
  change (guard th s p cc R3) with (guard th s p' cc R3).
  destruct (guard th s p' cc R1); [auto|].
  destruct (guard th s p' cc R2); [auto|].
  destruct (guard th s p' cc R3); [auto|].
  destruct (guard th s p cc R4); intros [= <-] [H|[H|H]]; discriminate H.
Qed.

(** X25: whether the checks passed decides only between manual review
    and reject. Two quality results with the same overall score are both
    accepted or both not, whatever their checks and flags; an answer with
    failed checks is accepted when score and confidence suffice. *)
Theorem X25_acceptance_ignores_the_checks :
  forall (self : AnswerJudge.t) (qr qr' : QualityCheckResult.t) (cc : float)
         (d d' : JudgeDecision.t),
    QualityCheckResult.overall_score qr = QualityCheckResult.overall_score qr' ->
    AnswerJudge.judge self qr cc = Ok d ->
    AnswerJudge.judge self qr' cc = Ok d' ->
    (JudgeDecision.decision d = accept <-> JudgeDecision.decision d' = accept)
    /\ (QualityCheckResult.passed_all qr = QualityCheckResult.passed_all qr' ->
        JudgeDecision.decision d = JudgeDecision.decision d')
    /\ JudgeDecision.confidence d = JudgeDecision.confidence d'.
Proof.
  intros self qr qr' cc d d' Hs H H'.
  destruct (judge_fired self qr cc) as (r & F & J).
  destruct (judge_fired self qr' cc) as (r' & F' & J').
  rewrite J in H. rewrite J' in H'. injection H as <-. injection H' as <-.
  cbn [JudgeDecision.decision JudgeDecision.confidence].
  rewrite <- Hs in F'. split; [|split].
  - split; intros A.
    + assert (E : fired (AnswerJudge.threshold self)
                    (QualityCheckResult.overall_score qr)
                    (QualityCheckResult.passed_all qr') cc = Some r)
        by (apply (fired_early _ _ _ _ _ _ F); destruct r; auto; discriminate A).
      congruence.
    + assert (E : fired (AnswerJudge.threshold self)
                    (QualityCheckResult.overall_score qr)
                    (QualityCheckResult.passed_all qr) cc = Some r')
        by (apply (fired_early _ _ _ _ _ _ F'); destruct r'; auto; discriminate A).
      congruence.
  - intros P. rewrite P in F. congruence.
  - rewrite Hs. reflexivity.
Qed.

Lemma X25_acceptance_ignores_the_checks_witness :
  exists d d',
    AnswerJudge.judge default_judge (quality 85 true) 0.75%float = Ok d
    /\ AnswerJudge.judge default_judge (quality 85 false) 0.75%float = Ok d'
    /\ (JudgeDecision.decision d = accept <-> JudgeDecision.decision d' = accept).
Proof.
  destruct (AnswerJudge.judge default_judge (quality 85 true) 0.75%float)
    as [d|e] eqn:E; [|vm_compute in E; discriminate E].
  destruct (AnswerJudge.judge default_judge (quality 85 false) 0.75%float)
    as [d'|e'] eqn:E'; [|vm_compute in E'; discriminate E'].
  exists d, d'. split; [reflexivity|]. split; [reflexivity|].
  apply (X25_acceptance_ignores_the_checks default_judge (quality 85 true)
           (quality 85 false) 0.75%float d d' eq_refl E E').
Defined.
End PassedAll.

(** ** src/quality_check.py: what the checks see of the documents *)

Section CheckedDocuments.
Context {World : Type} (env : Collaborators World).

Lemma run_checks_first_two (query answer : string) (docs docs' : list string)
    (criteria : list criterion) :
  take 2 docs = take 2 docs' ->
  forall (checks : list QualityCheck.t) (st st' : State World),
    world st = world st' ->
    fst (QualityChecker.run_checks env query answer docs criteria checks st)
    = fst (QualityChecker.run_checks env query answer docs' criteria checks st')
    /\ world (snd (QualityChecker.run_checks env query answer docs criteria
                     checks st))
       = world (snd (QualityChecker.run_checks env query answer docs' criteria
                       checks st')).
Proof.
  intros Ht. induction criteria as [|c rest IH]; intros checks st st' Hw.
  - simpl. unfold ret. simpl. auto.
  - cbn [QualityChecker.run_checks].
    unfold QualityChecker._run_single_check. unfold bind, ask, ret.
    rewrite <- Ht, <- Hw.
    destruct (llm_single_check env query answer (take 2 docs) c (world st))
      as [[a|e] w]; cbv beta iota; [|simpl; auto].
    apply IH. reflexivity.
Qed.

(** X26: the quality checks see the first two documents only. Two lists
    of documents that agree on their first two entries give the same
    quality result, or the same failure, and leave the same world: what
    retrieval returns beyond the second document cannot change a score. *)
Theorem X26_checks_read_two_documents :
  forall (query answer : string) (docs docs' : list string) (st : State World),
    take 2 docs = take 2 docs' ->
    fst (QualityChecker.check_quality env query answer docs st)
    = fst (QualityChecker.check_quality env query answer docs' st)
    /\ world (snd (QualityChecker.check_quality env query answer docs st))
       = world (snd (QualityChecker.check_quality env query answer docs' st)).
Proof.
  intros query answer docs docs' st Ht.
  unfold QualityChecker.check_quality.
  unfold bind, emit. cbv beta iota.
  match goal with
  | |- context [QualityChecker.run_checks env query answer docs _ _ ?s1] =>
      match goal with
      | |- context [QualityChecker.run_checks env query answer docs' _ _ ?s2] =>
          destruct (run_checks_first_two query answer docs docs'
                      QualityChecker.check_criteria Ht [] s1 s2 eq_refl)
            as (F & W)
      end
  end.
  destruct (QualityChecker.run_checks env query answer docs _ _ _)
    as [r1 s1] eqn:E1.
  destruct (QualityChecker.run_checks env query answer docs' _ _ _)
    as [r2 s2] eqn:E2.
  cbn [fst snd] in F, W. subst r2.
  destruct r1 as [l|e]; unfold lift_res; cbn [fst snd]; auto.
Qed.
End CheckedDocuments.

Lemma X26_checks_read_two_documents_witness :
  fst (QualityChecker.check_quality (Double.healthy true) "hours?" "9 to 5"
         (Double.docs ++ ["Q: parking? A: none"]) Double.start)
  = fst (QualityChecker.check_quality (Double.healthy true) "hours?" "9 to 5"
           Double.docs Double.start).
Proof.
  apply (X26_checks_read_two_documents (Double.healthy true) "hours?" "9 to 5"
           (Double.docs ++ ["Q: parking? A: none"]) Double.docs Double.start).
  reflexivity.
Defined.
